(** * ktune: the step-overshoot analyzer and the timed trajectory drivers

    A shallow embedding of [src/ktune/ktune.py].

    - [Analyzer] embeds [compute_step_overshoots] and the schedule built in
      [main].  Its numbers are IEEE binary64 values (Rocq's primitive
      floats), because the behaviour of the metric at not-a-number samples
      and at a zero divisor is a property of that arithmetic.  numpy's
      [np.where], indexing by an index array, [np.max] and [np.min] are
      written out as list functions following numpy's documented behaviour;
      an [IndexError] or [ValueError] is the result [None].
    - [Driver] embeds [run_sine_test] and [run_step_test] with the wall
      clock, the actuator endpoint and the record being filled threaded as
      explicit state.  The period and the pass count of the sine test are
      computed in binary64, as Python computes them, exceptions included;
      the other quantities are read over the reals: the sine command and
      its derivative, and the pacing of the loops, are statements of exact
      arithmetic.  The not-a-number sentinel and Python's
      [None] are separate constructors of the recorded values.  Time passes
      in calls to the endpoint, by the latency the endpoint gives each call,
      and in [asyncio.sleep], which wakes exactly when the delay is over;
      exceptions raised by the transport are not modelled.  The [while]
      loops of the step driver take a bound on their passes ([fuel]) and
      return [None] when it is not enough.
    - [Harness] embeds [collect_data], the two test processes
      [run_sim_test] and [run_real_test], and the overshoot figure [main]
      puts in the title, over the same world and record as [Driver].  The
      argument parser, the process and queue plumbing and the plotting of
      [main] are not modelled. *)

From Stdlib Require Import ZArith List Bool Arith Lia Reals Lra Floats.
Import ListNotations.

(** ** Errors as [option]: [None] stands for a raised exception *)

Definition bind {A B : Type} (m : option A) (k : A -> option B) : option B :=
  match m with
  | Some a => k a
  | None => None
  end.

Declare Scope pyerr_scope.
Delimit Scope pyerr_scope with pyerr.
Notation "x <- m ;; k" := (bind m (fun x => k))
  (at level 61, m at next level, right associativity) : pyerr_scope.
Notation "' p <- m ;; k" := (bind m (fun p => k))
  (at level 61, p pattern, m at next level, right associativity) : pyerr_scope.

Module Analyzer.

Local Open Scope float_scope.
Local Open Scope pyerr_scope.

(** One phase of a step schedule: [(target, velocity, duration)]. *)
Definition step : Type := (float * float * float)%type.

Definition target (s : step) : float := fst (fst s).
Definition duration (s : step) : float := snd s.

(** *** numpy, as far as the analyzer uses it *)

(** [np.where(mask)[0]]: the positions at which the mask holds, ascending. *)
Fixpoint where_from (k : nat) (mask : list bool) : list nat :=
  match mask with
  | [] => []
  | b :: mask' => (if b then [k] else []) ++ where_from (S k) mask'
  end.

Definition np_where (mask : list bool) : list nat := where_from 0 mask.

(** [a[idx]] for an index array: [IndexError] when an index is out of range. *)
Fixpoint np_take (a : list float) (idx : list nat) : option (list float) :=
  match idx with
  | [] => Some []
  | j :: idx' =>
      x <- nth_error a j ;;
      xs <- np_take a idx' ;;
      Some (x :: xs)
  end.

(** [np.maximum] and [np.minimum] on two scalars: the first operand is kept
    when it compares at least (at most) the second or is not-a-number, so a
    not-a-number on either side is the result. *)
Definition np_maximum (in1 in2 : float) : float :=
  if (in2 <=? in1) || is_nan in1 then in1 else in2.

Definition np_minimum (in1 in2 : float) : float :=
  if (in1 <=? in2) || is_nan in1 then in1 else in2.

(** [np.max] and [np.min] reduce from the first element on; on an empty
    array they raise [ValueError]. *)
Definition np_max (a : list float) : option float :=
  match a with
  | [] => None
  | x :: xs => Some (fold_left np_maximum xs x)
  end.

Definition np_min (a : list float) : option float :=
  match a with
  | [] => None
  | x :: xs => Some (fold_left np_minimum xs x)
  end.

(** Python's builtin [max(a, b)]: [b] only when [b > a]. *)
Definition py_max (a b : float) : float := if a <? b then b else a.

(** *** compute_step_overshoots *)

(** The array of step command times: cumulative durations, starting at 0.0
    ([step_times[-1]] is the last element; the list is never empty). *)
Definition step_times (steps : list step) : list float :=
  fold_left (fun st s => st ++ [last st 0 + duration s]) steps [0].

(** The mask [(time_array >= command_time) & (time_array <= window_end)]. *)
Definition in_window (command_time window_end t : float) : bool :=
  (command_time <=? t) && (t <=? window_end).

(** One pass of the loop over transitions, from the accumulated
    [overshoots] to the next. *)
Definition overshoot_iter (time_array pos_array : list float)
    (steps : list step) (window_duration : float)
    (overshoots : list float) (i : nat) : option (list float) :=
  s_old <- nth_error steps (i - 1) ;;
  s_new <- nth_error steps i ;;
  let old_target := target s_old in
  let new_target := target s_new in
  command_time <- nth_error (step_times steps) i ;;
  let window_end := command_time + window_duration in
  let idx := np_where (map (in_window command_time window_end) time_array) in
  if Nat.eqb (length idx) 0 then Some overshoots
  else
    p_window <- np_take pos_array idx ;;
    overshoot <-
      (if old_target <? new_target then
         peak <- np_max p_window ;;
         Some ((peak - new_target) / (new_target - old_target) * 100)
       else
         trough <- np_min p_window ;;
         Some ((new_target - trough) / (old_target - new_target) * 100)) ;;
    Some (overshoots ++ [py_max 0 overshoot]).

(** The transitions the loop visits: [range(1, len(steps))]. *)
Definition transitions (steps : list step) : list nat :=
  seq 1 (length steps - 1).

(** [for i in range(1, len(steps))], an exception ending the loop. *)
Definition compute_step_overshoots (time_array pos_array : list float)
    (steps : list step) (window_duration : float) : option (list float) :=
  fold_left
    (fun acc i =>
       overshoots <- acc ;;
       overshoot_iter time_array pos_array steps window_duration overshoots i)
    (transitions steps) (Some []).

(** *** The schedule of [main] *)

(** [steps_list]: an initial hold at 0, then [step_count] times a step up
    and a step down.  [vel_limit] is [args.vel_limit] when the parsed
    arguments carry one ([hasattr]); the parser defines none. *)
Definition steps_list (vel_limit : option float)
    (step_size step_hold_time : float) (step_count : Z) : list step :=
  let vel := match vel_limit with Some v => v | None => 200 end in
  fold_left
    (fun l _ => (l ++ [(step_size, vel, step_hold_time)])
                  ++ [(0, vel, step_hold_time)])
    (seq 0 (Z.to_nat step_count))
    [(0, vel, step_hold_time)].

(** The headline figure: [max(overshoots) if len(overshoots) > 0 else 0.0]. *)
Definition max_overshoot (overshoots : list float) : float :=
  match overshoots with
  | [] => 0
  | x :: xs => fold_left py_max xs x
  end.

(** *** Notions the statements about the analyzer use *)

(** The nominal command time of phase [i]: the sum, from 0.0 and in order,
    of the durations of the phases before it. *)
Definition command_time (steps : list step) (i : nat) : float :=
  fold_left PrimFloat.add (map duration (firstn i steps)) 0.

(** The measured positions whose time stamp lies in
    [[command_time, command_time + window_duration]], in recording order. *)
Definition window_samples (time_array pos_array : list float)
    (c window_duration : float) : list float :=
  map snd
    (filter (fun tp => in_window c (c + window_duration) (fst tp))
       (combine time_array pos_array)).

(** The window of transition [i] (from phase [i - 1] to phase [i]). *)
Definition transition_window (time_array pos_array : list float)
    (steps : list step) (window_duration : float) (i : nat) : list float :=
  window_samples time_array pos_array (command_time steps i) window_duration.

Definition nonempty {A : Type} (l : list A) : bool :=
  match l with
  | [] => false
  | _ :: _ => true
  end.

(** How many of the transitions [1 .. i - 1] have a sample in their window:
    the position, in the result, of the entry of transition [i]. *)
Definition emitted_before (time_array pos_array : list float)
    (steps : list step) (window_duration : float) (i : nat) : nat :=
  length
    (filter
       (fun j => nonempty
                   (transition_window time_array pos_array steps window_duration j))
       (seq 1 (i - 1))).

(** The running sums of the durations, from [acc]. *)
Fixpoint cumul (acc : float) (l : list step) : list float :=
  match l with
  | [] => []
  | s :: l' => (acc + duration s) :: cumul (acc + duration s) l'
  end.

(** What a transition adds to the result, given its two targets and its
    window. *)
Definition entry (old_target new_target : float) (win : list float) : list float :=
  match win with
  | [] => []
  | x :: xs =>
      [py_max 0
         (if old_target <? new_target
          then (fold_left np_maximum xs x - new_target)
               / (new_target - old_target) * 100
          else (new_target - fold_left np_minimum xs x)
               / (old_target - new_target) * 100)]
  end.

Definition transition_entry (time_array pos_array : list float)
    (steps : list step) (window_duration : float) (i : nat) : list float :=
  match nth_error steps (i - 1), nth_error steps i with
  | Some s_old, Some s_new =>
      entry (target s_old) (target s_new)
        (transition_window time_array pos_array steps window_duration i)
  | _, _ => []
  end.

(** The target of phase [i] of the schedule of [main]: 0 on the even
    phases, [step_size] on the odd ones. *)
Definition phase_target (step_size : float) (i : nat) : float :=
  if Nat.even i then 0 else step_size.

(** The sum, from 0.0 and in order, of [i] hold times. *)
Definition nominal_time (step_hold_time : float) (i : nat) : float :=
  fold_left PrimFloat.add (repeat step_hold_time i) 0.

(** Zero, subnormal or normal: neither infinite nor not-a-number. *)
Definition SFfinite (x : spec_float) : bool :=
  match x with
  | S754_zero _ | S754_finite _ _ _ => true
  | _ => false
  end.

End Analyzer.


Module Driver.

Local Open Scope R_scope.
Local Open Scope pyerr_scope.

(** *** Values, the endpoint and the clock *)

(** What a record holds at one index of [position], [velocity], [cmd_pos]
    or [cmd_vel]: a number, [float('nan')], or [None]. *)
Inductive pyval : Type :=
| PyNum (r : R)
| PyNaN
| PyNone.

(** [x if x is not None else float('nan')]. *)
Definition none_to_nan (v : pyval) : pyval :=
  match v with
  | PyNone => PyNaN
  | _ => v
  end.

(** [response.states[0]]. *)
Record actuator_state : Type :=
  { state_position : pyval; state_velocity : pyval }.

(** The calls made on [kos.actuator] (the actuator id, the same in each,
    is left out). *)
Inductive request : Type :=
| Configure (kp kd : R) (ki acceleration : option R) (max_torque : R)
    (torque_enabled : bool)
| Command (position : R) (velocity : option R)
| GetState.

(** The endpoint: how long its [k]-th call takes, and what the call answers
    when it is a state query ([None] for an empty [response.states]). *)
Record endpoint : Type :=
  { latency : nat -> R; states : nat -> option actuator_state }.

(** The world a driver runs in: the wall clock [time.time()], the number of
    calls made so far, and the requests sent, in order. *)
Record world : Type :=
  { now : R; calls : nat; sent : list request }.

(** [await kos.actuator.<call>(...)]: the request goes out and the clock
    advances by the call's latency. *)
Definition rpc (env : endpoint) (req : request) (w : world) : world :=
  {| now := now w + latency env (calls w);
     calls := S (calls w);
     sent := sent w ++ [req] |}.

Definition get_actuators_state (env : endpoint) (w : world)
  : option actuator_state * world :=
  (states env (calls w), rpc env GetState w).

(** [await asyncio.sleep(delay)]: the clock advances by a positive delay;
    any other delay returns at once. *)
Definition asyncio_sleep (delay : R) (w : world) : world :=
  if Rlt_dec 0 delay
  then {| now := now w + delay; calls := calls w; sent := sent w |}
  else w.

(** *** The record *)

(** [data_dict]: a key that [setdefault] would create is an empty list. *)
Record data_dict : Type :=
  { cmd_time : list R;
    resp_time : list R;
    cmd_pos : list pyval;
    cmd_vel : list pyval;
    time : list R;
    position : list pyval;
    velocity : list pyval }.

Definition empty_dict : data_dict :=
  {| cmd_time := []; resp_time := []; cmd_pos := []; cmd_vel := [];
     time := []; position := []; velocity := [] |}.

(** The three appends to [cmd_time], [cmd_pos], [cmd_vel]. *)
Definition log_command (t : R) (p v : pyval) (d : data_dict) : data_dict :=
  {| cmd_time := cmd_time d ++ [t];
     resp_time := resp_time d;
     cmd_pos := cmd_pos d ++ [p];
     cmd_vel := cmd_vel d ++ [v];
     time := time d;
     position := position d;
     velocity := velocity d |}.

(** The three appends to [time], [position], [velocity]. *)
Definition log_measure (t : R) (p v : pyval) (d : data_dict) : data_dict :=
  {| cmd_time := cmd_time d;
     resp_time := resp_time d;
     cmd_pos := cmd_pos d;
     cmd_vel := cmd_vel d;
     time := time d ++ [t];
     position := position d ++ [p];
     velocity := velocity d ++ [v] |}.

Definition log_resp_time (t : R) (d : data_dict) : data_dict :=
  {| cmd_time := cmd_time d;
     resp_time := resp_time d ++ [t];
     cmd_pos := cmd_pos d;
     cmd_vel := cmd_vel d;
     time := time d;
     position := position d;
     velocity := velocity d |}.

(** A driver's state: the world and the record it fills. *)
Record run : Type := { w : world; d : data_dict }.

(** *** Configuration *)

Record gain_set : Type :=
  { kp : R; kd : R; ki : R; sim_kp : R; sim_kv : R }.

Record limits : Type :=
  { acceleration : R; max_torque : R; torque_enabled : bool }.

(** Python's [a / b] on floats: [ZeroDivisionError] for a zero divisor of
    either sign, the binary64 quotient otherwise. *)
Definition py_div (a b : float) : option float :=
  if (b =? 0)%float then None else Some (a / b)%float.

(** [int(x)] on a float: truncation towards zero; [OverflowError] on an
    infinity, [ValueError] on not-a-number. *)
Definition py_int (x : float) : option Z :=
  match Prim2SF x with
  | S754_zero _ => Some 0%Z
  | S754_finite s m e =>
      let magnitude := Z.shiftl (Z.pos m) e in
      Some (if s then (- magnitude)%Z else magnitude)
  | S754_infinity _ | S754_nan => None
  end.

(** The real number a finite binary64 value stands for. *)
Definition B2R (x : float) : R :=
  match Prim2SF x with
  | S754_finite s m e => IZR (if s then Z.neg m else Z.pos m) * powerRZ 2 e
  | _ => 0
  end.

(** *** run_sine_test *)

(** [(used_kp, used_kd, used_ki)] of the sine test. *)
Definition sine_gains (is_real : bool) (g : gain_set) : R * R * R :=
  if is_real then (kp g, kd g, ki g) else (sim_kp g, sim_kv g, 0).

Definition sine_configure (is_real : bool) (g : gain_set) (lim : limits)
  : request :=
  let '(used_kp, used_kd, used_ki) := sine_gains is_real g in
  if is_real
  then Configure used_kp used_kd (Some used_ki) (Some (acceleration lim))
         (max_torque lim) (torque_enabled lim)
  else Configure used_kp used_kd None None
         (max_torque lim) (torque_enabled lim).

Definition sine_angle (amplitude freq t : R) : R :=
  amplitude * sin (2 * PI * freq * t).

Definition sine_vel (amplitude freq t : R) : R :=
  amplitude * (2 * PI * freq) * cos (2 * PI * freq * t).

Section SineLoop.

Variable env : endpoint.
Variables amplitude freq dt start_time : R.
Variable request_state : bool.

(** The first part of the loop body: log the command, then send it. *)
Definition sine_command (i : nat) (s : run) : run :=
  let t := INR i * dt in
  let angle := sine_angle amplitude freq t in
  let vel := sine_vel amplitude freq t in
  let t_send := now (w s) - start_time in
  {| w := rpc env (Command angle (Some vel)) (w s);
     d := log_command t_send (PyNum angle) (PyNum vel) (d s) |}.

(** The second part: query the state (or take the command for it), then
    log the measurement. *)
Definition sine_measure (i : nat) (s : run) : run :=
  let t := INR i * dt in
  let angle := sine_angle amplitude freq t in
  let vel := sine_vel amplitude freq t in
  if request_state then
    let '(response, w1) := get_actuators_state env (w s) in
    let t_resp := now w1 - start_time in
    let d1 := log_resp_time t_resp (d s) in
    let '(measured_pos, measured_vel) :=
      match response with
      | Some state => (state_position state, state_velocity state)
      | None => (PyNaN, PyNaN)
      end in
    {| w := w1; d := log_measure t_resp measured_pos measured_vel d1 |}
  else
    let t_resp := now (w s) - start_time in
    let d1 := log_resp_time t_resp (d s) in
    {| w := w s; d := log_measure t_resp (PyNum angle) (PyNum vel) d1 |}.

(** The end of the loop body: [next_tick += dt], then sleep until it if it
    is still ahead. *)
Definition sine_pace (s : run) (next_tick : R) : run * R :=
  let next_tick := next_tick + dt in
  let sleep_time := next_tick - now (w s) in
  (if Rlt_dec 0 sleep_time
   then {| w := asyncio_sleep sleep_time (w s); d := d s |}
   else s,
   next_tick).

Definition sine_iter (sn : run * R) (i : nat) : run * R :=
  sine_pace (sine_measure i (sine_command i (fst sn))) (snd sn).

(** The state after the first [n] passes of [for i in range(steps)]. *)
Definition sine_loop (n : nat) (sn : run * R) : run * R :=
  fold_left sine_iter (seq 0 n) sn.

End SineLoop.

(** The number of passes, as Python computes it in binary64:
    [dt = 1.0 / update_rate], then [int(duration / dt)]; [range] of a
    negative number is empty.  Either division raises on a zero divisor and
    [int] raises on a quotient that is not finite. *)
Definition sine_steps (duration update_rate : float) : option nat :=
  dt <- py_div 1 update_rate ;;
  quotient <- py_div duration dt ;;
  steps <- py_int quotient ;;
  Some (Z.to_nat steps).

(** The period of a run that makes a pass, as a real number. *)
Definition sine_dt (update_rate : float) : R := B2R (1 / update_rate)%float.

(** The whole test: configure, then the period and the pass count (in
    binary64, an exception giving [None]), then the loop, whose clock
    arithmetic is read over the reals at the value of [dt]. *)
Definition run_sine_test (env : endpoint) (amplitude freq : R)
    (duration : float) (g : gain_set) (lim : limits) (update_rate : float)
    (data_dict0 : data_dict) (start_time : R) (is_real request_state : bool)
    (w0 : world) : option run :=
  let w1 := rpc env (sine_configure is_real g lim) w0 in
  dt <- py_div 1 update_rate ;;
  quotient <- py_div duration dt ;;
  steps <- py_int quotient ;;
  let steps := Z.to_nat steps in
  let next_tick := now w1 in
  Some (fst (sine_loop env amplitude freq (B2R dt) start_time request_state
               steps ({| w := w1; d := data_dict0 |}, next_tick))).

(** *** run_step_test *)

(** [(used_kp, used_kd, used_ki)] of the step test. *)
Definition step_gains (is_real : bool) (g : gain_set) : R * R * R :=
  if is_real then (kp g, kd g, ki g) else (sim_kp g, sim_kv g, ki g).

Definition step_configure (is_real : bool) (g : gain_set) (lim : limits)
  : request :=
  let '(used_kp, used_kd, used_ki) := step_gains is_real g in
  Configure used_kp used_kd (Some used_ki) (Some (acceleration lim))
    (max_torque lim) (torque_enabled lim).

(** What a state query contributes to the record. *)
Definition measured (response : option actuator_state) : pyval * pyval :=
  match response with
  | Some state =>
      (none_to_nan (state_position state), none_to_nan (state_velocity state))
  | None => (PyNaN, PyNaN)
  end.

Section StepPhases.

Variable env : endpoint.
Variables start_time sample_period step_hold_time vel_limit : R.

(** The body of a sampling loop, while holding at [cmd]: query, log the
    measurement and a copy of the command, sleep one sample period.  The
    three sampling loops of the source differ in the command they copy
    (and the first prints what it measured). *)
Definition hold_iter (cmd : R) (s : run) : run :=
  let '(response, w1) := get_actuators_state env (w s) in
  let t_resp := now w1 - start_time in
  let '(measured_pos, measured_vel) := measured response in
  let d1 := log_measure t_resp measured_pos measured_vel (d s) in
  let d2 := log_command t_resp (PyNum cmd) (PyNum vel_limit) d1 in
  {| w := asyncio_sleep sample_period w1; d := d2 |}.

(** [while time.time() < end_hold], cut after [k] passes. *)
Fixpoint hold_upto (k : nat) (end_hold cmd : R) (s : run) : run :=
  match k with
  | O => s
  | S k' =>
      if Rlt_dec (now (w s)) end_hold
      then hold_upto k' end_hold cmd (hold_iter cmd s)
      else s
  end.

(** The sampling loop: [None] when [fuel] passes do not reach its end. *)
Definition hold_loop (fuel : nat) (end_hold cmd : R) (s : run) : option run :=
  let s' := hold_upto fuel end_hold cmd s in
  if Rlt_dec (now (w s')) end_hold then None else Some s'.

(** The start of a phase: log the new command with a stand-in measurement
    ([shown], velocity 0.0), then send the command without a velocity. *)
Definition step_block (cmd shown : R) (s : run) : run :=
  let t_send := now (w s) - start_time in
  let d1 := log_command t_send (PyNum cmd) (PyNum vel_limit) (d s) in
  let d2 := log_measure t_send (PyNum shown) (PyNum 0) d1 in
  {| w := rpc env (Command cmd None) (w s); d := d2 |}.

(** One phase: its start, then sampling until [end_hold]. *)
Definition step_phase (fuel : nat) (cmd shown : R) (s : run) : option run :=
  let s1 := step_block cmd shown s in
  let end_hold := now (w s1) + step_hold_time in
  hold_loop fuel end_hold cmd s1.

(** One pass of [for _ in range(step_count)]: step up, step down. *)
Definition step_cycle (fuel : nat) (step_size : R) (s : run) : option run :=
  s1 <- step_phase fuel step_size 0 s ;;
  step_phase fuel 0 step_size s1.

(** [for _ in range(step_count)], an exception ending the loop. *)
Definition cycles (fuel : nat) (step_size : R) (l : list nat) (s : run)
  : option run :=
  fold_left (fun acc _ => s <- acc ;; step_cycle fuel step_size s) l (Some s).

End StepPhases.

(** The whole test: the gains, the time origin ([time.time()] when none is
    given), the configuring call, the initial hold at 0, then the cycles.
    [1.0 / sample_rate] raises [ZeroDivisionError] for a zero rate. *)
Definition run_step_test (fuel : nat) (env : endpoint)
    (step_size step_hold_time : R) (step_count : Z)
    (g : gain_set) (lim : limits) (vel_limit : R) (data_dict0 : data_dict)
    (start_time : option R) (sample_rate : R) (is_real : bool) (w0 : world)
  : option run :=
  let start_time :=
    match start_time with Some t => t | None => now w0 end in
  let w1 := rpc env (step_configure is_real g lim) w0 in
  if Req_dec_T sample_rate 0 then None
  else
    let sample_period := 1 / sample_rate in
    s1 <- step_phase env start_time sample_period step_hold_time vel_limit
            fuel 0 0 {| w := w1; d := data_dict0 |} ;;
    cycles env start_time sample_period step_hold_time vel_limit
      fuel step_size (seq 0 (Z.to_nat step_count)) s1.

(** *** The defaults of [main]'s parser, and a fresh connection *)

Definition default_gains : gain_set :=
  {| kp := 20; kd := 55; ki := 1 / 100; sim_kp := 24; sim_kv := 3 / 4 |}.

Definition default_limits : limits :=
  {| acceleration := 2000; max_torque := 100; torque_enabled := true |}.

Definition fresh_world (t : R) : world :=
  {| now := t; calls := 0; sent := [] |}.

(** *** Notions the statements about the drivers use *)

(** The two triples of a record have equal lengths. *)
Definition aligned (r : data_dict) : Prop :=
  length (time r) = length (position r)
  /\ length (position r) = length (velocity r)
  /\ length (cmd_time r) = length (cmd_pos r)
  /\ length (cmd_pos r) = length (cmd_vel r).

Definition nondecreasing (l : list R) : Prop :=
  forall i j a b,
    (i <= j)%nat -> nth_error l i = Some a -> nth_error l j = Some b -> a <= b.

(** [l'] is [l] with elements appended. *)
Definition grows {A : Type} (l l' : list A) : Prop :=
  exists added, l' = l ++ added.

(** Every sequence of [r'] is the one of [r] with elements appended. *)
Definition extends (r r' : data_dict) : Prop :=
  grows (cmd_time r) (cmd_time r')
  /\ grows (resp_time r) (resp_time r')
  /\ grows (cmd_pos r) (cmd_pos r')
  /\ grows (cmd_vel r) (cmd_vel r')
  /\ grows (time r) (time r')
  /\ grows (position r) (position r')
  /\ grows (velocity r) (velocity r').

(** A well-formed state of a run: aligned triples, non-decreasing time
    stamps, none of them later than the clock. *)
Definition record_ok (start_time : R) (s : run) : Prop :=
  aligned (d s)
  /\ nondecreasing (time (d s))
  /\ nondecreasing (cmd_time (d s))
  /\ Forall (fun t => t <= now (w s) - start_time) (time (d s))
  /\ Forall (fun t => t <= now (w s) - start_time) (cmd_time (d s)).

(** The calls a pass of the sine loop makes, and the time they take, when
    the loop was entered after [c] calls. *)
Definition sine_calls (request_state : bool) : nat :=
  if request_state then 2%nat else 1%nat.

Definition sine_io (env : endpoint) (request_state : bool) (c i : nat) : R :=
  latency env (c + sine_calls request_state * i)
  + (if request_state
     then latency env (S (c + sine_calls request_state * i))
     else 0).

(** What pass [i] of the sine loop records as measured position and
    velocity. *)
Definition sine_measured (env : endpoint) (amplitude freq dt : R)
    (request_state : bool) (c i : nat) : pyval * pyval :=
  if request_state then
    match states env (S (c + 2 * i)) with
    | Some state => (state_position state, state_velocity state)
    | None => (PyNaN, PyNaN)
    end
  else (PyNum (sine_angle amplitude freq (INR i * dt)),
        PyNum (sine_vel amplitude freq (INR i * dt))).

(** A state that follows another: the record extends it, the clock has not
    gone back, and well-formedness is kept. *)
Definition follows (start_time : R) (s s' : run) : Prop :=
  extends (d s) (d s')
  /\ now (w s) <= now (w s')
  /\ (record_ok start_time s -> record_ok start_time s').

(** The time the calls of a pass take, from the number of calls made
    before it. *)
Definition pass_io (env : endpoint) (request_state : bool) (c : nat) : R :=
  latency env c + (if request_state then latency env (S c) else 0).

(** What a pass records as measured, from the number of calls made before
    it. *)
Definition pass_measured (env : endpoint) (amplitude freq dt : R)
    (request_state : bool) (c i : nat) : pyval * pyval :=
  if request_state then
    match states env (S c) with
    | Some state => (state_position state, state_velocity state)
    | None => (PyNaN, PyNaN)
    end
  else (PyNum (sine_angle amplitude freq (INR i * dt)),
        PyNum (sine_vel amplitude freq (INR i * dt))).

(** The requests of pass [i]. *)
Definition pass_requests (amplitude freq dt : R) (request_state : bool)
    (i : nat) : list request :=
  Command (sine_angle amplitude freq (INR i * dt))
    (Some (sine_vel amplitude freq (INR i * dt)))
  :: (if request_state then [GetState] else []).

(** The time the calls of the first [n] passes take. *)
Definition io_total (env : endpoint) (request_state : bool) (c n : nat) : R :=
  fold_right Rplus 0 (map (sine_io env request_state c) (seq 0 n)).

(** The rows of a step run and its calls go together: after the
    configuring call [c0], call [k] wrote row [n0 + (k - S c0)], and a state
    query wrote there what [measured] makes of its answer. *)
Definition logged (env : endpoint) (c0 n0 : nat) (s : run) : Prop :=
  calls (w s) = length (sent (w s))
  /\ (c0 < calls (w s))%nat
  /\ (length (time (d s)) + S c0 = n0 + calls (w s))%nat
  /\ (length (position (d s)) + S c0 = n0 + calls (w s))%nat
  /\ (length (velocity (d s)) + S c0 = n0 + calls (w s))%nat
  /\ forall k,
      (c0 < k)%nat ->
      nth_error (sent (w s)) k = Some GetState ->
      nth_error (position (d s)) (n0 + (k - S c0))
      = Some (fst (measured (states env k)))
      /\ nth_error (velocity (d s)) (n0 + (k - S c0))
         = Some (snd (measured (states env k))).

End Driver.

(** * The collector, the two test processes and the figure of [main] *)

Module Harness.

Import Driver.
Local Open Scope R_scope.
Local Open Scope pyerr_scope.

(** *** collect_data *)

Section CollectData.

Variable env : endpoint.
Variables start_time stop_time dt : R.

(** One pass of [while True] that did not [break]: query, record the sample
    when a state came back (stamped with the clock read at the top of the
    pass), advance the deadline, sleep until it when it is still ahead. *)
Definition collect_iter (sn : run * R) : run * R :=
  let s := fst sn in
  let t_now := now (w s) in
  let '(response, w1) := get_actuators_state env (w s) in
  let d1 :=
    match response with
    | Some state =>
        log_measure (t_now - start_time)
          (none_to_nan (state_position state))
          (none_to_nan (state_velocity state)) (d s)
    | None => d s
    end in
  let next_sample := snd sn + dt in
  let sleep_time := next_sample - now w1 in
  (if Rlt_dec 0 sleep_time
   then {| w := asyncio_sleep sleep_time w1; d := d1 |}
   else {| w := w1; d := d1 |},
   next_sample).

(** The loop, cut after [k] passes: it breaks when [now > stop_time]. *)
Fixpoint collect_upto (k : nat) (sn : run * R) : run * R :=
  match k with
  | O => sn
  | S k' =>
      if Rlt_dec stop_time (now (w (fst sn)))
      then sn
      else collect_upto k' (collect_iter sn)
  end.

(** The loop: [None] when [fuel] passes do not reach the [break]. *)
Definition collect_loop (fuel : nat) (sn : run * R) : option (run * R) :=
  let sn' := collect_upto fuel sn in
  if Rlt_dec stop_time (now (w (fst sn'))) then Some sn' else None.

End CollectData.

(** The whole collector, on a record that has the keys [time], [position]
    and [velocity] (the function indexes them and creates none).
    [1.0 / sample_rate] raises for a zero rate; the time origin is
    [time.time()] when none is given. *)
Definition collect_data (fuel : nat) (env : endpoint) (data_dict0 : data_dict)
    (stop_time sample_rate : R) (start_time : option R) (w0 : world)
  : option run :=
  if Req_dec_T sample_rate 0 then None
  else
    let dt := 1 / sample_rate in
    let start_time :=
      match start_time with Some t => t | None => now w0 end in
    let next_sample := start_time in
    sn <- collect_loop env start_time stop_time dt fuel
            ({| w := w0; d := data_dict0 |}, next_sample) ;;
    Some (fst sn).

(** *** run_sim_test and run_real_test *)

Inductive test_kind : Type := Sine | Step.

(** The parsed arguments the two test processes read. *)
Record arguments : Type :=
  { test : test_kind;
    amp : R;
    freq : R;
    duration : float;
    step_size : R;
    step_hold_time : R;
    step_count : Z;
    gains : gain_set;
    arg_acceleration : R;
    arg_max_torque : R;
    torque_off : bool;
    sample_rate : R }.

Definition limits_of (args : arguments) : limits :=
  {| acceleration := arg_acceleration args;
     max_torque := arg_max_torque args;
     torque_enabled := negb (torque_off args) |}.

(** One test process on its own connection [w0] to the endpoint [env]: a
    fresh record, the test the arguments name, the record handed back
    ([None] when the test raised and nothing was put on the queue).  The
    two functions of the source differ in the address they connect to and
    in [is_real]. *)
Definition run_test (is_real : bool) (fuel : nat) (env : endpoint)
    (args : arguments) (global_start : R) (w0 : world) : option data_dict :=
  let data := empty_dict in
  s <- match test args with
       | Sine =>
           run_sine_test env (amp args) (freq args) (duration args)
             (gains args) (limits_of args) 50%float data global_start is_real
             true w0
       | Step =>
           run_step_test fuel env (step_size args) (step_hold_time args)
             (step_count args) (gains args) (limits_of args) 400 data
             (Some global_start) (sample_rate args) is_real w0
       end ;;
  Some (d s).

Definition run_sim_test : nat -> endpoint -> arguments -> R -> world
                          -> option data_dict :=
  run_test false.

Definition run_real_test : nat -> endpoint -> arguments -> R -> world
                           -> option data_dict :=
  run_test true.

(** *** The overshoot figure of [main] *)

(** [max(overshoots) if len(overshoots) > 0 else 0.0] over the result of
    [compute_step_overshoots] on the arrays made of one record, with the
    schedule [main] rebuilds and a window of 1.0 s. *)
Definition main_max_overshoot (vel_limit : option float)
    (arg_step_size arg_step_hold_time : float) (arg_step_count : Z)
    (time_array pos_array : list float) : option float :=
  overshoots <-
    Analyzer.compute_step_overshoots time_array pos_array
      (Analyzer.steps_list vel_limit arg_step_size arg_step_hold_time
         arg_step_count) 1%float ;;
  Some (Analyzer.max_overshoot overshoots).

(** *** Notions the statements use *)

Definition is_command (r : request) : bool :=
  match r with
  | Command _ _ => true
  | _ => false
  end.

Definition is_query (r : request) : bool :=
  match r with
  | GetState => true
  | _ => false
  end.

Definition answered (env : endpoint) (k : nat) : bool :=
  match states env k with
  | Some _ => true
  | None => false
  end.

Definition is_none (v : pyval) : bool :=
  match v with
  | PyNone => true
  | _ => false
  end.

(** The time origin of a run: the one given, or the clock at the call. *)
Definition time_origin (start_time : option R) (w0 : world) : R :=
  match start_time with Some t => t | None => now w0 end.

(** The phases of a step run, each as (command, position logged as measured
    at the command): the initial hold, then a step up and a step down per
    cycle. *)
Definition step_phases (step_size : R) (step_count : Z) : list (R * R) :=
  (0, 0) :: flat_map (fun _ => [(step_size, 0); (0, step_size)])
              (seq 0 (Z.to_nat step_count)).

(** What a phase leaves behind: the stamp of its command and, for each of
    its samples, the stamp and the measured position and velocity. *)
Definition phase_log : Type := (R * list (R * pyval * pyval))%type.

Definition phase_requests (cmd : R) (b : phase_log) : list request :=
  Command cmd None :: map (fun _ => GetState) (snd b).

Definition phase_time (b : phase_log) : list R :=
  fst b :: map (fun x => fst (fst x)) (snd b).

Definition phase_position (shown : R) (b : phase_log) : list pyval :=
  PyNum shown :: map (fun x => snd (fst x)) (snd b).

Definition phase_velocity (b : phase_log) : list pyval :=
  PyNum 0 :: map (fun x => snd x) (snd b).

(** A column that repeats [c] on every row of the phase. *)
Definition phase_constant (c : R) (b : phase_log) : list pyval :=
  PyNum c :: map (fun _ => PyNum c) (snd b).

(** No sample of the phase holds [None]. *)
Definition phase_sampled (b : phase_log) : Prop :=
  Forall (fun x => is_none (snd (fst x)) = false /\ is_none (snd x) = false)
    (snd b).

(** The samples of the phase but the last started a period apart or more
    and before the hold was over. *)
Definition phase_paced (sample_period step_hold_time : R) (b : phase_log)
  : Prop :=
  forall m, length (snd b) = S m -> INR m * sample_period < step_hold_time.

(** [s'] is [s] after these requests, with these columns appended. *)
Definition adds (s s' : run) (reqs : list request) (ts : list R)
    (cps cvs ps vs : list pyval) : Prop :=
  sent (w s') = sent (w s) ++ reqs
  /\ calls (w s') = (calls (w s) + length reqs)%nat
  /\ time (d s') = time (d s) ++ ts
  /\ cmd_time (d s') = cmd_time (d s) ++ ts
  /\ cmd_pos (d s') = cmd_pos (d s) ++ cps
  /\ cmd_vel (d s') = cmd_vel (d s) ++ cvs
  /\ position (d s') = position (d s) ++ ps
  /\ velocity (d s') = velocity (d s) ++ vs
  /\ resp_time (d s') = resp_time (d s).

(** [s'] is [s] after the phases [ps], which left the logs [bs]. *)
Definition phases_add (vel_limit : R) (ps : list (R * R))
    (bs : list phase_log) (s s' : run) : Prop :=
  adds s s'
    (flat_map (fun pb => phase_requests (fst (fst pb)) (snd pb)) (combine ps bs))
    (flat_map phase_time bs)
    (flat_map (fun pb => phase_constant (fst (fst pb)) (snd pb)) (combine ps bs))
    (flat_map (phase_constant vel_limit) bs)
    (flat_map (fun pb => phase_position (snd (fst pb)) (snd pb)) (combine ps bs))
    (flat_map phase_velocity bs).

End Harness.

(** * Facts about binary64 arithmetic *)

Module FloatFacts.

Import Analyzer.
Local Open Scope float_scope.

Lemma SFcompare_refl (x : spec_float) :
  x <> S754_nan -> SFcompare x x = Some Eq.
Proof.
  destruct x as [s|s| |s m e]; simpl; try congruence; intros _.
  - destruct s; reflexivity.
  - rewrite Z.compare_refl, Pos.compare_cont_refl. now destruct s.
Qed.

Lemma is_nan_spec (x : float) : is_nan x = true <-> Prim2SF x = S754_nan.
Proof.
  unfold is_nan. rewrite eqb_spec. unfold SFeqb. split.
  - destruct (Prim2SF x) eqn:E; try reflexivity;
      rewrite SFcompare_refl by discriminate; discriminate.
  - intros ->. reflexivity.
Qed.

Lemma is_nan_false (x : float) : is_nan x = false <-> Prim2SF x <> S754_nan.
Proof.
  rewrite <- is_nan_spec. destruct (is_nan x); split; congruence.
Qed.

Lemma nan_unique (x : float) : is_nan x = true -> x = nan.
Proof.
  intros H. apply Prim2SF_inj. apply is_nan_spec in H. now rewrite H.
Qed.

Lemma SFcompare_antisym (x y : spec_float) :
  SFcompare x y = Some Lt -> SFcompare y x = Some Gt.
Proof.
  destruct x as [sx|sx| |sx mx ex], y as [sy|sy| |sy my ey]; simpl;
    try discriminate;
    try (destruct sx; discriminate || reflexivity);
    try (destruct sy; discriminate || reflexivity);
    try (destruct sx, sy; discriminate || reflexivity).
  assert (Hm : Pos.compare_cont Eq my mx = CompOpp (Pos.compare_cont Eq mx my))
    by now rewrite Pos.compare_cont_antisym.
  destruct sx, sy; try discriminate; try reflexivity;
    rewrite (Z.compare_antisym ex ey), Hm;
    destruct (ex ?= ey)%Z; simpl; try discriminate; try reflexivity;
    destruct (Pos.compare_cont Eq mx my); simpl; discriminate || reflexivity.
Qed.

Lemma ltb_asym (x y : float) : (x <? y) = true -> (y <? x) = false.
Proof.
  rewrite !ltb_spec. unfold SFltb.
  destruct (SFcompare (Prim2SF x) (Prim2SF y)) as [[]|] eqn:E; try discriminate.
  now rewrite (SFcompare_antisym _ _ E).
Qed.

Lemma ltb_nan_r (x y : float) : is_nan y = true -> (x <? y) = false.
Proof.
  intros H. apply is_nan_spec in H. rewrite ltb_spec, H. unfold SFltb.
  now destruct (Prim2SF x).
Qed.

Lemma ltb_nan_l (x y : float) : is_nan x = true -> (x <? y) = false.
Proof.
  intros H. apply is_nan_spec in H. now rewrite ltb_spec, H.
Qed.

Lemma leb_nan_r (x y : float) : is_nan y = true -> (x <=? y) = false.
Proof.
  intros H. apply is_nan_spec in H. rewrite leb_spec, H. unfold SFleb.
  now destruct (Prim2SF x).
Qed.

Lemma leb_nan_l (x y : float) : is_nan x = true -> (x <=? y) = false.
Proof.
  intros H. apply is_nan_spec in H. now rewrite leb_spec, H.
Qed.

Lemma ltb_not_nan (x y : float) : (x <? y) = true -> is_nan y = false.
Proof.
  intros H. destruct (is_nan y) eqn:E; [|reflexivity].
  now rewrite (ltb_nan_r x y E) in H.
Qed.

(** Not-a-number is absorbing for the four operations. *)
Lemma sub_nan_l (x y : float) : is_nan x = true -> is_nan (x - y) = true.
Proof.
  rewrite !is_nan_spec, sub_spec. now intros ->.
Qed.

Lemma sub_nan_r (x y : float) : is_nan y = true -> is_nan (x - y) = true.
Proof.
  rewrite !is_nan_spec, sub_spec. intros ->. now destruct (Prim2SF x).
Qed.

Lemma div_nan_l (x y : float) : is_nan x = true -> is_nan (x / y) = true.
Proof.
  rewrite !is_nan_spec, div_spec. now intros ->.
Qed.

Lemma mul_nan_l (x y : float) : is_nan x = true -> is_nan (x * y) = true.
Proof.
  rewrite !is_nan_spec, mul_spec. now intros ->.
Qed.

(** [x - x] is [+0] for every finite [x] (round to nearest). *)
Lemma sub_diag (x : float) :
  SFfinite (Prim2SF x) = true -> x - x = 0.
Proof.
  intros H. apply Prim2SF_inj. rewrite sub_spec.
  change (Prim2SF 0) with (S754_zero false).
  destruct (Prim2SF x) as [s|s| |s m e]; try discriminate.
  - now destruct s.
  - unfold SF64sub, SFsub. now rewrite Z.sub_diag.
Qed.

(** What a strict comparison with [+0] says about the representation. *)
Lemma ltb_0_l (x : float) :
  (0 <? x) = true ->
  Prim2SF x = S754_infinity false \/ exists m e, Prim2SF x = S754_finite false m e.
Proof.
  rewrite ltb_spec. change (Prim2SF 0) with (S754_zero false).
  destruct (Prim2SF x) as [s|s| |s m e]; simpl; try discriminate.
  - destruct s; [discriminate|now left].
  - destruct s; [discriminate|right; eauto].
Qed.

Lemma is_finite_spec (x : float) :
  is_finite x = true -> SFfinite (Prim2SF x) = true.
Proof.
  unfold is_finite, is_infinity. intros H.
  apply negb_true_iff, orb_false_iff in H. destruct H as [Hn Hi].
  apply is_nan_false in Hn. rewrite eqb_spec, abs_spec in Hi.
  destruct (Prim2SF x) as [s|s| |s m e]; try reflexivity.
  - discriminate.
  - congruence.
Qed.

(** Division of anything by [+0], then scaling by a positive number: plus
    infinity when the dividend is above zero, otherwise minus infinity or
    not-a-number. *)
Lemma div_zero_scaled (n k : float) :
  (0 <? k) = true -> is_finite k = true ->
  if 0 <? n then n / 0 * k = infinity else (0 <? n / 0 * k) = false.
Proof.
  intros Hk Hfin.
  destruct (ltb_0_l k Hk) as [Ek|(mk & ek & Ek)].
  { apply is_finite_spec in Hfin. rewrite Ek in Hfin. discriminate. }
  destruct (0 <? n) eqn:Hn.
  - apply Prim2SF_inj. rewrite mul_spec, div_spec, Ek.
    change (Prim2SF 0) with (S754_zero false).
    change (Prim2SF infinity) with (S754_infinity false).
    destruct (ltb_0_l n Hn) as [En|(m & e & En)]; rewrite En; reflexivity.
  - rewrite ltb_spec, mul_spec, div_spec, Ek.
    rewrite ltb_spec in Hn. revert Hn.
    change (Prim2SF 0) with (S754_zero false).
    destruct (Prim2SF n) as [s|s| |s m e]; simpl; try reflexivity;
      destruct s; simpl; try reflexivity; discriminate.
Qed.

(** *** The order on numbers *)

Ltac cmp_cases :=
  repeat match goal with
         | |- context [Z.compare ?a ?b] => destruct (Z.compare_spec a b)
         | |- context [Pos.compare ?a ?b] => destruct (Pos.compare_spec a b)
         | H : context [Z.compare ?a ?b] |- _ => destruct (Z.compare_spec a b)
         | H : context [Pos.compare ?a ?b] |- _ =>
             destruct (Pos.compare_spec a b)
         end.

Lemma SFleb_trans (x y z : spec_float) :
  SFleb x y = true -> SFleb y z = true -> SFleb x z = true.
Proof.
  unfold SFleb, SFcompare.
  destruct x as [sx|sx| |sx mx ex], y as [sy|sy| |sy my ey],
    z as [sz|sz| |sz mz ez]; try discriminate; try reflexivity;
    try (destruct sx; discriminate || reflexivity);
    try (destruct sx, sy; discriminate || reflexivity);
    try (destruct sx, sz; discriminate || reflexivity);
    try (destruct sy, sz; discriminate || reflexivity);
    try (destruct sx, sy, sz; discriminate || reflexivity).
  all: change (Pos.compare_cont Eq) with Pos.compare.
  all: destruct sx, sy, sz; try discriminate; try reflexivity.
  all: intros H1 H2; cmp_cases; simpl in *;
    try discriminate; try reflexivity; try lia.
Qed.

Lemma SFleb_total (x y : spec_float) :
  x <> S754_nan -> y <> S754_nan -> SFleb y x = false -> SFleb x y = true.
Proof.
  unfold SFleb, SFcompare.
  destruct x as [sx|sx| |sx mx ex], y as [sy|sy| |sy my ey];
    try congruence; intros _ _;
    try (destruct sx; discriminate || reflexivity);
    try (destruct sy; discriminate || reflexivity);
    try (destruct sx, sy; discriminate || reflexivity).
  change (Pos.compare_cont Eq) with Pos.compare.
  destruct sx, sy; try discriminate; try reflexivity;
    intros H; cmp_cases; simpl in *;
    try discriminate; try reflexivity; try lia.
Qed.

Lemma leb_refl (x : float) : is_nan x = false -> (x <=? x) = true.
Proof.
  intros H. apply is_nan_false in H. rewrite leb_spec. unfold SFleb.
  now rewrite SFcompare_refl.
Qed.

Lemma leb_trans (x y z : float) :
  (x <=? y) = true -> (y <=? z) = true -> (x <=? z) = true.
Proof. rewrite !leb_spec. apply SFleb_trans. Qed.

Lemma leb_total (x y : float) :
  is_nan x = false -> is_nan y = false ->
  (y <=? x) = false -> (x <=? y) = true.
Proof.
  intros Hx Hy. apply is_nan_false in Hx, Hy. rewrite !leb_spec.
  now apply SFleb_total.
Qed.

End FloatFacts.

(** * The overshoot analyzer *)

Module AnalyzerFacts.

Import Analyzer FloatFacts.
Local Open Scope float_scope.
Local Open Scope pyerr_scope.

(** ** The command times *)

Lemma step_times_fold (l : list step) (st : list float) (x : float) :
  fold_left (fun st s => st ++ [last st 0 + duration s]) l (st ++ [x])
  = (st ++ [x]) ++ cumul x l.
Proof.
  revert st x. induction l as [|s l IH]; intros st x; cbn [fold_left cumul].
  - now rewrite app_nil_r.
  - rewrite last_last, IH, <- !app_assoc. reflexivity.
Qed.

Lemma step_times_cumul (steps : list step) :
  step_times steps = 0 :: cumul 0 steps.
Proof.
  unfold step_times. exact (step_times_fold steps [] 0).
Qed.

Lemma cumul_nth (l : list step) (acc : float) (i : nat) :
  (i <= length l)%nat ->
  nth_error (acc :: cumul acc l) i
  = Some (fold_left PrimFloat.add (map duration (firstn i l)) acc).
Proof.
  revert acc i. induction l as [|s l IH]; intros acc [|i] Hi; simpl in *;
    try reflexivity; try lia.
  apply IH. lia.
Qed.

Lemma step_times_length (steps : list step) :
  length (step_times steps) = S (length steps).
Proof.
  rewrite step_times_cumul. simpl. f_equal.
  generalize 0. induction steps as [|s l IH]; intros acc; simpl; congruence.
Qed.

Lemma step_times_nth (steps : list step) (i : nat) :
  (i <= length steps)%nat ->
  nth_error (step_times steps) i = Some (command_time steps i).
Proof.
  intros Hi. rewrite step_times_cumul. now apply cumul_nth.
Qed.

(** ** Selecting the window *)

Lemma take_where (f : float -> bool) (time_array pos_array pre : list float) :
  (length time_array <= length pos_array)%nat ->
  np_take (pre ++ pos_array) (where_from (length pre) (map f time_array))
  = Some (map snd (filter (fun tp => f (fst tp)) (combine time_array pos_array))).
Proof.
  revert pos_array pre.
  induction time_array as [|t ts IH]; intros [|p ps] pre Hlen; simpl in *;
    try reflexivity; try lia.
  assert (Hrest :
    np_take (pre ++ p :: ps) (where_from (S (length pre)) (map f ts))
    = Some (map snd (filter (fun tp => f (fst tp)) (combine ts ps)))).
  { replace (pre ++ p :: ps) with ((pre ++ [p]) ++ ps)
      by now rewrite <- app_assoc.
    replace (S (length pre)) with (length (pre ++ [p]))
      by (rewrite length_app; simpl; lia).
    apply IH. lia. }
  destruct (f t); simpl.
  - rewrite nth_error_app2 by lia. rewrite Nat.sub_diag. simpl.
    now rewrite Hrest.
  - exact Hrest.
Qed.

Lemma where_length (f : float -> bool) (time_array pos_array : list float) (k : nat) :
  (length time_array <= length pos_array)%nat ->
  length (where_from k (map f time_array))
  = length (filter (fun tp => f (fst tp)) (combine time_array pos_array)).
Proof.
  revert pos_array k.
  induction time_array as [|t ts IH]; intros [|p ps] k Hlen; simpl in *;
    try reflexivity; try lia.
  rewrite length_app, (IH ps) by lia. now destruct (f t).
Qed.

(** ** One transition *)

Lemma overshoot_iter_spec time_array pos_array steps window_duration overshoots i :
  (length time_array <= length pos_array)%nat ->
  (1 <= i < length steps)%nat ->
  overshoot_iter time_array pos_array steps window_duration overshoots i
  = Some (overshoots
          ++ transition_entry time_array pos_array steps window_duration i).
Proof.
  intros Hlen Hi. unfold overshoot_iter, transition_entry.
  destruct (nth_error steps (i - 1)) as [s_old|] eqn:Eo;
    [|apply nth_error_None in Eo; lia].
  destruct (nth_error steps i) as [s_new|] eqn:En;
    [|apply nth_error_None in En; lia].
  rewrite step_times_nth by lia. simpl.
  unfold np_where, transition_window, window_samples.
  set (c := command_time steps i).
  rewrite (where_length _ _ pos_array) by assumption.
  rewrite (take_where _ time_array pos_array []) by assumption.
  destruct (filter _ (combine time_array pos_array)) as [|tp win]; simpl.
  - now rewrite app_nil_r.
  - destruct (target s_old <? target s_new); reflexivity.
Qed.

(** ** The whole loop *)

Lemma overshoot_loop time_array pos_array steps window_duration l acc :
  (length time_array <= length pos_array)%nat ->
  (forall i, In i l -> (1 <= i < length steps)%nat) ->
  fold_left
    (fun acc i =>
       overshoots <- acc ;;
       overshoot_iter time_array pos_array steps window_duration overshoots i)
    l (Some acc)
  = Some (acc ++ flat_map
                   (transition_entry time_array pos_array steps window_duration) l).
Proof.
  intros Hlen. revert acc. induction l as [|i l IH]; intros acc Hl; simpl.
  - now rewrite app_nil_r.
  - rewrite overshoot_iter_spec by (auto || (apply Hl; now left)).
    rewrite IH by (intros j Hj; apply Hl; now right).
    now rewrite <- app_assoc.
Qed.

Lemma compute_step_overshoots_spec time_array pos_array steps window_duration :
  (length time_array <= length pos_array)%nat ->
  compute_step_overshoots time_array pos_array steps window_duration
  = Some (flat_map
            (transition_entry time_array pos_array steps window_duration)
            (seq 1 (length steps - 1))).
Proof.
  intros Hlen. unfold compute_step_overshoots, transitions.
  rewrite overshoot_loop; auto.
  intros i Hi. apply in_seq in Hi. lia.
Qed.

(** ** Where the entry of a transition sits in the result *)

Lemma transition_entry_eq time_array pos_array steps window_duration i s_old s_new :
  nth_error steps (i - 1) = Some s_old ->
  nth_error steps i = Some s_new ->
  transition_entry time_array pos_array steps window_duration i
  = entry (target s_old) (target s_new)
      (transition_window time_array pos_array steps window_duration i).
Proof.
  intros Ho Hn. unfold transition_entry. now rewrite Ho, Hn.
Qed.

Lemma transition_entry_length time_array pos_array steps window_duration i :
  (1 <= i < length steps)%nat ->
  length (transition_entry time_array pos_array steps window_duration i)
  = if nonempty (transition_window time_array pos_array steps window_duration i)
    then 1%nat else 0%nat.
Proof.
  intros Hi. unfold transition_entry.
  destruct (nth_error steps (i - 1)) eqn:Eo; [|apply nth_error_None in Eo; lia].
  destruct (nth_error steps i) eqn:En; [|apply nth_error_None in En; lia].
  now destruct (transition_window _ _ _ _ _).
Qed.

Lemma flat_map_entries_length time_array pos_array steps window_duration l :
  (forall j, In j l -> (1 <= j < length steps)%nat) ->
  length (flat_map (transition_entry time_array pos_array steps window_duration) l)
  = length
      (filter
         (fun j => nonempty
                     (transition_window time_array pos_array steps window_duration j))
         l).
Proof.
  induction l as [|j l IH]; intros Hl; simpl; [reflexivity|].
  rewrite length_app, transition_entry_length by (apply Hl; now left).
  rewrite IH by (intros k Hk; apply Hl; now right).
  now destruct (nonempty _).
Qed.

Lemma transitions_split (n i : nat) :
  (1 <= i < n)%nat ->
  seq 1 (n - 1) = seq 1 (i - 1) ++ i :: seq (S i) (n - 1 - i).
Proof.
  intros Hi. replace (n - 1)%nat with ((i - 1) + S (n - 1 - i))%nat at 1 by lia.
  rewrite seq_app. now replace (1 + (i - 1))%nat with i by lia.
Qed.

Lemma entry_position time_array pos_array steps window_duration i e :
  (1 <= i < length steps)%nat ->
  transition_entry time_array pos_array steps window_duration i = [e] ->
  nth_error
    (flat_map (transition_entry time_array pos_array steps window_duration)
       (seq 1 (length steps - 1)))
    (emitted_before time_array pos_array steps window_duration i)
  = Some e.
Proof.
  intros Hi He. rewrite (transitions_split (length steps) i Hi).
  rewrite flat_map_app. unfold emitted_before.
  rewrite <- (flat_map_entries_length time_array pos_array steps window_duration)
    by (intros j Hj; apply in_seq in Hj; lia).
  rewrite nth_error_app2 by lia. rewrite Nat.sub_diag. simpl.
  now rewrite He.
Qed.

Lemma result_length time_array pos_array steps window_duration :
  length
    (flat_map (transition_entry time_array pos_array steps window_duration)
       (seq 1 (length steps - 1)))
  = emitted_before time_array pos_array steps window_duration (length steps).
Proof.
  unfold emitted_before. apply flat_map_entries_length.
  intros j Hj. apply in_seq in Hj. lia.
Qed.

(** ** The clamp *)

Lemma ltb_irrefl (x : float) : (x <? x) = false.
Proof.
  destruct (x <? x) eqn:E; [|reflexivity]. now rewrite (ltb_asym _ _ E) in E.
Qed.

Lemma py_max_0_nonneg (v : float) :
  (py_max 0 v <? 0) = false /\ is_nan (py_max 0 v) = false.
Proof.
  unfold py_max. destruct (0 <? v) eqn:E; cbv iota.
  - split; [now apply ltb_asym | now apply (ltb_not_nan 0)].
  - split; reflexivity.
Qed.

Lemma entry_nonneg old_target new_target win :
  Forall (fun r => (r <? 0) = false /\ is_nan r = false)
    (entry old_target new_target win).
Proof.
  destruct win as [|x xs]; simpl; [constructor|].
  constructor; [apply py_max_0_nonneg|constructor].
Qed.

Lemma result_nonneg time_array pos_array steps window_duration l :
  Forall (fun r => (r <? 0) = false /\ is_nan r = false)
    (flat_map (transition_entry time_array pos_array steps window_duration) l).
Proof.
  induction l as [|i l IH]; simpl; [constructor|].
  apply Forall_app. split; [|exact IH].
  unfold transition_entry.
  destruct (nth_error steps (i - 1)); [|constructor].
  destruct (nth_error steps i); [|constructor].
  apply entry_nonneg.
Qed.

(** ** Not-a-number in the window *)

Lemma np_maximum_nan (a b : float) :
  is_nan a = true \/ is_nan b = true -> is_nan (np_maximum a b) = true.
Proof.
  unfold np_maximum. intros [Ha|Hb].
  - now rewrite Ha, orb_true_r.
  - destruct (is_nan a) eqn:Ea; [now rewrite orb_true_r|].
    now rewrite (leb_nan_l b a Hb).
Qed.

Lemma np_minimum_nan (a b : float) :
  is_nan a = true \/ is_nan b = true -> is_nan (np_minimum a b) = true.
Proof.
  unfold np_minimum. intros [Ha|Hb].
  - now rewrite Ha, orb_true_r.
  - destruct (is_nan a) eqn:Ea; [now rewrite orb_true_r|].
    now rewrite (leb_nan_r a b Hb).
Qed.

Lemma fold_np_maximum_nan (xs : list float) (x : float) :
  Exists (fun p => is_nan p = true) (x :: xs) ->
  is_nan (fold_left np_maximum xs x) = true.
Proof.
  revert x. induction xs as [|y ys IH]; intros x H; simpl.
  - inversion H as [? ? Hx|? ? Hx]; [exact Hx|inversion Hx].
  - apply IH. inversion H as [? ? Hx|? ? Hx]; subst.
    + left. apply np_maximum_nan. now left.
    + inversion Hx as [? ? Hy|? ? Hy]; subst.
      * left. apply np_maximum_nan. now right.
      * now right.
Qed.

Lemma fold_np_minimum_nan (xs : list float) (x : float) :
  Exists (fun p => is_nan p = true) (x :: xs) ->
  is_nan (fold_left np_minimum xs x) = true.
Proof.
  revert x. induction xs as [|y ys IH]; intros x H; simpl.
  - inversion H as [? ? Hx|? ? Hx]; [exact Hx|inversion Hx].
  - apply IH. inversion H as [? ? Hx|? ? Hx]; subst.
    + left. apply np_minimum_nan. now left.
    + inversion Hx as [? ? Hy|? ? Hy]; subst.
      * left. apply np_minimum_nan. now right.
      * now right.
Qed.

(** ** [np.max] and [np.min] on windows without not-a-number *)

Lemma fold_np_maximum_max (xs : list float) (x : float) :
  Forall (fun p => is_nan p = false) (x :: xs) ->
  In (fold_left np_maximum xs x) (x :: xs)
  /\ Forall (fun p => (p <=? fold_left np_maximum xs x) = true) (x :: xs).
Proof.
  revert x. induction xs as [|y ys IH]; intros x H.
  - inversion H as [|? ? Hx _]; subst. simpl. split; [now left|].
    constructor; [now apply leb_refl|constructor].
  - inversion H as [|? ? Hx Hrest]; subst.
    inversion Hrest as [|? ? Hy Hys]; subst.
    cbn [fold_left]. unfold np_maximum at 2 4. rewrite Hx, orb_false_r.
    destruct (y <=? x) eqn:E.
    + destruct (IH x) as [Hin Hall]; [now constructor|].
      split.
      * destruct Hin as [<-|Hin]; [now left|right; now right].
      * inversion Hall as [|? ? Hxm Hysm]; subst.
        constructor; [exact Hxm|].
        constructor; [now apply (leb_trans y x)|exact Hysm].
    + destruct (IH y) as [Hin Hall]; [now constructor|].
      split.
      * right. exact Hin.
      * inversion Hall as [|? ? Hym Hysm]; subst.
        constructor; [|now constructor].
        apply (leb_trans x y); [now apply leb_total|exact Hym].
Qed.

Lemma fold_np_minimum_min (xs : list float) (x : float) :
  Forall (fun p => is_nan p = false) (x :: xs) ->
  In (fold_left np_minimum xs x) (x :: xs)
  /\ Forall (fun p => (fold_left np_minimum xs x <=? p) = true) (x :: xs).
Proof.
  revert x. induction xs as [|y ys IH]; intros x H.
  - inversion H as [|? ? Hx _]; subst. simpl. split; [now left|].
    constructor; [now apply leb_refl|constructor].
  - inversion H as [|? ? Hx Hrest]; subst.
    inversion Hrest as [|? ? Hy Hys]; subst.
    cbn [fold_left]. unfold np_minimum at 2 4. rewrite Hx, orb_false_r.
    destruct (x <=? y) eqn:E.
    + destruct (IH x) as [Hin Hall]; [now constructor|].
      split.
      * destruct Hin as [<-|Hin]; [now left|right; now right].
      * inversion Hall as [|? ? Hxm Hysm]; subst.
        constructor; [exact Hxm|].
        constructor; [now apply (leb_trans _ x)|exact Hysm].
    + destruct (IH y) as [Hin Hall]; [now constructor|].
      split.
      * right. exact Hin.
      * inversion Hall as [|? ? Hym Hysm]; subst.
        constructor; [|now constructor].
        apply (leb_trans _ y); [exact Hym|now apply leb_total].
Qed.

Lemma py_max_0_nan (v : float) : is_nan v = true -> py_max 0 v = 0.
Proof.
  intros H. unfold py_max. now rewrite (ltb_nan_r 0 v H).
Qed.

(** ** The entry of one transition, in the result of the whole function *)

Lemma transition_in_result time_array pos_array steps window_duration i s_old s_new x xs :
  (length time_array <= length pos_array)%nat ->
  (1 <= i)%nat ->
  nth_error steps (i - 1) = Some s_old ->
  nth_error steps i = Some s_new ->
  transition_window time_array pos_array steps window_duration i = x :: xs ->
  exists out,
    compute_step_overshoots time_array pos_array steps window_duration = Some out
    /\ Forall (fun r => (r <? 0) = false /\ is_nan r = false) out
    /\ nth_error out
         (emitted_before time_array pos_array steps window_duration i)
       = Some (py_max 0
                 (if target s_old <? target s_new
                  then (fold_left np_maximum xs x - target s_new)
                       / (target s_new - target s_old) * 100
                  else (target s_new - fold_left np_minimum xs x)
                       / (target s_old - target s_new) * 100)).
Proof.
  intros Hlen Hi Ho Hn Hw.
  assert (Hlt : (i < length steps)%nat)
    by (apply nth_error_Some; congruence).
  eexists. split; [now apply compute_step_overshoots_spec|].
  split; [apply result_nonneg|].
  apply entry_position; [lia|].
  rewrite (transition_entry_eq _ _ _ _ _ _ _ Ho Hn), Hw. reflexivity.
Qed.

(** C1. For a transition with a sample in its window the function returns
    one entry, at the position left by the transitions before it that had
    samples: for a rising step, (max of the window - new target) / (new
    target - old target) * 100; for a falling step, (new target - min of the
    window) / (old target - new target) * 100; the entry is that value when
    it is positive and exactly 0.0 otherwise, so a negative value gives 0.0
    and no entry of the result is negative.  On a window without
    not-a-number the max and the min are members of the window that bound
    it.  On the schedule 0, 10, 0 held 3 s each, the window values
    0, 4, 11, 9, 10 after the step up and 10, 6, -1, 2, 0 after the step
    down give 10.0 and 10.0. *)
Theorem overshoot_formula_clamped :
  (forall time_array pos_array steps window_duration i s_old s_new,
      (length time_array <= length pos_array)%nat ->
      (1 <= i)%nat ->
      nth_error steps (i - 1) = Some s_old ->
      nth_error steps i = Some s_new ->
      transition_window time_array pos_array steps window_duration i <> [] ->
      let old_target := target s_old in
      let new_target := target s_new in
      let clamp := fun v : float => if 0 <? v then v else 0 in
      exists out peak trough,
        compute_step_overshoots time_array pos_array steps window_duration
        = Some out
        /\ np_max (transition_window time_array pos_array steps window_duration i)
           = Some peak
        /\ np_min (transition_window time_array pos_array steps window_duration i)
           = Some trough
        /\ ((old_target <? new_target) = true ->
            nth_error out
              (emitted_before time_array pos_array steps window_duration i)
            = Some (clamp ((peak - new_target) / (new_target - old_target) * 100)))
        /\ ((new_target <? old_target) = true ->
            nth_error out
              (emitted_before time_array pos_array steps window_duration i)
            = Some (clamp ((new_target - trough) / (old_target - new_target) * 100)))
        /\ (forall v, (v <? 0) = true -> clamp v = 0)
        /\ Forall (fun r => (r <? 0) = false /\ is_nan r = false) out)
  /\ (forall win peak trough,
         np_max win = Some peak ->
         np_min win = Some trough ->
         Forall (fun p => is_nan p = false) win ->
         (In peak win /\ Forall (fun p => (p <=? peak) = true) win)
         /\ (In trough win /\ Forall (fun p => (trough <=? p) = true) win))
  /\ compute_step_overshoots
       [3; 3.25; 3.5; 3.75; 4; 6; 6.25; 6.5; 6.75; 7]
       [0; 4; 11; 9; 10; 10; 6; -1; 2; 0]
       (steps_list None 10 3 1) 1
     = Some [10; 10].
Proof.
  split; [|split; [|reflexivity]].
  2: { intros [|x xs] peak trough Hmax Hmin Hwin; [discriminate|].
       injection Hmax as <-. injection Hmin as <-.
       split; [now apply fold_np_maximum_max|now apply fold_np_minimum_min]. }
  intros time_array pos_array steps window_duration i s_old s_new
    Hlen Hi Ho Hn Hw old_target new_target clamp.
  destruct (transition_window time_array pos_array steps window_duration i)
    as [|x xs] eqn:Ew; [congruence|].
  destruct (transition_in_result _ _ _ _ _ _ _ _ _ Hlen Hi Ho Hn Ew)
    as (out & Hout & Hnn & Hnth).
  exists out, (fold_left np_maximum xs x), (fold_left np_minimum xs x).
  repeat split; try assumption.
  - intros Hr. rewrite Hnth. fold old_target new_target. now rewrite Hr.
  - intros Hf. rewrite Hnth. fold old_target new_target.
    now rewrite (ltb_asym _ _ Hf).
  - intros v Hv. unfold clamp. now rewrite (ltb_asym _ _ Hv).
Qed.

Lemma overshoot_formula_clamped_witness :
  exists out,
    compute_step_overshoots [3; 3.25; 3.5; 3.75; 4] [0; 4; 11; 9; 10]
      [(0, 200, 3); (10, 200, 3)] 1 = Some out
    /\ nth_error out 0 = Some 10.
Proof.
  destruct (proj1 overshoot_formula_clamped
              [3; 3.25; 3.5; 3.75; 4] [0; 4; 11; 9; 10]
              [(0, 200, 3); (10, 200, 3)] 1 1%nat (0, 200, 3) (10, 200, 3))
    as (out & peak & trough & Hout & Hmax & _ & Hrise & _).
  - simpl. lia.
  - lia.
  - reflexivity.
  - reflexivity.
  - vm_compute. discriminate.
  - exists out. split; [exact Hout|].
    vm_compute in Hmax. injection Hmax as <-.
    exact (Hrise eq_refl).
Defined.

(** ** Transitions without samples *)

Lemma filter_length_lt {A : Type} (f : A -> bool) (l : list A) (x : A) :
  In x l -> f x = false -> (length (filter f l) < length l)%nat.
Proof.
  induction l as [|y l IH]; simpl; [tauto|].
  intros [->|Hin] Hx.
  - rewrite Hx. pose proof (filter_length_le f l). lia.
  - specialize (IH Hin Hx). destruct (f y); simpl; lia.
Qed.

(** C5. A transition whose window holds no recorded sample adds nothing to
    the result: the pass of the loop for it returns the accumulated list
    unchanged (no 0.0, no not-a-number is appended), the result has one
    entry per transition that does have samples, and so it is shorter than
    the number of transitions. *)
Theorem empty_window_is_skipped :
  forall time_array pos_array steps window_duration i,
    (length time_array <= length pos_array)%nat ->
    (1 <= i < length steps)%nat ->
    transition_window time_array pos_array steps window_duration i = [] ->
    (forall overshoots,
        overshoot_iter time_array pos_array steps window_duration overshoots i
        = Some overshoots)
    /\ exists out,
        compute_step_overshoots time_array pos_array steps window_duration
        = Some out
        /\ length out
           = length
               (filter
                  (fun j =>
                     nonempty
                       (transition_window time_array pos_array steps
                          window_duration j))
                  (transitions steps))
        /\ (length out < length (transitions steps))%nat.
Proof.
  intros time_array pos_array steps window_duration i Hlen Hi Hw. split.
  - intros overshoots. rewrite overshoot_iter_spec by assumption.
    unfold transition_entry.
    destruct (nth_error steps (i - 1)); [|now rewrite app_nil_r].
    destruct (nth_error steps i); [|now rewrite app_nil_r].
    rewrite Hw. simpl. now rewrite app_nil_r.
  - eexists. split; [now apply compute_step_overshoots_spec|].
    assert (Hcount :
      length
        (flat_map (transition_entry time_array pos_array steps window_duration)
           (seq 1 (length steps - 1)))
      = length
          (filter
             (fun j =>
                nonempty
                  (transition_window time_array pos_array steps window_duration j))
             (transitions steps))).
    { apply flat_map_entries_length. intros j Hj. apply in_seq in Hj. lia. }
    split; [exact Hcount|]. rewrite Hcount.
    apply (filter_length_lt _ _ i).
    + unfold transitions. apply in_seq. lia.
    + now rewrite Hw.
Qed.

Lemma empty_window_is_skipped_witness :
  exists out,
    compute_step_overshoots [3; 3.5; 4] [0; 11; 10] (steps_list None 10 3 1) 1
    = Some out
    /\ (length out < 2)%nat.
Proof.
  destruct (empty_window_is_skipped [3; 3.5; 4] [0; 11; 10]
              (steps_list None 10 3 1) 1 2%nat)
    as (_ & out & Hout & _ & Hshort).
  - simpl. lia.
  - simpl. lia.
  - reflexivity.
  - exists out. split; [exact Hout|exact Hshort].
Defined.

(** ** The schedule built by [main] *)

Lemma cycles_fold {A : Type} (a b : A) (xs : list nat) (init : list A) :
  fold_left (fun l _ => (l ++ [a]) ++ [b]) xs init
  = init ++ flat_map (fun _ => [a; b]) xs.
Proof.
  revert init. induction xs as [|x xs IH]; intros init; simpl.
  - now rewrite app_nil_r.
  - rewrite IH, <- !app_assoc. reflexivity.
Qed.

Lemma cycles_length {A : Type} (a b : A) (xs : list nat) :
  length (flat_map (fun _ => [a; b]) xs) = (2 * length xs)%nat.
Proof.
  induction xs as [|x xs IH]; simpl; [reflexivity|]. rewrite IH. lia.
Qed.

Lemma steps_list_phases vel_limit step_size step_hold_time step_count :
  let vel := match vel_limit with Some v => v | None => 200 end in
  steps_list vel_limit step_size step_hold_time step_count
  = (0, vel, step_hold_time)
      :: flat_map
           (fun _ => [(step_size, vel, step_hold_time); (0, vel, step_hold_time)])
           (seq 0 (Z.to_nat step_count)).
Proof.
  unfold steps_list. cbv zeta. now rewrite cycles_fold.
Qed.

Lemma steps_list_durations vel_limit step_size step_hold_time step_count :
  Forall (fun s => duration s = step_hold_time)
    (steps_list vel_limit step_size step_hold_time step_count).
Proof.
  rewrite steps_list_phases. constructor; [reflexivity|].
  induction (seq 0 (Z.to_nat step_count)) as [|x xs IH]; simpl;
    repeat constructor; assumption.
Qed.

Lemma constant_durations (steps : list step) (d : float) (i : nat) :
  Forall (fun s => duration s = d) steps ->
  (i <= length steps)%nat ->
  map duration (firstn i steps) = repeat d i.
Proof.
  intros H. revert i. induction H as [|s l Hs _ IH]; intros [|i] Hi; simpl in *;
    try reflexivity; try lia.
  rewrite Hs, IH by lia. reflexivity.
Qed.

Lemma filter_all {A : Type} (f : A -> bool) (l : list A) :
  (forall x, In x l -> f x = true) -> filter f l = l.
Proof.
  induction l as [|x l IH]; intros H; simpl; [reflexivity|].
  rewrite (H x) by now left. f_equal. apply IH. intros y Hy. apply H. now right.
Qed.

Lemma steps_list_nth vel_limit step_size step_hold_time step_count (j : nat) :
  (j <= 2 * Z.to_nat step_count)%nat ->
  exists vel,
    nth_error (steps_list vel_limit step_size step_hold_time step_count) j
    = Some (phase_target step_size j, vel, step_hold_time).
Proof.
  intros H. rewrite steps_list_phases. cbv zeta.
  exists (match vel_limit with Some v => v | None => 200 end).
  rewrite <- (length_seq (Z.to_nat step_count) 0) in H.
  revert j H.
  induction (seq 0 (Z.to_nat step_count)) as [|x l IH]; intros j Hj.
  - cbn [length] in Hj. replace j with 0%nat by lia. reflexivity.
  - destruct j as [|[|j]]; [reflexivity..|].
    cbn [flat_map app nth_error]. cbn [length] in Hj.
    rewrite (IH j) by lia. reflexivity.
Qed.

Lemma steps_list_length vel_limit step_size step_hold_time step_count :
  length (steps_list vel_limit step_size step_hold_time step_count)
  = S (2 * Z.to_nat step_count).
Proof.
  rewrite steps_list_phases. cbn [length].
  now rewrite cycles_length, length_seq.
Qed.

Lemma flat_map_ext_seq {A : Type} (f g : nat -> list A) (a n : nat) :
  (forall i, (a <= i < a + n)%nat -> f i = g i) ->
  flat_map f (seq a n) = flat_map g (seq a n).
Proof.
  revert a. induction n as [|n IH]; intros a H; [reflexivity|].
  cbn [seq flat_map]. rewrite (H a) by lia. f_equal.
  apply IH. intros i Hi. apply H. lia.
Qed.

(** What the analyzer makes of transition [i] of the schedule of [main]. *)
Lemma steps_list_transition vel_limit step_size step_hold_time step_count
    time_array pos_array window_duration (i : nat) :
  (1 <= i <= 2 * Z.to_nat step_count)%nat ->
  transition_entry time_array pos_array
    (steps_list vel_limit step_size step_hold_time step_count)
    window_duration i
  = entry (phase_target step_size (i - 1)) (phase_target step_size i)
      (window_samples time_array pos_array
         (nominal_time step_hold_time i) window_duration).
Proof.
  intros Hi. unfold transition_entry.
  destruct (steps_list_nth vel_limit step_size step_hold_time step_count
              (i - 1)) as [v1 E1]; [lia|].
  destruct (steps_list_nth vel_limit step_size step_hold_time step_count i)
    as [v2 E2]; [lia|].
  rewrite E1, E2. unfold transition_window, command_time, nominal_time.
  rewrite (constant_durations _ step_hold_time i)
    by (try apply steps_list_durations; rewrite steps_list_length; lia).
  reflexivity.
Qed.

(** C6. On the schedule built from the command line (an initial hold at 0,
    then [step_count] times a step up and a step down: [2 * step_count + 1]
    phases) the analyzer visits the transitions 1 to [2 * step_count] in
    order and no other.  What it returns is, transition by transition, the
    entry computed from the two targets (0 and [step_size] in turn) and
    from the samples stamped between the nominal command time, the sum of
    the hold times of the phases before, and that time plus the window;
    with a sample in every window that is [2 * step_count] entries.  With
    [step_count = 2] and a hold of 3.0 s the four command times are 3.0,
    6.0, 9.0 and 12.0: with a window of width zero, samples stamped at
    exactly those times give the four entries, and samples one unit in the
    last place off give none. *)
Theorem schedule_transitions :
  (forall vel_limit step_size step_hold_time step_count time_array pos_array
      window_duration,
      (length time_array <= length pos_array)%nat ->
      let steps := steps_list vel_limit step_size step_hold_time step_count in
      let n := Z.to_nat step_count in
      let window :=
        fun i =>
          window_samples time_array pos_array
            (nominal_time step_hold_time i) window_duration in
      let visit :=
        fun i =>
          entry (phase_target step_size (i - 1)) (phase_target step_size i)
            (window i) in
      length steps = S (2 * n)
      /\ compute_step_overshoots time_array pos_array steps window_duration
         = Some (flat_map visit (seq 1 (2 * n)))
      /\ length (flat_map visit (seq 1 (2 * n)))
         = length (filter (fun i => nonempty (window i)) (seq 1 (2 * n)))
      /\ ((forall i, (1 <= i <= 2 * n)%nat -> nonempty (window i) = true) ->
          length (flat_map visit (seq 1 (2 * n))) = (2 * n)%nat))
  /\ compute_step_overshoots [3; 6; 9; 12] [11; -1; 12; -2]
       (steps_list None 10 3 2) 0
     = Some [10; 10; 20; 20]
  /\ compute_step_overshoots
       [0x1.8000000000001p+1; 0x1.8000000000001p+2; 0x1.2000000000001p+3;
        0x1.8000000000001p+3]
       [11; -1; 12; -2] (steps_list None 10 3 2) 0
     = Some []
  /\ compute_step_overshoots
       [0x1.7ffffffffffffp+1; 0x1.7ffffffffffffp+2; 0x1.1ffffffffffffp+3;
        0x1.7ffffffffffffp+3]
       [11; -1; 12; -2] (steps_list None 10 3 2) 0
     = Some [].
Proof.
  split; [|repeat split].
  intros vel_limit step_size step_hold_time step_count time_array pos_array
    window_duration Hlen steps n window visit.
  assert (Hsteps : length steps = S (2 * n))
    by apply steps_list_length.
  assert (Hres : compute_step_overshoots time_array pos_array steps
                   window_duration
                 = Some (flat_map visit (seq 1 (2 * n)))).
  { rewrite compute_step_overshoots_spec by exact Hlen.
    rewrite Hsteps. replace (S (2 * n) - 1)%nat with (2 * n)%nat by lia.
    f_equal. apply flat_map_ext_seq. intros i Hi.
    apply steps_list_transition. fold n. lia. }
  assert (Hcount : length (flat_map visit (seq 1 (2 * n)))
                   = length (filter (fun i => nonempty (window i))
                               (seq 1 (2 * n)))).
  { clear. induction (seq 1 (2 * n)) as [|i l IH]; [reflexivity|].
    cbn [flat_map filter]. rewrite length_app, IH. unfold visit at 1.
    destruct (window i) as [|x xs]; reflexivity. }
  repeat apply conj; try assumption.
  intros Hall. rewrite Hcount, filter_all.
  - apply length_seq.
  - intros i Hi. apply in_seq in Hi. apply Hall. lia.
Qed.

Lemma schedule_transitions_witness :
  exists out,
    compute_step_overshoots [3; 3.5; 6; 6.5; 9; 12] [0; 11; 10; -1; 0; 10]
      (steps_list None 10 3 2) 1 = Some out
    /\ length out = 4%nat.
Proof.
  destruct (proj1 schedule_transitions None 10 3 2%Z
              [3; 3.5; 6; 6.5; 9; 12] [0; 11; 10; -1; 0; 10] 1)
    as (_ & Hout & _ & Hfull).
  - simpl. lia.
  - eexists. split; [exact Hout|]. apply Hfull.
    intros [|[|[|[|[|i]]]]] Hi; try reflexivity; simpl in Hi; lia.
Defined.

(** ** A measurement miss inside the window *)

(** C10. When the window of a transition holds a not-a-number sample, its
    maximum and its minimum are not-a-number, both overshoot expressions
    are not-a-number, [max(0.0, nan)] is 0.0, and the entry of that
    transition in the result is exactly 0.0, whatever the other samples
    are. *)
Theorem nan_sample_reports_zero :
  forall time_array pos_array steps window_duration i s_old s_new,
    (length time_array <= length pos_array)%nat ->
    (1 <= i)%nat ->
    nth_error steps (i - 1) = Some s_old ->
    nth_error steps i = Some s_new ->
    Exists (fun p => is_nan p = true)
      (transition_window time_array pos_array steps window_duration i) ->
    let old_target := target s_old in
    let new_target := target s_new in
    exists out peak trough,
      compute_step_overshoots time_array pos_array steps window_duration
      = Some out
      /\ np_max (transition_window time_array pos_array steps window_duration i)
         = Some peak
      /\ np_min (transition_window time_array pos_array steps window_duration i)
         = Some trough
      /\ is_nan peak = true
      /\ is_nan trough = true
      /\ is_nan ((peak - new_target) / (new_target - old_target) * 100) = true
      /\ is_nan ((new_target - trough) / (old_target - new_target) * 100) = true
      /\ py_max 0 nan = 0
      /\ nth_error out
           (emitted_before time_array pos_array steps window_duration i)
         = Some 0.
Proof.
  intros time_array pos_array steps window_duration i s_old s_new
    Hlen Hi Ho Hn Hnan old_target new_target.
  destruct (transition_window time_array pos_array steps window_duration i)
    as [|x xs] eqn:Ew; [inversion Hnan|].
  destruct (transition_in_result _ _ _ _ _ _ _ _ _ Hlen Hi Ho Hn Ew)
    as (out & Hout & _ & Hnth).
  pose proof (fold_np_maximum_nan xs x Hnan) as Hpeak.
  pose proof (fold_np_minimum_nan xs x Hnan) as Htrough.
  assert (Hrise :
    is_nan ((fold_left np_maximum xs x - new_target)
            / (new_target - old_target) * 100) = true)
    by now apply mul_nan_l, div_nan_l, sub_nan_l.
  assert (Hfall :
    is_nan ((new_target - fold_left np_minimum xs x)
            / (old_target - new_target) * 100) = true)
    by now apply mul_nan_l, div_nan_l, sub_nan_r.
  exists out, (fold_left np_maximum xs x), (fold_left np_minimum xs x).
  repeat split; try assumption.
  rewrite Hnth. fold old_target new_target. f_equal.
  destruct (old_target <? new_target); now apply py_max_0_nan.
Qed.

Lemma nan_sample_reports_zero_witness :
  exists out,
    compute_step_overshoots [3; 3.25; 3.5; 3.75; 4] [0; 4; 25; nan; 10]
      [(0, 200, 3); (10, 200, 3)] 1 = Some out
    /\ nth_error out 0 = Some 0.
Proof.
  destruct (nan_sample_reports_zero
              [3; 3.25; 3.5; 3.75; 4] [0; 4; 25; nan; 10]
              [(0, 200, 3); (10, 200, 3)] 1 1%nat (0, 200, 3) (10, 200, 3))
    as (out & peak & trough & Hout & _ & _ & _ & _ & _ & _ & _ & Hnth).
  - simpl. lia.
  - lia.
  - reflexivity.
  - reflexivity.
  - vm_compute. do 3 apply Exists_cons_tl. apply Exists_cons_hd. reflexivity.
  - exists out. split; [exact Hout|exact Hnth].
Defined.

(** ** A step of zero magnitude *)

(** The claim C4 fails: with both targets at 5.0 and a sample of 4.0 in the
    window the function returns normally, the list it returns holds plus
    infinity, and so does the headline figure taken from it. *)
Lemma zero_step_returns_infinity :
  compute_step_overshoots [3; 3.5] [5; 4] [(5, 200, 3); (5, 200, 3)] 1
  = Some [infinity]
  /\ max_overshoot [infinity] = infinity.
Proof. split; reflexivity. Qed.

Lemma ltb_l_0 (x : float) :
  (x <? 0) = true ->
  Prim2SF x = S754_infinity true \/ exists m e, Prim2SF x = S754_finite true m e.
Proof.
  rewrite ltb_spec. change (Prim2SF 0) with (S754_zero false).
  destruct (Prim2SF x) as [s|s| |s m e]; simpl; try discriminate;
    destruct s; try discriminate; [now left|right; eauto].
Qed.

(** Division of anything by [-0], then scaling by a positive number: plus
    infinity when the dividend is below zero, otherwise minus infinity or
    not-a-number. *)
Lemma div_neg_zero_scaled (n k : float) :
  (0 <? k) = true -> is_finite k = true ->
  if n <? 0 then n / neg_zero * k = infinity
  else (0 <? n / neg_zero * k) = false.
Proof.
  intros Hk Hfin.
  destruct (ltb_0_l k Hk) as [Ek|(mk & ek & Ek)].
  { apply is_finite_spec in Hfin. rewrite Ek in Hfin. discriminate. }
  destruct (n <? 0) eqn:Hn.
  - apply Prim2SF_inj. rewrite mul_spec, div_spec, Ek.
    change (Prim2SF neg_zero) with (S754_zero true).
    change (Prim2SF infinity) with (S754_infinity false).
    destruct (ltb_l_0 n Hn) as [En|(m & e & En)]; rewrite En; reflexivity.
  - rewrite ltb_spec, mul_spec, div_spec, Ek.
    rewrite ltb_spec in Hn. revert Hn.
    change (Prim2SF 0) with (S754_zero false).
    change (Prim2SF neg_zero) with (S754_zero true).
    destruct (Prim2SF n) as [s|s| |s m e]; simpl; try reflexivity;
      destruct s; simpl; try reflexivity; discriminate.
Qed.

(** Two floats that [==] holds of, the second finite: the same number, or
    the two zeros. *)
Lemma eqb_finite_cases (x y : float) :
  (x =? y) = true ->
  is_finite y = true ->
  x = y \/ (x = neg_zero /\ y = 0) \/ (x = 0 /\ y = neg_zero).
Proof.
  intros He Hfin. apply is_finite_spec in Hfin.
  rewrite eqb_spec in He. unfold SFeqb in He.
  destruct (Prim2SF x) as [sx|sx| |sx mx ex] eqn:Ex,
           (Prim2SF y) as [sy|sy| |sy my ey] eqn:Ey;
    try discriminate;
    try (destruct sx; discriminate);
    try (destruct sy; discriminate).
  - destruct sx, sy.
    + left. apply Prim2SF_inj. congruence.
    + right. left. split; apply Prim2SF_inj; assumption.
    + right. right. split; apply Prim2SF_inj; assumption.
    + left. apply Prim2SF_inj. congruence.
  - left. apply Prim2SF_inj. rewrite Ex, Ey.
    unfold SFcompare in He.
    change (Pos.compare_cont Eq) with Pos.compare in He.
    destruct sx, sy; try discriminate;
      destruct (Z.compare_spec ex ey); try discriminate;
      destruct (Pos.compare_spec mx my); try discriminate;
      now subst.
Qed.

Lemma eqb_not_ltb (x y : float) : (x =? y) = true -> (x <? y) = false.
Proof.
  rewrite eqb_spec, ltb_spec. unfold SFeqb, SFltb.
  now destruct (SFcompare (Prim2SF x) (Prim2SF y)) as [[]|].
Qed.

Lemma zero_is_not_neg_zero : 0 = neg_zero -> False.
Proof.
  intros H. apply (f_equal Prim2SF) in H.
  change (S754_zero false = S754_zero true) in H. discriminate.
Qed.

(** C4, as the code has it.  For a transition between two finite targets
    that compare equal with [==] and with a sample in its window the
    function raises nothing.  It takes the branch of the falling step,
    whose divisor [old_target - new_target] is then +0.0, except from -0.0
    to +0.0, where it is -0.0.  The entry it returns is plus infinity when
    the target minus the window minimum is not zero and has the sign of the
    divisor (above zero for +0.0, below zero for -0.0) and 0.0 otherwise. *)
Theorem zero_step_divides_by_zero :
  forall time_array pos_array steps window_duration i s_old s_new,
    (length time_array <= length pos_array)%nat ->
    (1 <= i)%nat ->
    nth_error steps (i - 1) = Some s_old ->
    nth_error steps i = Some s_new ->
    (target s_old =? target s_new) = true ->
    is_finite (target s_new) = true ->
    transition_window time_array pos_array steps window_duration i <> [] ->
    exists out trough,
      compute_step_overshoots time_array pos_array steps window_duration
      = Some out
      /\ np_min (transition_window time_array pos_array steps window_duration i)
         = Some trough
      /\ (target s_old <? target s_new) = false
      /\ (target s_old - target s_new = 0
          \/ target s_old - target s_new = neg_zero)
      /\ (target s_old - target s_new = neg_zero
          <-> target s_old = neg_zero /\ target s_new = 0)
      /\ (target s_old - target s_new = 0 ->
          nth_error out
            (emitted_before time_array pos_array steps window_duration i)
          = Some (if 0 <? target s_new - trough then infinity else 0))
      /\ (target s_old - target s_new = neg_zero ->
          nth_error out
            (emitted_before time_array pos_array steps window_duration i)
          = Some (if target s_new - trough <? 0 then infinity else 0)).
Proof.
  intros time_array pos_array steps window_duration i s_old s_new
    Hlen Hi Ho Hn Heq Hfin Hw.
  destruct (transition_window time_array pos_array steps window_duration i)
    as [|x xs] eqn:Ew; [congruence|].
  destruct (transition_in_result _ _ _ _ _ _ _ _ _ Hlen Hi Ho Hn Ew)
    as (out & Hout & _ & Hnth).
  pose proof (eqb_not_ltb _ _ Heq) as Hlt.
  rewrite Hlt in Hnth.
  exists out, (fold_left np_minimum xs x).
  split; [exact Hout|]. split; [reflexivity|]. split; [exact Hlt|].
  assert (Hpos : forall d,
             d = 0 ->
             py_max 0 ((target s_new - fold_left np_minimum xs x) / d * 100)
             = if 0 <? target s_new - fold_left np_minimum xs x
               then infinity else 0).
  { intros d ->. unfold py_max.
    pose proof (div_zero_scaled (target s_new - fold_left np_minimum xs x) 100
                  eq_refl eq_refl) as H.
    destruct (0 <? target s_new - fold_left np_minimum xs x);
      now rewrite H. }
  assert (Hneg : forall d,
             d = neg_zero ->
             py_max 0 ((target s_new - fold_left np_minimum xs x) / d * 100)
             = if target s_new - fold_left np_minimum xs x <? 0
               then infinity else 0).
  { intros d ->. unfold py_max.
    pose proof (div_neg_zero_scaled
                  (target s_new - fold_left np_minimum xs x) 100
                  eq_refl eq_refl) as H.
    destruct (target s_new - fold_left np_minimum xs x <? 0);
      now rewrite H. }
  assert (Hcases : (target s_old - target s_new = 0
                    /\ ~ (target s_old = neg_zero /\ target s_new = 0))
                   \/ (target s_old - target s_new = neg_zero
                       /\ target s_old = neg_zero /\ target s_new = 0)).
  { destruct (eqb_finite_cases _ _ Heq Hfin) as [E|[[E1 E2]|[E1 E2]]].
    - left. split.
      + rewrite E. apply sub_diag. now apply is_finite_spec.
      + intros [E1 E2]. rewrite E1, E2 in E.
        symmetry in E. exact (zero_is_not_neg_zero E).
    - right. rewrite E1, E2. repeat split.
    - left. rewrite E1, E2. split; [reflexivity|].
      intros [E3 _]. exact (zero_is_not_neg_zero E3). }
  destruct Hcases as [[Hd Hno]|[Hd Hyes]].
  - split; [now left|]. split.
    + split; [|intros H; contradiction].
      intros H. rewrite Hd in H. destruct (zero_is_not_neg_zero H).
    + split.
      * intros _. rewrite Hnth. f_equal. now apply Hpos.
      * intros H. rewrite Hd in H. destruct (zero_is_not_neg_zero H).
  - split; [now right|]. split.
    + split; [intros _; exact Hyes|intros _; exact Hd].
    + split.
      * intros H. rewrite Hd in H. symmetry in H.
        destruct (zero_is_not_neg_zero H).
      * intros _. rewrite Hnth. f_equal. now apply Hneg.
Qed.

Lemma zero_step_divides_by_zero_witness :
  exists out,
    compute_step_overshoots [3; 3.5] [1; 2]
      [(neg_zero, 200, 3); (0, 200, 3)] 1
    = Some out
    /\ nth_error out 0 = Some infinity.
Proof.
  destruct (zero_step_divides_by_zero [3; 3.5] [1; 2]
              [(neg_zero, 200, 3); (0, 200, 3)] 1 1%nat
              (neg_zero, 200, 3) (0, 200, 3))
    as (out & trough & Hout & Hmin & _ & _ & _ & _ & Hnth).
  - simpl. lia.
  - lia.
  - reflexivity.
  - reflexivity.
  - reflexivity.
  - reflexivity.
  - vm_compute. discriminate.
  - exists out. split; [exact Hout|].
    vm_compute in Hmin. injection Hmin as <-. exact (Hnth eq_refl).
Defined.

End AnalyzerFacts.

(** * The timed trajectory drivers *)

Module DriverFacts.

Import Driver.
Local Open Scope R_scope.
Local Open Scope pyerr_scope.

Ltac conjs := repeat apply conj.

(** Two lists that differ by the form of their last element. *)
Ltac snoc_eq :=
  try reflexivity;
  match goal with
  | |- ?l ++ [?x] = ?l ++ [?y] => replace x with y by lra; reflexivity
  end.

(** ** Lists that grow *)

Lemma grows_refl {A : Type} (l : list A) : grows l l.
Proof. exists []. now rewrite app_nil_r. Qed.

Lemma grows_app {A : Type} (l t : list A) : grows l (l ++ t).
Proof. now exists t. Qed.

Lemma grows_trans {A : Type} (l1 l2 l3 : list A) :
  grows l1 l2 -> grows l2 l3 -> grows l1 l3.
Proof.
  intros [t1 ->] [t2 ->]. exists (t1 ++ t2). now rewrite app_assoc.
Qed.

Lemma extends_refl (r : data_dict) : extends r r.
Proof. unfold extends. conjs; apply grows_refl. Qed.

Lemma extends_trans (r1 r2 r3 : data_dict) :
  extends r1 r2 -> extends r2 r3 -> extends r1 r3.
Proof.
  intros (A1 & A2 & A3 & A4 & A5 & A6 & A7) (B1 & B2 & B3 & B4 & B5 & B6 & B7).
  unfold extends. conjs; eapply grows_trans; eassumption.
Qed.

Lemma extends_log_command t p v r : extends r (log_command t p v r).
Proof. unfold extends. conjs; simpl; apply grows_refl || apply grows_app. Qed.

Lemma extends_log_measure t p v r : extends r (log_measure t p v r).
Proof. unfold extends. conjs; simpl; apply grows_refl || apply grows_app. Qed.

Lemma extends_log_resp_time t r : extends r (log_resp_time t r).
Proof. unfold extends. conjs; simpl; apply grows_refl || apply grows_app. Qed.

(** ** Time stamps in order *)

Lemma nondecreasing_snoc (l : list R) (x : R) :
  nondecreasing l -> Forall (fun t => t <= x) l -> nondecreasing (l ++ [x]).
Proof.
  intros Hl Hx i j a b Hij Hi Hj.
  destruct (Nat.lt_ge_cases j (length l)) as [Hjl|Hjl].
  - rewrite nth_error_app1 in Hi, Hj by lia. eauto.
  - rewrite nth_error_app2 in Hj by lia.
    destruct (j - length l)%nat as [|k] eqn:Ek; simpl in Hj;
      [|destruct k; discriminate].
    injection Hj as <-.
    destruct (Nat.lt_ge_cases i (length l)) as [Hil|Hil].
    + rewrite nth_error_app1 in Hi by lia.
      rewrite Forall_forall in Hx. apply Hx. eapply nth_error_In; eassumption.
    + rewrite nth_error_app2 in Hi by lia.
      destruct (i - length l)%nat as [|k] eqn:Ei; simpl in Hi;
        [|destruct k; discriminate].
      injection Hi as <-. lra.
Qed.

Lemma Forall_le_weaken (l : list R) (x y : R) :
  x <= y -> Forall (fun t => t <= x) l -> Forall (fun t => t <= y) l.
Proof.
  intros Hxy H. eapply Forall_impl; [|exact H]. simpl. intros; lra.
Qed.

Lemma Forall_le_snoc (l : list R) (x y : R) :
  x <= y -> Forall (fun t => t <= x) l -> Forall (fun t => t <= y) (l ++ [x]).
Proof.
  intros Hxy H. apply Forall_app. split.
  - now apply (Forall_le_weaken l x y).
  - constructor; [exact Hxy|constructor].
Qed.

Lemma record_ok_intro start_time (s : run) :
  aligned (d s) ->
  nondecreasing (time (d s)) ->
  nondecreasing (cmd_time (d s)) ->
  Forall (fun t => t <= now (w s) - start_time) (time (d s)) ->
  Forall (fun t => t <= now (w s) - start_time) (cmd_time (d s)) ->
  record_ok start_time s.
Proof. intros. unfold record_ok. tauto. Qed.

(** ** The clock only advances *)

Section Clock.

Variable env : endpoint.
Hypothesis latency_nonneg : forall k, 0 <= latency env k.

Lemma rpc_now_le (req : request) (x : world) : now x <= now (rpc env req x).
Proof. simpl. specialize (latency_nonneg (calls x)). lra. Qed.

Lemma asyncio_sleep_now_le (delay : R) (x : world) :
  now x <= now (asyncio_sleep delay x).
Proof. unfold asyncio_sleep. destruct (Rlt_dec 0 delay); simpl; lra. Qed.

Lemma follows_refl start_time s : follows start_time s s.
Proof. split; [apply extends_refl|split; [lra|tauto]]. Qed.

Lemma follows_trans start_time s1 s2 s3 :
  follows start_time s1 s2 -> follows start_time s2 s3 ->
  follows start_time s1 s3.
Proof.
  intros (E1 & N1 & K1) (E2 & N2 & K2). split; [|split].
  - eapply extends_trans; eassumption.
  - lra.
  - auto.
Qed.

(** Waiting, or a call, with the record untouched. *)
Lemma follows_clock start_time s (x : world) :
  now (w s) <= now x -> follows start_time s {| w := x; d := d s |}.
Proof.
  intros Hx. split; [apply extends_refl|]. split; [exact Hx|].
  intros (Ha & Ht & Hc & Bt & Bc).
  apply record_ok_intro; simpl; try assumption;
    (eapply Forall_le_weaken; [|eassumption]; lra).
Qed.

(** Logging rows stamped [t], between the clock before and the clock
    after. *)
Lemma follows_log_resp_time start_time s t (x : world) :
  now (w s) - start_time <= t -> t <= now x - start_time ->
  follows start_time s {| w := x; d := log_resp_time t (d s) |}.
Proof.
  intros Hst Htx. split; [apply extends_log_resp_time|].
  split; [simpl; lra|].
  intros (Ha & Ht & Hc & Bt & Bc).
  apply record_ok_intro; simpl; try assumption;
    (eapply Forall_le_weaken; [|eassumption]; lra).
Qed.

Lemma follows_log_command start_time s t p v (x : world) :
  now (w s) - start_time <= t -> t <= now x - start_time ->
  follows start_time s {| w := x; d := log_command t p v (d s) |}.
Proof.
  intros Hst Htx. split; [apply extends_log_command|].
  split; [simpl; lra|].
  intros (Ha & Ht & Hc & Bt & Bc). destruct Ha as (A1 & A2 & A3 & A4).
  apply record_ok_intro; simpl.
  - unfold aligned. simpl. rewrite !length_app. simpl. lia.
  - assumption.
  - apply nondecreasing_snoc; [assumption|].
    eapply Forall_le_weaken; [|eassumption]; lra.
  - eapply Forall_le_weaken; [|eassumption]; lra.
  - apply Forall_le_snoc; [lra|].
    eapply Forall_le_weaken; [|eassumption]; lra.
Qed.

Lemma follows_log_measure start_time s t p v (x : world) :
  now (w s) - start_time <= t -> t <= now x - start_time ->
  follows start_time s {| w := x; d := log_measure t p v (d s) |}.
Proof.
  intros Hst Htx. split; [apply extends_log_measure|].
  split; [simpl; lra|].
  intros (Ha & Ht & Hc & Bt & Bc). destruct Ha as (A1 & A2 & A3 & A4).
  apply record_ok_intro; simpl.
  - unfold aligned. simpl. rewrite !length_app. simpl. lia.
  - apply nondecreasing_snoc; [assumption|].
    eapply Forall_le_weaken; [|eassumption]; lra.
  - assumption.
  - apply Forall_le_snoc; [lra|].
    eapply Forall_le_weaken; [|eassumption]; lra.
  - eapply Forall_le_weaken; [|eassumption]; lra.
Qed.

(** ** The steps of the sine driver *)

Section SineSteps.

Variables amplitude freq dt start_time : R.
Variable request_state : bool.

Let command := sine_command env amplitude freq dt start_time.
Let measure := sine_measure env amplitude freq dt start_time request_state.
Let pace := sine_pace dt.
Let loop := sine_loop env amplitude freq dt start_time request_state.

Lemma follows_sine_command (i : nat) (s : run) :
  follows start_time s (command i s).
Proof.
  unfold command, sine_command.
  eapply follows_trans.
  - apply (follows_log_command start_time s (now (w s) - start_time)
             (PyNum (sine_angle amplitude freq (INR i * dt)))
             (PyNum (sine_vel amplitude freq (INR i * dt))) (w s)); lra.
  - apply (follows_clock start_time
             {| w := w s; d := log_command _ _ _ (d s) |}).
    apply rpc_now_le.
Qed.

Lemma follows_sine_measure (i : nat) (s : run) :
  follows start_time s (measure i s).
Proof.
  unfold measure, sine_measure. destruct request_state.
  - unfold get_actuators_state.
    set (w1 := rpc env GetState (w s)).
    assert (Hw : now (w s) <= now w1) by apply rpc_now_le.
    destruct (states env (calls (w s))) as [state|];
      (eapply follows_trans;
       [apply (follows_clock start_time s w1 Hw)|];
       eapply follows_trans;
       [apply (follows_log_resp_time start_time {| w := w1; d := d s |}
                 (now w1 - start_time) w1); simpl; lra|];
       apply (follows_log_measure start_time
                {| w := w1; d := log_resp_time _ (d s) |}
                (now w1 - start_time) _ _ w1); simpl; lra).
  - eapply follows_trans.
    + apply (follows_log_resp_time start_time s (now (w s) - start_time) (w s));
        lra.
    + apply (follows_log_measure start_time
               {| w := w s; d := log_resp_time _ (d s) |}
               (now (w s) - start_time) _ _ (w s)); simpl; lra.
Qed.

Lemma follows_sine_pace (s : run) (next_tick : R) :
  follows start_time s (fst (pace s next_tick)).
Proof.
  unfold pace, sine_pace. simpl.
  destruct (Rlt_dec 0 (next_tick + dt - now (w s))).
  - apply follows_clock. apply asyncio_sleep_now_le.
  - apply follows_refl.
Qed.

Lemma sine_loop_S (n : nat) (sn : run * R) :
  loop (S n) sn
  = sine_iter env amplitude freq dt start_time request_state (loop n sn) n.
Proof.
  unfold loop, sine_loop. now rewrite seq_S, fold_left_app.
Qed.

Lemma follows_sine_iter (i : nat) (sn : run * R) :
  follows start_time (fst sn)
    (fst (sine_iter env amplitude freq dt start_time request_state sn i)).
Proof.
  unfold sine_iter.
  eapply follows_trans; [apply (follows_sine_command i)|].
  eapply follows_trans; [apply (follows_sine_measure i)|].
  apply follows_sine_pace.
Qed.

Lemma follows_sine_loop (n : nat) (sn : run * R) :
  follows start_time (fst sn) (fst (loop n sn)).
Proof.
  induction n as [|n IH]; [apply follows_refl|].
  rewrite sine_loop_S. eapply follows_trans; [exact IH|].
  apply follows_sine_iter.
Qed.

End SineSteps.

(** ** The steps of the step driver *)

Section StepSteps.

Variables start_time sample_period step_hold_time vel_limit : R.

Lemma follows_hold_iter (cmd : R) (s : run) :
  follows start_time s
    (hold_iter env start_time sample_period vel_limit cmd s).
Proof.
  unfold hold_iter, get_actuators_state.
  set (w1 := rpc env GetState (w s)).
  assert (Hw : now (w s) <= now w1) by apply rpc_now_le.
  destruct (measured (states env (calls (w s)))) as [measured_pos measured_vel].
  eapply follows_trans; [apply (follows_clock start_time s w1 Hw)|].
  eapply follows_trans;
    [apply (follows_log_measure start_time {| w := w1; d := d s |}
              (now w1 - start_time) measured_pos measured_vel w1); simpl; lra|].
  eapply follows_trans;
    [apply (follows_log_command start_time
              {| w := w1; d := log_measure _ _ _ (d s) |}
              (now w1 - start_time) (PyNum cmd) (PyNum vel_limit) w1);
     simpl; lra|].
  apply (follows_clock start_time
           {| w := w1; d := log_command _ _ _ (log_measure _ _ _ (d s)) |}).
  apply asyncio_sleep_now_le.
Qed.

Lemma follows_hold_upto (k : nat) (end_hold cmd : R) (s : run) :
  follows start_time s
    (hold_upto env start_time sample_period vel_limit k end_hold cmd s).
Proof.
  revert s. induction k as [|k IH]; intros s; simpl; [apply follows_refl|].
  destruct (Rlt_dec (now (w s)) end_hold); [|apply follows_refl].
  eapply follows_trans; [apply follows_hold_iter|apply IH].
Qed.

Lemma follows_step_block (cmd shown : R) (s : run) :
  follows start_time s (step_block env start_time vel_limit cmd shown s).
Proof.
  unfold step_block.
  eapply follows_trans;
    [apply (follows_log_command start_time s (now (w s) - start_time)
              (PyNum cmd) (PyNum vel_limit) (w s)); lra|].
  eapply follows_trans;
    [apply (follows_log_measure start_time
              {| w := w s; d := log_command _ _ _ (d s) |}
              (now (w s) - start_time) (PyNum shown) (PyNum 0) (w s));
     simpl; lra|].
  apply (follows_clock start_time
           {| w := w s; d := log_measure _ _ _ (log_command _ _ _ (d s)) |}).
  apply rpc_now_le.
Qed.

Lemma follows_step_phase (fuel : nat) (cmd shown : R) (s s' : run) :
  step_phase env start_time sample_period step_hold_time vel_limit
    fuel cmd shown s = Some s' ->
  follows start_time s s'.
Proof.
  unfold step_phase, hold_loop. intros H.
  destruct (Rlt_dec _ _) in H; [discriminate|]. injection H as <-.
  eapply follows_trans; [apply follows_step_block|apply follows_hold_upto].
Qed.

Lemma follows_step_cycle (fuel : nat) (step_size : R) (s s' : run) :
  step_cycle env start_time sample_period step_hold_time vel_limit
    fuel step_size s = Some s' ->
  follows start_time s s'.
Proof.
  unfold step_cycle. intros H.
  destruct (step_phase _ _ _ _ _ fuel step_size 0 s) as [s1|] eqn:E1;
    [|discriminate].
  simpl in H. eapply follows_trans; eapply follows_step_phase; eassumption.
Qed.

Lemma follows_step_cycles (fuel : nat) (step_size : R) (l : list nat)
    (s s' : run) :
  fold_left
    (fun acc _ =>
       s <- acc ;;
       step_cycle env start_time sample_period step_hold_time vel_limit
         fuel step_size s)
    l (Some s) = Some s' ->
  follows start_time s s'.
Proof.
  revert s. induction l as [|x l IH]; intros s H; simpl in H.
  - injection H as <-. apply follows_refl.
  - destruct (step_cycle _ _ _ _ _ fuel step_size s) as [s1|] eqn:E1.
    + eapply follows_trans; [eapply follows_step_cycle; eassumption|].
      now apply IH.
    + exfalso. clear -H. induction l as [|y l IHl]; simpl in H;
        [discriminate|auto].
Qed.

End StepSteps.

End Clock.

(** ** The sine loop, pass by pass *)

Section SineClosedForm.

Variable env : endpoint.
Variables amplitude freq dt start_time : R.
Variable request_state : bool.

Let loop := sine_loop env amplitude freq dt start_time request_state.
Let iter := sine_iter env amplitude freq dt start_time request_state.

Local Abbreviation io_of := (pass_io env request_state).
Local Abbreviation measured_of :=
  (pass_measured env amplitude freq dt request_state).
Local Abbreviation requests_of :=
  (pass_requests amplitude freq dt request_state).
Local Abbreviation total_io := (io_total env request_state).

Lemma sine_iter_record (s : run) (next_tick : R) (i : nat) :
  let s' := fst (iter (s, next_tick) i) in
  let c := calls (w s) in
  cmd_time (d s') = cmd_time (d s) ++ [now (w s) - start_time]
  /\ cmd_pos (d s')
     = cmd_pos (d s) ++ [PyNum (sine_angle amplitude freq (INR i * dt))]
  /\ cmd_vel (d s')
     = cmd_vel (d s) ++ [PyNum (sine_vel amplitude freq (INR i * dt))]
  /\ time (d s') = time (d s) ++ [now (w s) + io_of c - start_time]
  /\ position (d s') = position (d s) ++ [fst (measured_of c i)]
  /\ velocity (d s') = velocity (d s) ++ [snd (measured_of c i)].
Proof.
  unfold iter, sine_iter, sine_pace, sine_measure, sine_command,
    pass_io, pass_measured, get_actuators_state.
  cbn [fst snd]. destruct request_state; cbn [w d rpc now calls].
  - destruct (states env (S (calls (w s)))) as [state|];
      destruct (Rlt_dec 0 _); cbn; repeat split; snoc_eq.
  - destruct (Rlt_dec 0 _); cbn; repeat split; snoc_eq.
Qed.

Lemma sine_iter_world (s : run) (next_tick : R) (i : nat) :
  let s' := fst (iter (s, next_tick) i) in
  let c := calls (w s) in
  calls (w s') = (c + sine_calls request_state)%nat
  /\ sent (w s')
     = sent (w s)
       ++ Command (sine_angle amplitude freq (INR i * dt))
            (Some (sine_vel amplitude freq (INR i * dt)))
          :: (if request_state then [GetState] else [])
  /\ snd (iter (s, next_tick) i) = next_tick + dt
  /\ now (w s') = Rmax (now (w s) + io_of c) (next_tick + dt).
Proof.
  unfold iter, sine_iter, sine_pace, sine_measure, sine_command,
    pass_io, sine_calls, get_actuators_state, asyncio_sleep, rpc, Rmax.
  cbn [fst snd]. destruct request_state; cbn [w d now calls sent].
  - destruct (states env (S (calls (w s)))) as [state|];
      destruct (Rlt_dec 0 _) as [Hs|Hs]; cbn [w d now calls sent] in *;
      try (destruct (Rlt_dec 0 _) as [Hs'|Hs']; [|contradiction]);
      cbn [w d now calls sent];
      destruct (Rle_dec _ _);
      repeat split;
      first [lia | lra | now rewrite <- app_assoc].
  - destruct (Rlt_dec 0 _) as [Hs|Hs]; cbn [w d now calls sent] in *;
      try (destruct (Rlt_dec 0 _) as [Hs'|Hs']; [|contradiction]);
      cbn [w d now calls sent];
      destruct (Rle_dec _ _);
      repeat split;
      first [lia | lra | reflexivity].
Qed.

Lemma sine_loop_unfold (n : nat) (sn : run * R) :
  loop (S n) sn = iter (loop n sn) n.
Proof.
  unfold loop, iter, sine_loop. now rewrite seq_S, fold_left_app.
Qed.

Lemma pass_io_sine_io (c i : nat) :
  io_of (c + sine_calls request_state * i) = sine_io env request_state c i.
Proof. reflexivity. Qed.

Lemma pass_measured_sine_measured (c i : nat) :
  measured_of (c + sine_calls request_state * i) i
  = sine_measured env amplitude freq dt request_state c i.
Proof. unfold pass_measured, sine_measured. now destruct request_state. Qed.

(** The state after [n] passes, sequence by sequence. *)
Lemma sine_loop_closed (n : nat) (sn : run * R) :
  let s := fst (loop n sn) in
  let s0 := fst sn in
  let c0 := calls (w s0) in
  snd (loop n sn) = snd sn + INR n * dt
  /\ calls (w s) = (c0 + sine_calls request_state * n)%nat
  /\ sent (w s) = sent (w s0) ++ flat_map requests_of (seq 0 n)
  /\ cmd_time (d s)
     = cmd_time (d s0)
       ++ map (fun i => now (w (fst (loop i sn))) - start_time) (seq 0 n)
  /\ cmd_pos (d s)
     = cmd_pos (d s0)
       ++ map (fun i => PyNum (sine_angle amplitude freq (INR i * dt))) (seq 0 n)
  /\ cmd_vel (d s)
     = cmd_vel (d s0)
       ++ map (fun i => PyNum (sine_vel amplitude freq (INR i * dt))) (seq 0 n)
  /\ time (d s)
     = time (d s0)
       ++ map (fun i => now (w (fst (loop i sn)))
                        + sine_io env request_state c0 i - start_time)
            (seq 0 n)
  /\ position (d s)
     = position (d s0)
       ++ map (fun i => fst (sine_measured env amplitude freq dt
                               request_state c0 i)) (seq 0 n)
  /\ velocity (d s)
     = velocity (d s0)
       ++ map (fun i => snd (sine_measured env amplitude freq dt
                               request_state c0 i)) (seq 0 n).
Proof.
  cbv zeta. induction n as [|n IH].
  - unfold loop, sine_loop. simpl. rewrite !app_nil_r, Nat.mul_0_r, Nat.add_0_r.
    repeat split; lra.
  - destruct IH as (I1 & I2 & I3 & I4 & I5 & I6 & I7 & I8 & I9).
    rewrite sine_loop_unfold.
    rewrite seq_S, !map_app, flat_map_app, !app_assoc. cbn [Nat.add map flat_map].
    rewrite app_nil_r.
    destruct (loop n sn) as [s next_tick] eqn:E. cbn [fst snd] in *.
    destruct (sine_iter_record s next_tick n) as (R1 & R2 & R3 & R4 & R5 & R6).
    destruct (sine_iter_world s next_tick n) as (W1 & W2 & W3 & W4).
    rewrite R1, R2, R3, R4, R5, R6, W1, W2, W3.
    rewrite <- I3, <- I4, <- I5, <- I6, <- I7, <- I8, <- I9, I1, I2.
    rewrite pass_io_sine_io, pass_measured_sine_measured, S_INR.
    repeat split; try reflexivity; try lia; try lra.
Qed.

Lemma sine_loop_now_unfold (n : nat) (sn : run * R) :
  now (w (fst (loop (S n) sn)))
  = Rmax (now (w (fst (loop n sn)))
          + sine_io env request_state (calls (w (fst sn))) n)
         (snd sn + INR (S n) * dt).
Proof.
  destruct (sine_loop_closed n sn) as (I1 & I2 & _). cbv zeta in *.
  rewrite sine_loop_unfold.
  destruct (loop n sn) as [s next_tick] eqn:E. cbn [fst snd] in *.
  destruct (sine_iter_world s next_tick n) as (_ & _ & _ & W4).
  rewrite W4, I1, I2, pass_io_sine_io, S_INR.
  f_equal. lra.
Qed.

(** *** Pacing *)

Lemma io_total_S (c n : nat) :
  total_io c (S n) = total_io c n + sine_io env request_state c n.
Proof.
  unfold io_total. rewrite seq_S, map_app. cbn [Nat.add map].
  generalize (map (sine_io env request_state c) (seq 0 n)) as l.
  induction l as [|x l IH]; simpl; [lra|]. rewrite IH. lra.
Qed.

(** After a pass the clock is never before the deadline of that pass. *)
Lemma sine_never_early (n : nat) (sn : run * R) :
  snd sn <= now (w (fst sn)) ->
  snd sn + INR n * dt <= now (w (fst (loop n sn))).
Proof.
  intros H0. destruct n as [|n].
  - unfold loop, sine_loop. simpl. lra.
  - rewrite sine_loop_now_unfold. apply Rmax_r.
Qed.

(** Calls that fit in a period: every pass ends exactly on its deadline. *)
Lemma sine_on_schedule (n : nat) (sn : run * R) :
  now (w (fst sn)) = snd sn ->
  (forall i, (i < n)%nat ->
             sine_io env request_state (calls (w (fst sn))) i <= dt) ->
  now (w (fst (loop n sn))) = snd sn + INR n * dt.
Proof.
  intros H0 Hio. induction n as [|n IH].
  - unfold loop, sine_loop. simpl. lra.
  - rewrite sine_loop_now_unfold, IH by (intros i Hi; apply Hio; lia).
    rewrite S_INR. apply Rmax_right.
    specialize (Hio n (Nat.lt_succ_diag_r n)). lra.
Qed.

(** Calls that take a period or more: the loop never sleeps, and the time
    of the calls adds up. *)
Lemma sine_behind (n : nat) (sn : run * R) :
  now (w (fst sn)) = snd sn ->
  (forall i, (i < n)%nat ->
             dt <= sine_io env request_state (calls (w (fst sn))) i) ->
  now (w (fst (loop n sn))) = snd sn + total_io (calls (w (fst sn))) n
  /\ INR n * dt <= total_io (calls (w (fst sn))) n.
Proof.
  intros H0 Hio. induction n as [|n IH].
  - unfold loop, sine_loop, io_total. simpl. lra.
  - destruct IH as [IHnow IHsum]; [intros i Hi; apply Hio; lia|].
    specialize (Hio n (Nat.lt_succ_diag_r n)).
    rewrite sine_loop_now_unfold, IHnow, io_total_S, S_INR.
    split; [|lra]. rewrite Rmax_left by lra. lra.
Qed.

End SineClosedForm.

(** ** Pacing of the sampling loops *)

Lemma hold_iter_clock env start_time sample_period vel_limit cmd (s : run) :
  0 < sample_period ->
  let s' := hold_iter env start_time sample_period vel_limit cmd s in
  now (w s') = now (w s) + latency env (calls (w s)) + sample_period
  /\ calls (w s') = S (calls (w s))
  /\ time (d s')
     = time (d s) ++ [now (w s) + latency env (calls (w s)) - start_time].
Proof.
  intros Hp. unfold hold_iter, get_actuators_state, asyncio_sleep, rpc.
  destruct (measured (states env (calls (w s)))) as [measured_pos measured_vel].
  destruct (Rlt_dec 0 sample_period); [|contradiction].
  cbn. repeat split.
Qed.


(** ** The sampling loops end *)

Section StepRun.

Variable env : endpoint.
Variables start_time sample_period step_hold_time vel_limit : R.

Local Abbreviation hold := (hold_upto env start_time sample_period vel_limit).
Local Abbreviation phase :=
  (step_phase env start_time sample_period step_hold_time vel_limit).
Local Abbreviation cycle :=
  (step_cycle env start_time sample_period step_hold_time vel_limit).
Local Abbreviation run_cycles :=
  (cycles env start_time sample_period step_hold_time vel_limit).

Lemma cycles_none (fuel : nat) (step_size : R) (l : list nat) :
  fold_left (fun acc _ => s <- acc ;; cycle fuel step_size s) l None = None.
Proof. induction l as [|x l IH]; simpl; auto. Qed.

Lemma cycles_cons (fuel : nat) (step_size : R) (x : nat) (l : list nat) (s : run) :
  run_cycles fuel step_size (x :: l) s
  = (s1 <- cycle fuel step_size s ;; run_cycles fuel step_size l s1).
Proof.
  unfold cycles. simpl. destruct (cycle fuel step_size s); simpl;
    [reflexivity|apply cycles_none].
Qed.

(** A loop that returns has reached its deadline. *)
Lemma hold_loop_end (fuel : nat) (end_hold cmd : R) (s s' : run) :
  hold_loop env start_time sample_period vel_limit fuel end_hold cmd s = Some s' ->
  s' = hold fuel end_hold cmd s /\ end_hold <= now (w s').
Proof.
  unfold hold_loop. destruct (Rlt_dec _ _) as [H|H]; [discriminate|].
  intros [= <-]. split; [reflexivity|]. lra.
Qed.

(** Passes after the deadline change nothing. *)
Lemma hold_upto_stable (k m : nat) (end_hold cmd : R) (s : run) :
  ~ now (w (hold k end_hold cmd s)) < end_hold ->
  hold (k + m) end_hold cmd s = hold k end_hold cmd s.
Proof.
  revert s. induction k as [|k IH]; intros s H; simpl in *.
  - destruct m; simpl; [reflexivity|].
    destruct (Rlt_dec (now (w s)) end_hold); [contradiction|reflexivity].
  - destruct (Rlt_dec (now (w s)) end_hold); [now apply IH|reflexivity].
Qed.

Lemma hold_loop_mono (fuel fuel' : nat) (end_hold cmd : R) (s s' : run) :
  (fuel <= fuel')%nat ->
  hold_loop env start_time sample_period vel_limit fuel end_hold cmd s = Some s' ->
  hold_loop env start_time sample_period vel_limit fuel' end_hold cmd s = Some s'.
Proof.
  unfold hold_loop. intros Hf.
  destruct (Rlt_dec _ _) as [H|H]; [discriminate|]. intros [= <-].
  replace fuel' with (fuel + (fuel' - fuel))%nat by lia.
  rewrite (hold_upto_stable fuel _ end_hold cmd s H).
  destruct (Rlt_dec _ _); [contradiction|reflexivity].
Qed.

Lemma step_phase_mono (fuel fuel' : nat) (cmd shown : R) (s s' : run) :
  (fuel <= fuel')%nat ->
  phase fuel cmd shown s = Some s' -> phase fuel' cmd shown s = Some s'.
Proof. unfold step_phase. apply hold_loop_mono. Qed.

Lemma step_cycle_mono (fuel fuel' : nat) (step_size : R) (s s' : run) :
  (fuel <= fuel')%nat ->
  cycle fuel step_size s = Some s' -> cycle fuel' step_size s = Some s'.
Proof.
  unfold step_cycle. intros Hf H.
  destruct (step_phase _ _ _ _ _ fuel step_size 0 s) as [s1|] eqn:E1;
    [|discriminate].
  rewrite (step_phase_mono fuel fuel' _ _ _ _ Hf E1). simpl in *.
  now apply (step_phase_mono fuel fuel').
Qed.

Lemma cycles_mono (fuel fuel' : nat) (step_size : R) (l : list nat) (s s' : run) :
  (fuel <= fuel')%nat ->
  run_cycles fuel step_size l s = Some s' -> run_cycles fuel' step_size l s = Some s'.
Proof.
  intros Hf. revert s. induction l as [|x l IH]; intros s H.
  - exact H.
  - rewrite cycles_cons in *.
    destruct (cycle fuel step_size s) as [s1|] eqn:E1; [|discriminate].
    rewrite (step_cycle_mono fuel fuel' _ _ _ Hf E1). simpl in *. now apply IH.
Qed.

(** A phase that returns has lasted the hold time. *)
Lemma step_phase_lasts (fuel : nat) (cmd shown : R) (s s' : run) :
  0 <= latency env (calls (w s)) ->
  phase fuel cmd shown s = Some s' ->
  now (w s) + step_hold_time <= now (w s').
Proof.
  unfold step_phase. intros Hl H.
  apply hold_loop_end in H. destruct H as [_ H]. simpl in H. lra.
Qed.

Hypothesis latency_nonneg : forall k, 0 <= latency env k.

Lemma step_cycle_lasts (fuel : nat) (step_size : R) (s s' : run) :
  cycle fuel step_size s = Some s' ->
  now (w s) + 2 * step_hold_time <= now (w s').
Proof.
  unfold step_cycle. intros H.
  destruct (step_phase _ _ _ _ _ fuel step_size 0 s) as [s1|] eqn:E1;
    [|discriminate].
  simpl in H.
  apply step_phase_lasts in E1; [|apply latency_nonneg].
  apply step_phase_lasts in H; [|apply latency_nonneg]. lra.
Qed.

Lemma cycles_last (fuel : nat) (step_size : R) (l : list nat) (s s' : run) :
  run_cycles fuel step_size l s = Some s' ->
  now (w s) + 2 * INR (length l) * step_hold_time <= now (w s').
Proof.
  revert s. induction l as [|x l IH]; intros s H.
  - injection H as <-. simpl. lra.
  - rewrite cycles_cons in H.
    destruct (cycle fuel step_size s) as [s1|] eqn:E1; [|discriminate].
    simpl in H. apply IH in H. apply step_cycle_lasts in E1.
    change (length (x :: l)) with (S (length l)). rewrite S_INR. lra.
Qed.

Hypothesis period_pos : 0 < sample_period.

Lemma hold_upto_progress (k : nat) (end_hold cmd : R) (s : run) :
  end_hold <= now (w (hold k end_hold cmd s))
  \/ now (w s) + INR k * sample_period <= now (w (hold k end_hold cmd s)).
Proof.
  revert s. induction k as [|k IH]; intros s.
  - right. simpl. lra.
  - cbn [hold_upto]. destruct (Rlt_dec (now (w s)) end_hold) as [H|H].
    + destruct (IH (hold_iter env start_time sample_period vel_limit cmd s))
        as [He|Hp]; [now left|right].
      destruct (hold_iter_clock env start_time sample_period vel_limit cmd s
                  period_pos) as (Hn & _).
      specialize (latency_nonneg (calls (w s))). rewrite S_INR. lra.
    + left. lra.
Qed.

Lemma hold_loop_returns (fuel : nat) (end_hold cmd : R) (s : run) :
  end_hold - now (w s) <= INR fuel * sample_period ->
  exists s',
    hold_loop env start_time sample_period vel_limit fuel end_hold cmd s = Some s'.
Proof.
  intros Hf. unfold hold_loop.
  destruct (Rlt_dec _ _) as [H|H]; [|eauto].
  destruct (hold_upto_progress fuel end_hold cmd s); lra.
Qed.

Lemma step_phase_returns (fuel : nat) (cmd shown : R) (s : run) :
  step_hold_time <= INR fuel * sample_period ->
  exists s', phase fuel cmd shown s = Some s'.
Proof.
  intros Hf. unfold step_phase. apply hold_loop_returns. simpl. lra.
Qed.

Lemma cycles_return (fuel : nat) (step_size : R) (l : list nat) (s : run) :
  step_hold_time <= INR fuel * sample_period ->
  exists s', run_cycles fuel step_size l s = Some s'.
Proof.
  intros Hf. revert s. induction l as [|x l IH]; intros s.
  - eexists. reflexivity.
  - rewrite cycles_cons. unfold step_cycle.
    destruct (step_phase_returns fuel step_size 0 s Hf) as [s1 E1].
    rewrite E1. simpl.
    destruct (step_phase_returns fuel 0 step_size s1 Hf) as [s2 E2].
    rewrite E2. simpl. apply IH.
Qed.

End StepRun.

Lemma enough_fuel (h p : R) : 0 < p -> exists fuel : nat, h <= INR fuel * p.
Proof.
  intros Hp. exists (Z.to_nat (up (h / p))).
  destruct (archimed (h / p)) as [Hup _].
  assert (Hge : IZR (up (h / p)) <= INR (Z.to_nat (up (h / p)))).
  { destruct (Z.le_gt_cases 0 (up (h / p))) as [Hz|Hz].
    - rewrite INR_IZR_INZ, Z2Nat.id by assumption. lra.
    - replace (Z.to_nat (up (h / p))) with 0%nat by lia. simpl.
      apply (IZR_le _ 0). lia. }
  apply Rmult_le_reg_r with (r := / p); [now apply Rinv_0_lt_compat|].
  rewrite Rmult_assoc, Rinv_r, Rmult_1_r by lra.
  unfold Rdiv in Hup. lra.
Qed.


(** ** What every step of the step driver keeps, the whole run keeps *)

Section StepInvariant.

Variable env : endpoint.
Variables start_time sample_period step_hold_time vel_limit : R.
Variable P : run -> Prop.

Hypothesis P_block :
  forall cmd shown s, P s -> P (step_block env start_time vel_limit cmd shown s).
Hypothesis P_iter :
  forall cmd s, P s -> P (hold_iter env start_time sample_period vel_limit cmd s).

Lemma hold_upto_inv (k : nat) (end_hold cmd : R) (s : run) :
  P s -> P (hold_upto env start_time sample_period vel_limit k end_hold cmd s).
Proof.
  revert s. induction k as [|k IH]; intros s Hs; simpl; [exact Hs|].
  destruct (Rlt_dec (now (w s)) end_hold); auto.
Qed.

Lemma step_phase_inv (fuel : nat) (cmd shown : R) (s s' : run) :
  P s ->
  step_phase env start_time sample_period step_hold_time vel_limit
    fuel cmd shown s = Some s' ->
  P s'.
Proof.
  unfold step_phase. intros Hs H. apply hold_loop_end in H.
  destruct H as [-> _]. apply hold_upto_inv. now apply P_block.
Qed.

Lemma step_cycle_inv (fuel : nat) (step_size : R) (s s' : run) :
  P s ->
  step_cycle env start_time sample_period step_hold_time vel_limit
    fuel step_size s = Some s' ->
  P s'.
Proof.
  unfold step_cycle. intros Hs H.
  destruct (step_phase _ _ _ _ _ fuel step_size 0 s) as [s1|] eqn:E1;
    [|discriminate].
  simpl in H. eapply step_phase_inv; [|exact H].
  eapply step_phase_inv; [exact Hs|exact E1].
Qed.

Lemma cycles_inv (fuel : nat) (step_size : R) (l : list nat) (s s' : run) :
  P s ->
  cycles env start_time sample_period step_hold_time vel_limit
    fuel step_size l s = Some s' ->
  P s'.
Proof.
  revert s. induction l as [|x l IH]; intros s Hs H.
  - injection H as <-. exact Hs.
  - rewrite cycles_cons in H.
    destruct (step_cycle _ _ _ _ _ fuel step_size s) as [s1|] eqn:E1;
      [|discriminate].
    simpl in H. eapply IH; [|exact H]. eapply step_cycle_inv; eassumption.
Qed.

End StepInvariant.

(** ** Every state query leaves a row *)

Lemma nth_error_snoc_old {A : Type} (l : list A) (x a : A) (k : nat) :
  nth_error l k = Some a -> nth_error (l ++ [x]) k = Some a.
Proof.
  intros H. rewrite nth_error_app1; [exact H|].
  apply nth_error_Some. congruence.
Qed.

Lemma nth_error_snoc_inv {A : Type} (l : list A) (x a : A) (k : nat) :
  nth_error (l ++ [x]) k = Some a ->
  nth_error l k = Some a \/ (k = length l /\ a = x).
Proof.
  intros H. destruct (Nat.lt_ge_cases k (length l)) as [Hk|Hk].
  - left. now rewrite nth_error_app1 in H.
  - right. rewrite nth_error_app2 in H by lia.
    destruct (k - length l)%nat as [|m] eqn:E; simpl in H.
    + split; [lia|congruence].
    + destruct m; discriminate.
Qed.

Lemma logged_block env start_time vel_limit c0 n0 cmd shown (s : run) :
  logged env c0 n0 s ->
  logged env c0 n0 (step_block env start_time vel_limit cmd shown s).
Proof.
  intros (Hc & Hlt & Ht & Hp & Hv & Hq).
  unfold logged, step_block, rpc. cbn [w d now calls sent log_measure
    log_command time position velocity].
  rewrite !length_app. cbn [length].
  repeat apply conj; try lia.
  intros k Hk Hs. apply nth_error_snoc_inv in Hs.
  destruct Hs as [Hs|[_ Hs]]; [|discriminate].
  destruct (Hq k Hk Hs) as [Hqp Hqv].
  split; now apply nth_error_snoc_old.
Qed.

Lemma logged_iter env start_time sample_period vel_limit c0 n0 cmd (s : run) :
  logged env c0 n0 s ->
  logged env c0 n0 (hold_iter env start_time sample_period vel_limit cmd s).
Proof.
  intros (Hc & Hlt & Ht & Hp & Hv & Hq).
  unfold logged, hold_iter, get_actuators_state, asyncio_sleep, rpc.
  destruct (measured (states env (calls (w s)))) as [measured_pos measured_vel]
    eqn:Em.
  assert (Hw : forall x : world,
             calls (if Rlt_dec 0 sample_period
                    then {| now := now x + sample_period;
                            calls := calls x; sent := sent x |}
                    else x) = calls x
             /\ sent (if Rlt_dec 0 sample_period
                      then {| now := now x + sample_period;
                              calls := calls x; sent := sent x |}
                      else x) = sent x)
    by (intros x; destruct (Rlt_dec 0 sample_period); split; reflexivity).
  cbn [w d]. destruct (Hw {| now := now (w s) + latency env (calls (w s));
                             calls := S (calls (w s));
                             sent := sent (w s) ++ [GetState] |}) as [-> ->].
  cbn [now calls sent log_measure log_command time position velocity].
  rewrite !length_app. cbn [length].
  repeat apply conj; try lia.
  intros k Hk Hs. apply nth_error_snoc_inv in Hs. destruct Hs as [Hs|[Hs _]].
  - destruct (Hq k Hk Hs) as [Hqp Hqv].
    split; now apply nth_error_snoc_old.
  - assert (Hkc : k = calls (w s)) by lia. clear Hs. subst k.
    rewrite Em. cbn [fst snd].
    split.
    + rewrite nth_error_app2 by lia.
      replace (n0 + (calls (w s) - S c0) - length (position (d s)))%nat
        with 0%nat by lia.
      reflexivity.
    + rewrite nth_error_app2 by lia.
      replace (n0 + (calls (w s) - S c0) - length (velocity (d s)))%nat
        with 0%nat by lia.
      reflexivity.
Qed.


(** ** The two drivers as wholes *)

Lemma Some_inj {A : Type} (x y : A) : Some x = Some y -> x = y.
Proof. congruence. Qed.

Lemma py_div_Some (a b q : float) :
  py_div a b = Some q -> q = (a / b)%float.
Proof.
  unfold py_div. destruct (b =? 0)%float; [discriminate|].
  now intros [= <-].
Qed.

(** The pass count is defined when neither division raises and the
    quotient is finite. *)
Lemma sine_steps_inv (duration update_rate : float) (n : nat) :
  sine_steps duration update_rate = Some n ->
  py_div 1 update_rate = Some (1 / update_rate)%float
  /\ py_div duration (1 / update_rate)
     = Some (duration / (1 / update_rate))%float
  /\ exists z, py_int (duration / (1 / update_rate)) = Some z
               /\ n = Z.to_nat z.
Proof.
  unfold sine_steps.
  destruct (py_div 1 update_rate) as [dt|] eqn:Edt; [|discriminate].
  cbn [bind]. rewrite (py_div_Some _ _ _ Edt) in *.
  destruct (py_div duration (1 / update_rate)) as [q|] eqn:Eq; [|discriminate].
  cbn [bind]. rewrite (py_div_Some _ _ _ Eq) in *.
  destruct (py_int (duration / (1 / update_rate))) as [z|] eqn:Ez;
    [|discriminate].
  cbn [bind]. intros [= <-]. repeat split. now exists z.
Qed.

Lemma run_sine_test_eq env amplitude freq duration g lim update_rate d0
    start_time is_real request_state w0 n :
  sine_steps duration update_rate = Some n ->
  run_sine_test env amplitude freq duration g lim update_rate d0 start_time
    is_real request_state w0
  = Some (fst (sine_loop env amplitude freq (sine_dt update_rate) start_time
                 request_state n
                 ({| w := rpc env (sine_configure is_real g lim) w0; d := d0 |},
                  now (rpc env (sine_configure is_real g lim) w0)))).
Proof.
  intros Hn. destruct (sine_steps_inv _ _ _ Hn) as (E1 & E2 & z & E3 & ->).
  unfold run_sine_test. rewrite E1. cbn [bind]. rewrite E2. cbn [bind].
  rewrite E3. reflexivity.
Qed.

Lemma run_step_test_eq fuel env step_size step_hold_time step_count g lim
    vel_limit d0 start_time sample_rate is_real w0 :
  sample_rate <> 0 ->
  let start := match start_time with Some t => t | None => now w0 end in
  run_step_test fuel env step_size step_hold_time step_count g lim vel_limit
    d0 start_time sample_rate is_real w0
  = (s1 <- step_phase env start (1 / sample_rate) step_hold_time vel_limit
             fuel 0 0
             {| w := rpc env (step_configure is_real g lim) w0; d := d0 |} ;;
     cycles env start (1 / sample_rate) step_hold_time vel_limit fuel
       step_size (seq 0 (Z.to_nat step_count)) s1).
Proof.
  intros Hr. unfold run_step_test.
  destruct (Req_dec_T sample_rate 0); [contradiction|reflexivity].
Qed.

Lemma run_step_test_rate fuel env step_size step_hold_time step_count g lim
    vel_limit d0 start_time sample_rate is_real w0 sf :
  run_step_test fuel env step_size step_hold_time step_count g lim vel_limit
    d0 start_time sample_rate is_real w0 = Some sf ->
  sample_rate <> 0.
Proof.
  unfold run_step_test. destruct (Req_dec_T sample_rate 0); [discriminate|auto].
Qed.

Lemma run_sine_test_rate env amplitude freq duration g lim update_rate d0
    start_time is_real request_state w0 sf :
  run_sine_test env amplitude freq duration g lim update_rate d0 start_time
    is_real request_state w0 = Some sf ->
  exists n, sine_steps duration update_rate = Some n.
Proof.
  unfold run_sine_test, sine_steps.
  destruct (py_div 1 update_rate) as [dt|]; [|discriminate]. cbn [bind].
  destruct (py_div duration dt) as [q|]; [|discriminate]. cbn [bind].
  destruct (py_int q) as [z|]; [|discriminate]. cbn [bind].
  intros _. now eexists.
Qed.

(** A step run that returns: its first phase, then its cycles. *)
Lemma run_step_test_inv fuel env step_size step_hold_time step_count g lim
    vel_limit d0 start_time sample_rate is_real w0 sf :
  run_step_test fuel env step_size step_hold_time step_count g lim vel_limit
    d0 start_time sample_rate is_real w0 = Some sf ->
  let start := match start_time with Some t => t | None => now w0 end in
  exists s1,
    step_phase env start (1 / sample_rate) step_hold_time vel_limit fuel 0 0
      {| w := rpc env (step_configure is_real g lim) w0; d := d0 |} = Some s1
    /\ cycles env start (1 / sample_rate) step_hold_time vel_limit fuel
         step_size (seq 0 (Z.to_nat step_count)) s1 = Some sf.
Proof.
  intros H. pose proof (run_step_test_rate _ _ _ _ _ _ _ _ _ _ _ _ _ _ H) as Hr.
  rewrite run_step_test_eq in H by assumption. cbv zeta in *.
  destruct (step_phase _ _ _ _ _ fuel 0 0 _) as [s1|]; [|discriminate].
  exists s1. split; [reflexivity|exact H].
Qed.

(** What holds after the configuring call and is kept by every step of the
    step driver holds when the run returns. *)
Lemma run_step_test_keeps (P : run -> Prop) fuel env step_size step_hold_time
    step_count g lim vel_limit d0 start_time sample_rate is_real w0 sf :
  let start := match start_time with Some t => t | None => now w0 end in
  (forall cmd shown s, P s -> P (step_block env start vel_limit cmd shown s)) ->
  (forall cmd s,
      P s -> P (hold_iter env start (1 / sample_rate) vel_limit cmd s)) ->
  P {| w := rpc env (step_configure is_real g lim) w0; d := d0 |} ->
  run_step_test fuel env step_size step_hold_time step_count g lim vel_limit
    d0 start_time sample_rate is_real w0 = Some sf ->
  P sf.
Proof.
  intros start Hb Hi H0 H.
  destruct (run_step_test_inv _ _ _ _ _ _ _ _ _ _ _ _ _ _ H) as (s1 & E1 & E2).
  eapply cycles_inv; [exact Hb|exact Hi| |exact E2].
  eapply step_phase_inv; [exact Hb|exact Hi|exact H0|exact E1].
Qed.

(** The configuring call is the first request of a run. *)
Lemma sine_sends_configure env amplitude freq duration g lim update_rate d0
    start_time is_real request_state w0 sf :
  run_sine_test env amplitude freq duration g lim update_rate d0 start_time
    is_real request_state w0 = Some sf ->
  nth_error (sent (w sf)) (length (sent w0)) = Some (sine_configure is_real g lim).
Proof.
  intros H.
  destruct (run_sine_test_rate _ _ _ _ _ _ _ _ _ _ _ _ _ H) as [n Hn].
  rewrite (run_sine_test_eq _ _ _ _ _ _ _ _ _ _ _ _ _ Hn) in H.
  apply Some_inj in H. rewrite <- H.
  destruct (sine_loop_closed env amplitude freq (sine_dt update_rate)
              start_time request_state n
              ({| w := rpc env (sine_configure is_real g lim) w0; d := d0 |},
               now (rpc env (sine_configure is_real g lim) w0)))
    as (_ & _ & Hs & _).
  cbv zeta in Hs. rewrite Hs. cbn [fst w rpc sent].
  rewrite <- app_assoc. rewrite nth_error_app2 by lia.
  now rewrite Nat.sub_diag.
Qed.

Lemma step_sends_configure fuel env step_size step_hold_time step_count g lim
    vel_limit d0 start_time sample_rate is_real w0 sf :
  run_step_test fuel env step_size step_hold_time step_count g lim vel_limit
    d0 start_time sample_rate is_real w0 = Some sf ->
  nth_error (sent (w sf)) (length (sent w0)) = Some (step_configure is_real g lim).
Proof.
  apply (run_step_test_keeps
           (fun s => nth_error (sent (w s)) (length (sent w0))
                     = Some (step_configure is_real g lim))).
  - intros cmd shown s Hs. unfold step_block, rpc. cbn [w sent].
    now apply nth_error_snoc_old.
  - intros cmd s Hs. unfold hold_iter, get_actuators_state, asyncio_sleep, rpc.
    destruct (measured _). destruct (Rlt_dec 0 (1 / sample_rate)); cbn [w sent];
      now apply nth_error_snoc_old.
  - cbn [w rpc sent]. rewrite nth_error_app2 by lia. now rewrite Nat.sub_diag.
Qed.

(** C9. With the simulated gains ([is_real] false) the sine driver selects
    (sim_kp, sim_kv, 0) and the step driver (sim_kp, sim_kv, ki); with the
    real gains both select (kp, kd, ki).  The configuring call, the first
    request of a run, is built from the selection: the one of a simulated
    sine run carries no integral gain, the one of a simulated step run
    carries ki. *)
Theorem gain_selection_by_mode :
  (forall (g : gain_set) (lim : limits),
      sine_gains false g = (sim_kp g, sim_kv g, 0)
      /\ step_gains false g = (sim_kp g, sim_kv g, ki g)
      /\ sine_gains true g = (kp g, kd g, ki g)
      /\ step_gains true g = (kp g, kd g, ki g)
      /\ sine_configure false g lim
         = Configure (sim_kp g) (sim_kv g) None None
             (max_torque lim) (torque_enabled lim)
      /\ step_configure false g lim
         = Configure (sim_kp g) (sim_kv g) (Some (ki g))
             (Some (acceleration lim)) (max_torque lim) (torque_enabled lim)
      /\ sine_configure true g lim
         = Configure (kp g) (kd g) (Some (ki g)) (Some (acceleration lim))
             (max_torque lim) (torque_enabled lim)
      /\ step_configure true g lim
         = Configure (kp g) (kd g) (Some (ki g)) (Some (acceleration lim))
             (max_torque lim) (torque_enabled lim))
  /\ (forall env amplitude freq duration g lim update_rate d0 start_time
        is_real request_state w0 sf,
         run_sine_test env amplitude freq duration g lim update_rate d0
           start_time is_real request_state w0 = Some sf ->
         nth_error (sent (w sf)) (length (sent w0))
         = Some (sine_configure is_real g lim))
  /\ (forall fuel env step_size step_hold_time step_count g lim vel_limit d0
        start_time sample_rate is_real w0 sf,
         run_step_test fuel env step_size step_hold_time step_count g lim
           vel_limit d0 start_time sample_rate is_real w0 = Some sf ->
         nth_error (sent (w sf)) (length (sent w0))
         = Some (step_configure is_real g lim)).
Proof.
  split; [intros g lim; repeat split|].
  split; [exact sine_sends_configure|exact step_sends_configure].
Qed.


(** ** The step run returns *)

Lemma run_step_test_returns fuel env step_size step_hold_time step_count g lim
    vel_limit d0 start_time sample_rate is_real w0 :
  (forall k, 0 <= latency env k) ->
  0 < sample_rate ->
  step_hold_time <= INR fuel * (1 / sample_rate) ->
  exists sf,
    run_step_test fuel env step_size step_hold_time step_count g lim vel_limit
      d0 start_time sample_rate is_real w0 = Some sf.
Proof.
  intros Hlat Hr Hf.
  assert (Hp : 0 < 1 / sample_rate) by (apply Rdiv_pos_pos; lra).
  rewrite run_step_test_eq by lra. cbv zeta.
  destruct (step_phase_returns env
              (match start_time with Some t => t | None => now w0 end)
              (1 / sample_rate) step_hold_time vel_limit Hlat Hp fuel 0 0
              {| w := rpc env (step_configure is_real g lim) w0; d := d0 |} Hf)
    as [s1 E1].
  rewrite E1. simpl.
  apply cycles_return; assumption.
Qed.

Lemma run_step_test_mono fuel fuel' env step_size step_hold_time step_count
    g lim vel_limit d0 start_time sample_rate is_real w0 sf :
  (fuel <= fuel')%nat ->
  run_step_test fuel env step_size step_hold_time step_count g lim vel_limit
    d0 start_time sample_rate is_real w0 = Some sf ->
  run_step_test fuel' env step_size step_hold_time step_count g lim vel_limit
    d0 start_time sample_rate is_real w0 = Some sf.
Proof.
  intros Hf H.
  pose proof (run_step_test_rate _ _ _ _ _ _ _ _ _ _ _ _ _ _ H) as Hr.
  destruct (run_step_test_inv _ _ _ _ _ _ _ _ _ _ _ _ _ _ H) as (s1 & E1 & E2).
  rewrite run_step_test_eq by assumption. cbv zeta.
  rewrite (step_phase_mono _ _ _ _ _ fuel fuel' _ _ _ _ Hf E1). simpl.
  now apply (cycles_mono _ _ _ _ _ fuel fuel').
Qed.

(** ** Records stay aligned, append-only and in time order *)

Lemma follows_configure env start_time (req : request) (w0 : world)
    (d0 : data_dict) :
  (forall k, 0 <= latency env k) ->
  follows start_time {| w := w0; d := d0 |} {| w := rpc env req w0; d := d0 |}.
Proof.
  intros Hlat.
  apply (follows_clock start_time {| w := w0; d := d0 |} (rpc env req w0)).
  now apply rpc_now_le.
Qed.

Lemma follows_run_sine_test env amplitude freq duration g lim update_rate d0
    start_time is_real request_state w0 sf :
  (forall k, 0 <= latency env k) ->
  run_sine_test env amplitude freq duration g lim update_rate d0 start_time
    is_real request_state w0 = Some sf ->
  follows start_time {| w := w0; d := d0 |} sf.
Proof.
  intros Hlat H.
  destruct (run_sine_test_rate _ _ _ _ _ _ _ _ _ _ _ _ _ H) as [n Hn].
  rewrite (run_sine_test_eq _ _ _ _ _ _ _ _ _ _ _ _ _ Hn) in H.
  apply Some_inj in H. rewrite <- H.
  eapply follows_trans; [now apply follows_configure|].
  apply (follows_sine_loop env Hlat amplitude freq (sine_dt update_rate)
           start_time
           request_state _
           ({| w := rpc env (sine_configure is_real g lim) w0; d := d0 |}, _)).
Qed.

Lemma follows_run_step_test fuel env step_size step_hold_time step_count g lim
    vel_limit d0 start_time sample_rate is_real w0 sf :
  (forall k, 0 <= latency env k) ->
  run_step_test fuel env step_size step_hold_time step_count g lim vel_limit
    d0 start_time sample_rate is_real w0 = Some sf ->
  follows (match start_time with Some t => t | None => now w0 end)
    {| w := w0; d := d0 |} sf.
Proof.
  intros Hlat H.
  destruct (run_step_test_inv _ _ _ _ _ _ _ _ _ _ _ _ _ _ H) as (s1 & E1 & E2).
  cbv zeta in *.
  eapply follows_trans; [now apply follows_configure|].
  eapply follows_trans;
    [eapply follows_step_phase; [exact Hlat|exact E1]|].
  eapply follows_step_cycles; [exact Hlat|exact E2].
Qed.

(** C7. Along a driver run (sine or step) the record is well formed at
    every step: [time], [position], [velocity] have one length and
    [cmd_time], [cmd_pos], [cmd_vel] have one length, every sequence is the
    earlier one with elements appended, and [time] and [cmd_time] are
    non-decreasing.  It is stated for a run entered with a well-formed
    record (the empty one is) on an endpoint whose calls take no negative
    time: for the sine loop before each pass, after its command and after
    its measurement; for the step driver across the start of a phase and
    across a pass of a sampling loop; and for the record each run returns,
    a run that does return. *)
Theorem records_aligned_append_only_ordered :
  forall env : endpoint,
    (forall k, 0 <= latency env k) ->
    (forall amplitude freq dt start_time request_state s0 next_tick n,
        record_ok start_time s0 ->
        let before :=
          fst (sine_loop env amplitude freq dt start_time request_state n
                 (s0, next_tick)) in
        let commanded :=
          sine_command env amplitude freq dt start_time n before in
        let measured :=
          sine_measure env amplitude freq dt start_time request_state n
            commanded in
        let after :=
          fst (sine_loop env amplitude freq dt start_time request_state (S n)
                 (s0, next_tick)) in
        (record_ok start_time before /\ extends (d s0) (d before))
        /\ (record_ok start_time commanded /\ extends (d before) (d commanded))
        /\ (record_ok start_time measured /\ extends (d commanded) (d measured))
        /\ (record_ok start_time after /\ extends (d measured) (d after)))
    /\ (forall amplitude freq duration g lim update_rate d0 start_time is_real
          request_state w0 steps,
           record_ok start_time {| w := w0; d := d0 |} ->
           sine_steps duration update_rate = Some steps ->
           exists sf,
             run_sine_test env amplitude freq duration g lim update_rate d0
               start_time is_real request_state w0 = Some sf
             /\ aligned (d sf)
             /\ nondecreasing (time (d sf))
             /\ nondecreasing (cmd_time (d sf))
             /\ extends d0 (d sf))
    /\ (forall start_time sample_period vel_limit cmd shown s,
           record_ok start_time s ->
           let started := step_block env start_time vel_limit cmd shown s in
           let sampled :=
             hold_iter env start_time sample_period vel_limit cmd s in
           (record_ok start_time started /\ extends (d s) (d started))
           /\ (record_ok start_time sampled /\ extends (d s) (d sampled)))
    /\ (forall fuel step_size step_hold_time step_count g lim vel_limit d0
          start_time sample_rate is_real w0 sf,
           record_ok (match start_time with Some t => t | None => now w0 end)
             {| w := w0; d := d0 |} ->
           run_step_test fuel env step_size step_hold_time step_count g lim
             vel_limit d0 start_time sample_rate is_real w0 = Some sf ->
           aligned (d sf)
           /\ nondecreasing (time (d sf))
           /\ nondecreasing (cmd_time (d sf))
           /\ extends d0 (d sf))
    /\ (forall step_size step_hold_time step_count g lim vel_limit d0
          start_time sample_rate is_real w0,
           0 < sample_rate ->
           exists fuel sf,
             run_step_test fuel env step_size step_hold_time step_count g lim
               vel_limit d0 start_time sample_rate is_real w0 = Some sf).
Proof.
  intros env Hlat. repeat apply conj.
  - intros amplitude freq dt start_time request_state s0 next_tick n H0
      before commanded measured after.
    pose proof (follows_sine_loop env Hlat amplitude freq dt start_time
                  request_state n (s0, next_tick)) as (E1 & _ & K1).
    pose proof (follows_sine_command env Hlat amplitude freq dt start_time
                  n before) as (E2 & _ & K2).
    pose proof (follows_sine_measure env Hlat amplitude freq dt start_time
                  request_state n commanded) as (E3 & _ & K3).
    pose proof (follows_sine_pace dt start_time measured
                  (snd (sine_loop env amplitude freq dt start_time
                          request_state n (s0, next_tick))))
      as (E4 & _ & K4).
    assert (Ha : after
                 = fst (sine_pace dt measured
                          (snd (sine_loop env amplitude freq dt start_time
                                  request_state n (s0, next_tick)))))
      by (unfold after; now rewrite sine_loop_S).
    rewrite <- Ha in E4, K4. cbn [fst] in E1, K1.
    assert (Kb := K1 H0). assert (Kc := K2 Kb).
    assert (Km := K3 Kc). assert (Ka := K4 Km).
    exact (conj (conj Kb E1)
             (conj (conj Kc E2) (conj (conj Km E3) (conj Ka E4)))).
  - intros amplitude freq duration g lim update_rate d0 start_time is_real
      request_state w0 steps H0 Hr.
    eexists. split; [now apply (run_sine_test_eq _ _ _ _ _ _ _ _ _ _ _ _ steps)|].
    pose proof (follows_run_sine_test env amplitude freq duration g lim
                  update_rate d0 start_time is_real request_state w0 _ Hlat
                  (run_sine_test_eq env amplitude freq duration g lim
                     update_rate d0 start_time is_real request_state w0 steps
                     Hr))
      as (E & _ & K).
    destruct (K H0) as (Ha & Ht & Hc & _).
    exact (conj Ha (conj Ht (conj Hc E))).
  - intros start_time sample_period vel_limit cmd shown s H0 started sampled.
    pose proof (follows_step_block env Hlat start_time vel_limit cmd shown s)
      as (E1 & _ & K1).
    pose proof (follows_hold_iter env Hlat start_time sample_period vel_limit
                  cmd s) as (E2 & _ & K2).
    exact (conj (conj (K1 H0) E1) (conj (K2 H0) E2)).
  - intros fuel step_size step_hold_time step_count g lim vel_limit d0
      start_time sample_rate is_real w0 sf H0 H.
    pose proof (follows_run_step_test _ _ _ _ _ _ _ _ _ _ _ _ _ _ Hlat H)
      as (E & _ & K).
    destruct (K H0) as (Ha & Ht & Hc & _).
    exact (conj Ha (conj Ht (conj Hc E))).
  - intros step_size step_hold_time step_count g lim vel_limit d0
      start_time sample_rate is_real w0 Hr.
    destruct (enough_fuel step_hold_time (1 / sample_rate)) as [fuel Hf];
      [apply Rdiv_pos_pos; lra|].
    exists fuel.
    now apply run_step_test_returns.
Qed.


Lemma record_ok_empty (start_time : R) (w0 : world) :
  record_ok start_time {| w := w0; d := empty_dict |}.
Proof.
  apply record_ok_intro; simpl.
  - unfold aligned. simpl. auto.
  - intros i j a b _ Hi. destruct i; discriminate.
  - intros i j a b _ Hi. destruct i; discriminate.
  - constructor.
  - constructor.
Qed.

Lemma records_aligned_append_only_ordered_witness :
  let env := {| latency := fun _ => 1; states := fun _ => None |} in
  exists sf,
    run_sine_test env 5 1 5 default_gains default_limits 50 empty_dict 0
      true true (fresh_world 0) = Some sf
    /\ aligned (d sf)
    /\ nondecreasing (time (d sf))
    /\ nondecreasing (cmd_time (d sf))
    /\ extends empty_dict (d sf).
Proof.
  intros env.
  assert (Hlat : forall k, 0 <= latency env k) by (intros k; simpl; lra).
  destruct (records_aligned_append_only_ordered env Hlat) as (_ & Hsine & _).
  apply (Hsine 5 1 5%float default_gains default_limits 50%float empty_dict 0
           true true (fresh_world 0) 250%nat);
    [apply record_ok_empty|reflexivity].
Defined.

(** ** A missed state is a row of not-a-number *)

Lemma nth_error_app_map_seq {A : Type} (l0 : list A) (f : nat -> A) (n i : nat) :
  (i < n)%nat ->
  nth_error (l0 ++ map f (seq 0 n)) (length l0 + i) = Some (f i).
Proof.
  intros Hi. rewrite nth_error_app2 by lia.
  replace (length l0 + i - length l0)%nat with i by lia.
  rewrite nth_error_map, nth_error_seq.
  destruct (Nat.ltb_spec i n); [reflexivity|lia].
Qed.

Lemma run_step_test_lasts fuel env step_size step_hold_time step_count g lim
    vel_limit d0 start_time sample_rate is_real w0 sf :
  (forall k, 0 <= latency env k) ->
  run_step_test fuel env step_size step_hold_time step_count g lim vel_limit
    d0 start_time sample_rate is_real w0 = Some sf ->
  now w0 + (2 * INR (Z.to_nat step_count) + 1) * step_hold_time <= now (w sf).
Proof.
  intros Hlat H.
  destruct (run_step_test_inv _ _ _ _ _ _ _ _ _ _ _ _ _ _ H) as (s1 & E1 & E2).
  cbv zeta in *.
  apply step_phase_lasts in E1; [|apply Hlat].
  apply cycles_last in E2; [|exact Hlat].
  rewrite length_seq in E2. cbn [w rpc now] in E1.
  specialize (Hlat (calls w0)). lra.
Qed.

Lemma logged_run_step_test fuel env step_size step_hold_time step_count g lim
    vel_limit d0 start_time sample_rate is_real w0 sf :
  calls w0 = length (sent w0) ->
  length (time d0) = length (position d0) ->
  length (position d0) = length (velocity d0) ->
  run_step_test fuel env step_size step_hold_time step_count g lim vel_limit
    d0 start_time sample_rate is_real w0 = Some sf ->
  logged env (calls w0) (length (time d0)) sf.
Proof.
  intros Hc Hp Hv.
  apply (run_step_test_keeps (logged env (calls w0) (length (time d0)))).
  - intros cmd shown s. apply logged_block.
  - intros cmd s. apply logged_iter.
  - unfold logged. cbn [w d rpc calls sent]. rewrite length_app. cbn [length].
    repeat apply conj; try lia.
    intros k Hk Hs. apply nth_error_snoc_inv in Hs.
    destruct Hs as [Hs|[Hs _]]; [|lia].
    assert (k < length (sent w0))%nat by (apply nth_error_Some; congruence).
    lia.
Qed.

(** C8. A state query that the endpoint answers with no state still leaves
    its row: the time stamp is recorded and position and velocity are
    not-a-number at the same index.  In a sine run that queries, pass [i]
    makes call [calls + 2 i + 2] and owns row [i]; in a step run, call [k]
    after the configuring call owns row [k - 1].  Whatever the answers are,
    the sine run makes all its passes, the [int(duration / dt)] that
    binary64 gives, and the step run, given passes enough for its sampling
    loops, returns having lasted every hold. *)
Theorem missed_state_is_recorded_as_nan :
  (forall env amplitude freq duration g lim update_rate d0 start_time is_real
      w0 steps,
      sine_steps duration update_rate = Some steps ->
      exists sf,
        run_sine_test env amplitude freq duration g lim update_rate d0
          start_time is_real true w0 = Some sf
        /\ length (time (d sf)) = (length (time d0) + steps)%nat
        /\ length (position (d sf)) = (length (position d0) + steps)%nat
        /\ length (velocity (d sf)) = (length (velocity d0) + steps)%nat
        /\ forall i,
            (i < steps)%nat ->
            states env (calls w0 + 2 * i + 2) = None ->
            nth_error (position (d sf)) (length (position d0) + i) = Some PyNaN
            /\ nth_error (velocity (d sf)) (length (velocity d0) + i)
               = Some PyNaN
            /\ exists t,
                nth_error (time (d sf)) (length (time d0) + i) = Some t)
  /\ (forall fuel env step_size step_hold_time step_count g lim vel_limit d0
        start_time sample_rate is_real w0 sf,
         calls w0 = length (sent w0) ->
         length (time d0) = length (position d0) ->
         length (position d0) = length (velocity d0) ->
         run_step_test fuel env step_size step_hold_time step_count g lim
           vel_limit d0 start_time sample_rate is_real w0 = Some sf ->
         forall k,
           (calls w0 < k)%nat ->
           nth_error (sent (w sf)) k = Some GetState ->
           states env k = None ->
           let row := (length (time d0) + (k - S (calls w0)))%nat in
           nth_error (position (d sf)) row = Some PyNaN
           /\ nth_error (velocity (d sf)) row = Some PyNaN
           /\ exists t, nth_error (time (d sf)) row = Some t)
  /\ (forall env step_size step_hold_time step_count g lim vel_limit d0
        start_time sample_rate is_real w0,
         (forall k, 0 <= latency env k) ->
         0 < sample_rate ->
         exists fuel sf,
           (forall fuel',
               (fuel <= fuel')%nat ->
               run_step_test fuel' env step_size step_hold_time step_count g
                 lim vel_limit d0 start_time sample_rate is_real w0 = Some sf)
           /\ now w0 + (2 * INR (Z.to_nat step_count) + 1) * step_hold_time
              <= now (w sf)).
Proof.
  repeat apply conj.
  - intros env amplitude freq duration g lim update_rate d0 start_time is_real
      w0 steps Hr.
    eexists.
    split; [now apply (run_sine_test_eq _ _ _ _ _ _ _ _ _ _ _ _ steps)|].
    destruct (sine_loop_closed env amplitude freq (sine_dt update_rate)
                start_time true steps
                ({| w := rpc env (sine_configure is_real g lim) w0; d := d0 |},
                 now (rpc env (sine_configure is_real g lim) w0)))
      as (_ & _ & _ & _ & _ & _ & Ht & Hp & Hv).
    cbv zeta in Ht, Hp, Hv. cbn [fst w d rpc calls] in Ht, Hp, Hv.
    rewrite Ht, Hp, Hv.
    rewrite !length_app, !length_map, !length_seq.
    repeat apply conj; try reflexivity.
    intros i Hi Hmiss.
    rewrite !nth_error_app_map_seq by assumption.
    unfold sine_measured.
    replace (S (S (calls w0) + 2 * i)) with (calls w0 + 2 * i + 2)%nat by lia.
    rewrite Hmiss. repeat split. eexists. reflexivity.
  - intros fuel env step_size step_hold_time step_count g lim vel_limit d0
      start_time sample_rate is_real w0 sf Hc Hp Hv H k Hk Hs Hmiss row.
    destruct (logged_run_step_test _ _ _ _ _ _ _ _ _ _ _ _ _ _ Hc Hp Hv H)
      as (Lc & _ & Lt & _ & _ & Lq).
    destruct (Lq k Hk Hs) as [Qp Qv]. rewrite Hmiss in Qp, Qv.
    split; [exact Qp|]. split; [exact Qv|].
    assert (Hks : (k < length (sent (w sf)))%nat)
      by (apply nth_error_Some; congruence).
    destruct (nth_error (time (d sf)) row) as [t|] eqn:Et; [now exists t|].
    apply nth_error_None in Et. unfold row in Et. lia.
  - intros env step_size step_hold_time step_count g lim vel_limit d0
      start_time sample_rate is_real w0 Hlat Hr.
    destruct (enough_fuel step_hold_time (1 / sample_rate)) as [fuel Hf];
      [apply Rdiv_pos_pos; lra|].
    destruct (run_step_test_returns fuel env step_size step_hold_time
                step_count g lim vel_limit d0 start_time sample_rate is_real
                w0 Hlat Hr Hf) as [sf Hsf].
    exists fuel, sf. split.
    + intros fuel' Hle. now apply (run_step_test_mono fuel fuel').
    + now apply (run_step_test_lasts fuel env step_size step_hold_time
                   step_count g lim vel_limit d0 start_time sample_rate
                   is_real w0).
Qed.


Lemma missed_state_is_recorded_as_nan_witness :
  let env := {| latency := fun _ => 1 / 100; states := fun _ => None |} in
  exists sf,
    run_sine_test env 5 1 5 default_gains default_limits 50 empty_dict 0
      true true (fresh_world 0) = Some sf
    /\ nth_error (position (d sf)) 0 = Some PyNaN
    /\ nth_error (velocity (d sf)) 0 = Some PyNaN.
Proof.
  intros env.
  destruct (proj1 missed_state_is_recorded_as_nan env 5 1 5%float
              default_gains default_limits 50%float empty_dict 0 true
              (fresh_world 0) 250%nat)
    as (sf & Hsf & _ & _ & _ & Hrow); [reflexivity|].
  exists sf. split; [exact Hsf|].
  destruct (Hrow 0%nat) as (Hp & Hv & _).
  - lia.
  - reflexivity.
  - split; [exact Hp|exact Hv].
Defined.

(** ** The sine command *)

(** The value of a binary64 number given by its sign, mantissa and
    exponent. *)
Lemma B2R_finite (x : float) (s : bool) (m : positive) (e : Z) :
  Prim2SF x = S754_finite s m e ->
  B2R x = IZR (if s then Z.neg m else Z.pos m) * powerRZ 2 e.
Proof.
  intros H. unfold B2R. now rewrite H.
Qed.

Lemma sine_dt_1 : sine_dt 1 = 1.
Proof.
  unfold sine_dt.
  rewrite (B2R_finite (1 / 1) false 4503599627370496 (-52))
    by (vm_compute; reflexivity).
  change (powerRZ 2 (-52)) with (/ 2 ^ 52).
  replace (2 ^ 52) with (IZR (Z.pos 4503599627370496))
    by (rewrite (pow_IZR 2 52); apply f_equal; reflexivity).
  field.
Qed.

Lemma sine_vel_is_derivative (amplitude freq t : R) :
  derivable_pt_lim (sine_angle amplitude freq) t (sine_vel amplitude freq t).
Proof.
  unfold sine_vel.
  replace (amplitude * (2 * PI * freq) * cos (2 * PI * freq * t))
    with (amplitude * (cos (2 * PI * freq * t) * (2 * PI * freq * 1))) by ring.
  change (sine_angle amplitude freq)
    with (mult_real_fct amplitude
            (comp sin (mult_real_fct (2 * PI * freq) id))).
  apply derivable_pt_lim_scal.
  apply (derivable_pt_lim_comp (mult_real_fct (2 * PI * freq) id) sin).
  - apply derivable_pt_lim_scal. apply derivable_pt_lim_id.
  - apply derivable_pt_lim_sin.
Qed.

Lemma pow2_IZR (p : positive) : 2 ^ Pos.to_nat p = IZR (2 ^ Z.pos p).
Proof.
  rewrite (pow_IZR 2 (Pos.to_nat p)). now rewrite positive_nat_Z.
Qed.

(** Shifting a mantissa by its exponent truncates its value. *)
Lemma shiftl_bracket (m : positive) (e : Z) :
  IZR (Z.shiftl (Z.pos m) e) <= IZR (Z.pos m) * powerRZ 2 e
  < IZR (Z.shiftl (Z.pos m) e) + 1.
Proof.
  destruct e as [|p|p].
  - cbn [Z.shiftl powerRZ]. lra.
  - rewrite Z.shiftl_mul_pow2 by lia. cbn [powerRZ].
    rewrite pow2_IZR, <- mult_IZR. lra.
  - rewrite Z.shiftl_div_pow2 by lia. cbn [powerRZ Z.opp].
    rewrite pow2_IZR.
    assert (Hpos : (0 < 2 ^ Z.pos p)%Z) by (apply Z.pow_pos_nonneg; lia).
    pose proof (Z.div_mod (Z.pos m) (2 ^ Z.pos p) ltac:(lia)) as Hdm.
    pose proof (Z.mod_pos_bound (Z.pos m) (2 ^ Z.pos p) Hpos) as Hmod.
    set (q := (Z.pos m / 2 ^ Z.pos p)%Z) in *.
    set (r := (Z.pos m mod 2 ^ Z.pos p)%Z) in *.
    set (k := (2 ^ Z.pos p)%Z) in *.
    assert (Hk : 0 < IZR k) by (apply IZR_lt; lia).
    assert (Hm : IZR (Z.pos m) = IZR k * IZR q + IZR r)
      by (rewrite <- mult_IZR, <- plus_IZR; now f_equal).
    assert (Hr0 : 0 <= IZR r) by (apply IZR_le; lia).
    assert (Hr1 : IZR r < IZR k) by (apply IZR_lt; lia).
    rewrite Hm.
    replace ((IZR k * IZR q + IZR r) * / IZR k) with (IZR q + IZR r * / IZR k)
      by (field; lra).
    assert (0 <= IZR r * / IZR k).
    { apply Rmult_le_pos; [exact Hr0|]. left. now apply Rinv_0_lt_compat. }
    assert (IZR r * / IZR k < 1).
    { apply (Rmult_lt_reg_r (IZR k)); [exact Hk|].
      replace (IZR r * / IZR k * IZR k) with (IZR r) by (field; lra). lra. }
    lra.
Qed.

(** [int] truncates the value of a finite float towards zero. *)
Lemma py_int_trunc (q : float) (z : Z) :
  py_int q = Some z ->
  (0 <= B2R q -> IZR z <= B2R q < IZR z + 1)
  /\ (B2R q <= 0 -> IZR z - 1 < B2R q <= IZR z).
Proof.
  unfold py_int, B2R.
  destruct (Prim2SF q) as [s|s| |s m e]; try discriminate.
  - intros [= <-]. split; intros _; lra.
  - intros [= <-]. pose proof (shiftl_bracket m e) as H.
    assert (Hp : 0 < IZR (Z.pos m) * powerRZ 2 e).
    { apply Rmult_lt_0_compat; [apply IZR_lt; lia|].
      apply powerRZ_lt. lra. }
    destruct s.
    + change (Z.neg m) with (- Z.pos m)%Z. rewrite !opp_IZR.
      split; intros H0; lra.
    + split; intros H0; lra.
Qed.

(** The pass count and the binary64 quotient it is taken from. *)
Lemma sine_steps_trunc (duration update_rate : float) (steps : nat) :
  sine_steps duration update_rate = Some steps ->
  (0 <= B2R (duration / (1 / update_rate)) ->
   INR steps <= B2R (duration / (1 / update_rate)) < INR steps + 1)
  /\ (B2R (duration / (1 / update_rate)) <= 0 -> steps = 0%nat).
Proof.
  intros H. destruct (sine_steps_inv _ _ _ H) as (_ & _ & z & Hz & ->).
  destruct (py_int_trunc _ _ Hz) as [Hpos Hneg]. split.
  - intros H0. specialize (Hpos H0).
    assert (Hz0 : (-1 < z)%Z) by (apply lt_IZR; lra).
    rewrite INR_IZR_INZ, Z2Nat.id by lia. exact Hpos.
  - intros H0. specialize (Hneg H0).
    assert (Hz0 : (z < 1)%Z) by (apply lt_IZR; lra).
    destruct z; try reflexivity. lia.
Qed.

(** A run that makes a pass has a finite period. *)
Lemma sine_steps_dt_finite (duration update_rate : float) (n : nat) :
  sine_steps duration update_rate = Some (S n) ->
  Analyzer.SFfinite (Prim2SF (1 / update_rate)) = true.
Proof.
  intros H. destruct (sine_steps_inv _ _ _ H) as (_ & _ & z & Hz & Hn).
  unfold py_int in Hz. rewrite div_spec in Hz.
  destruct (Prim2SF (1 / update_rate)) as [s|s| |s m e]; try reflexivity;
    exfalso.
  - destruct (Prim2SF duration) as [sd|sd| |sd md ed]; cbn in Hz;
      try discriminate; injection Hz as <-; discriminate.
  - destruct (Prim2SF duration) as [sd|sd| |sd md ed]; cbn in Hz;
      discriminate.
Qed.

(** The claim C3 fails twice.  The pass count is taken in binary64 from
    [duration / dt] with [dt = 1.0 / update_rate]: a run of 1.0 s at 93 Hz
    makes 92 passes, where 1.0 * 93.0 is 93.0.  And the trajectory is not
    evaluated at the recorded time stamp: on an endpoint whose calls take a
    quarter of a second, the first command of a 1 Hz sine of amplitude 1 is
    stamped 0.25 s (the configuring call came first); the commanded
    velocity is 2 pi, the derivative of the position command at time 0,
    and the derivative at 0.25 s is 0. *)
Lemma sine_velocity_not_at_recorded_time :
  (let env := {| latency := fun _ => 1 / 4; states := fun _ => None |} in
   exists sf,
     run_sine_test env 1 1 1 default_gains default_limits 1 empty_dict 0
       true true (fresh_world 0) = Some sf
     /\ cmd_time (d sf) = [1 / 4]
     /\ cmd_vel (d sf) = [PyNum (2 * PI)]
     /\ sine_vel 1 1 0 = 2 * PI
     /\ sine_vel 1 1 (1 / 4) = 0
     /\ 0 < 2 * PI)
  /\ (sine_steps 1 93 = Some 92%nat
      /\ py_int (1 * 93)%float = Some 93%Z).
Proof.
  split; [|split; reflexivity].
  intros env. eexists.
  split; [apply (run_sine_test_eq _ _ _ _ _ _ _ _ _ _ _ _ 1%nat); reflexivity|].
  rewrite sine_dt_1.
  assert (Hv0 : sine_vel 1 1 0 = 2 * PI)
    by (unfold sine_vel; rewrite Rmult_0_r, cos_0; ring).
  assert (Hv4 : sine_vel 1 1 (1 / 4) = 0).
  { unfold sine_vel. replace (2 * PI * 1 * (1 / 4)) with (PI / 2) by field.
    rewrite cos_PI2. ring. }
  destruct (sine_loop_closed env 1 1 1 0 true 1
              ({| w := rpc env (sine_configure true default_gains default_limits)
                         (fresh_world 0);
                  d := empty_dict |},
               now (rpc env (sine_configure true default_gains default_limits)
                      (fresh_world 0))))
    as (_ & _ & _ & Hct & _ & Hcv & _).
  cbv zeta in Hct, Hcv. rewrite Hct, Hcv.
  cbn [fst w d rpc now fresh_world empty_dict cmd_time cmd_vel seq map app
       sine_loop fold_left latency env calls INR].
  repeat apply conj.
  - f_equal. lra.
  - rewrite Rmult_0_l, Hv0. reflexivity.
  - exact Hv0.
  - exact Hv4.
  - pose proof PI_RGT_0. lra.
Qed.


(** C3, as the code has it.  The sine driver makes [int(duration / dt)]
    passes with [dt = 1.0 / update_rate], both computed in binary64: the
    truncation of the binary64 quotient, none when it is negative, and an
    exception when a divisor is zero or the quotient is not finite.  Pass
    [i] records and sends the position amplitude * sin(2 pi freq t) and the
    velocity amplitude * 2 pi freq * cos(2 pi freq t) at the nominal time
    t = i * dt, and that velocity is the derivative of the position command
    at t.  The time stamp it records with them is the clock when the pass
    starts, taken from the shared origin, not t. *)
Theorem sine_command_on_nominal_grid :
  (forall env amplitude freq duration g lim update_rate d0 start_time is_real
      request_state w0 steps,
      sine_steps duration update_rate = Some steps ->
      let dt := sine_dt update_rate in
      let t := fun i : nat => INR i * dt in
      let position_cmd := fun i => amplitude * sin (2 * PI * freq * t i) in
      let velocity_cmd :=
        fun i => amplitude * (2 * PI * freq) * cos (2 * PI * freq * t i) in
      let s0 :=
        {| w := rpc env (sine_configure is_real g lim) w0; d := d0 |} in
      exists sf,
        run_sine_test env amplitude freq duration g lim update_rate d0
          start_time is_real request_state w0 = Some sf
        /\ cmd_pos (d sf)
           = cmd_pos d0 ++ map (fun i => PyNum (position_cmd i)) (seq 0 steps)
        /\ cmd_vel (d sf)
           = cmd_vel d0 ++ map (fun i => PyNum (velocity_cmd i)) (seq 0 steps)
        /\ sent (w sf)
           = sent w0
             ++ sine_configure is_real g lim
                :: flat_map
                     (fun i =>
                        Command (position_cmd i) (Some (velocity_cmd i))
                        :: (if request_state then [GetState] else []))
                     (seq 0 steps)
        /\ cmd_time (d sf)
           = cmd_time d0
             ++ map
                  (fun i =>
                     now (w (fst (sine_loop env amplitude freq dt start_time
                                    request_state i (s0, now (w s0)))))
                     - start_time)
                  (seq 0 steps))
  /\ (forall amplitude freq t,
         derivable_pt_lim (fun x => amplitude * sin (2 * PI * freq * x)) t
           (amplitude * (2 * PI * freq) * cos (2 * PI * freq * t)))
  /\ (forall duration update_rate steps,
         sine_steps duration update_rate = Some steps ->
         let quotient := (duration / (1 / update_rate))%float in
         py_div 1 update_rate = Some (1 / update_rate)%float
         /\ py_div duration (1 / update_rate) = Some quotient
         /\ (exists z, py_int quotient = Some z /\ steps = Z.to_nat z)
         /\ (0 <= B2R quotient -> INR steps <= B2R quotient < INR steps + 1)
         /\ (B2R quotient <= 0 -> steps = 0%nat)
         /\ ((1 <= steps)%nat ->
             Analyzer.SFfinite (Prim2SF (1 / update_rate)) = true)).
Proof.
  split; [|split; [exact sine_vel_is_derivative|]].
  - intros env amplitude freq duration g lim update_rate d0 start_time is_real
      request_state w0 steps Hr dt t position_cmd velocity_cmd s0.
    eexists.
    split; [now apply (run_sine_test_eq _ _ _ _ _ _ _ _ _ _ _ _ steps)|].
    fold dt s0.
    destruct (sine_loop_closed env amplitude freq dt start_time
                request_state steps
                (s0, now (rpc env (sine_configure is_real g lim) w0)))
      as (_ & _ & Hs & Hct & Hcp & Hcv & _).
    cbv zeta in Hs, Hct, Hcp, Hcv. cbn [fst] in Hs, Hct, Hcp, Hcv.
    rewrite Hs, Hct, Hcp, Hcv. repeat apply conj; try reflexivity.
    unfold s0. cbn [w d rpc sent]. rewrite <- app_assoc. reflexivity.
  - intros duration update_rate steps Hr quotient.
    destruct (sine_steps_inv _ _ _ Hr) as (E1 & E2 & Ez).
    destruct (sine_steps_trunc _ _ _ Hr) as [Hpos Hneg].
    repeat apply conj; try assumption.
    intros Hn. destruct steps as [|n]; [lia|].
    exact (sine_steps_dt_finite _ _ _ Hr).
Qed.

Lemma sine_command_on_nominal_grid_witness :
  let env := {| latency := fun _ => 1 / 100; states := fun _ => None |} in
  exists sf,
    run_sine_test env 5 1 5 default_gains default_limits 50 empty_dict 0
      true true (fresh_world 0) = Some sf
    /\ length (cmd_pos (d sf)) = 250%nat
    /\ length (cmd_vel (d sf)) = 250%nat.
Proof.
  intros env.
  destruct (proj1 sine_command_on_nominal_grid env 5 1 5%float default_gains
              default_limits 50%float empty_dict 0 true true (fresh_world 0)
              250%nat)
    as (sf & Hsf & Hcp & Hcv & _); [reflexivity|].
  exists sf. split; [exact Hsf|].
  rewrite Hcp, Hcv. cbn [empty_dict cmd_pos cmd_vel app].
  rewrite !length_map, !length_seq. split; reflexivity.
Defined.


(** ** Deadlines in the sine loop, sleeps in the sampling loops *)

Lemma hold_iter_eq env start_time sample_period vel_limit cmd (s : run) :
  0 < sample_period ->
  hold_iter env start_time sample_period vel_limit cmd s
  = let t_resp := now (w s) + latency env (calls (w s)) - start_time in
    {| w := {| now := now (w s) + latency env (calls (w s)) + sample_period;
               calls := S (calls (w s));
               sent := sent (w s) ++ [GetState] |};
       d := log_command t_resp (PyNum cmd) (PyNum vel_limit)
              (log_measure t_resp (fst (measured (states env (calls (w s)))))
                 (snd (measured (states env (calls (w s))))) (d s)) |}.
Proof.
  intros Hp. unfold hold_iter, get_actuators_state, asyncio_sleep, rpc.
  destruct (measured (states env (calls (w s)))) as [measured_pos measured_vel].
  destruct (Rlt_dec 0 sample_period); [reflexivity|contradiction].
Qed.

(** C2, as the code has it.  The sine loop sleeps until absolute deadlines
    advanced by [dt]: a pass never ends before its deadline; when the calls
    of every pass take at most [dt], every pass starts exactly on its
    deadline, so [n] passes take [n * dt] and the commands are stamped [dt]
    apart; when the calls of every pass take [dt] or more, the loop never
    sleeps and takes the time of its calls.  A sampling loop of the step
    driver sleeps one sample period after each sample instead: two samples
    in a row are a sample period plus the latency of the second query
    apart. *)
Theorem sine_keeps_deadlines_step_sleeps :
  (forall env amplitude freq dt start_time request_state s0 n,
      let T := now (w s0) in
      let after :=
        fun m =>
          fst (sine_loop env amplitude freq dt start_time request_state m
                 (s0, T)) in
      T + INR n * dt <= now (w (after n))
      /\ ((forall i, (i < n)%nat ->
                     sine_io env request_state (calls (w s0)) i <= dt) ->
          now (w (after n)) = T + INR n * dt
          /\ cmd_time (d (after n))
             = cmd_time (d s0)
               ++ map (fun i => T + INR i * dt - start_time) (seq 0 n))
      /\ ((forall i, (i < n)%nat ->
                     dt <= sine_io env request_state (calls (w s0)) i) ->
          now (w (after n))
          = T + fold_right Rplus 0
                  (map (sine_io env request_state (calls (w s0))) (seq 0 n))))
  /\ (forall env start_time sample_period vel_limit cmd s,
         0 < sample_period ->
         let s1 := hold_iter env start_time sample_period vel_limit cmd s in
         let s2 := hold_iter env start_time sample_period vel_limit cmd s1 in
         exists t1 t2,
           time (d s2) = time (d s) ++ [t1; t2]
           /\ t2 - t1 = sample_period + latency env (calls (w s1))).
Proof.
  split.
  - intros env amplitude freq dt start_time request_state s0 n T after.
    repeat apply conj.
    + apply (sine_never_early env amplitude freq dt start_time request_state n
               (s0, T)). simpl. unfold T. lra.
    + intros Hio.
      split.
      * apply (sine_on_schedule env amplitude freq dt start_time request_state
                 n (s0, T)); [reflexivity|exact Hio].
      * destruct (sine_loop_closed env amplitude freq dt start_time
                    request_state n (s0, T)) as (_ & _ & _ & Hct & _).
        cbv zeta in Hct. cbn [fst] in Hct. unfold after. rewrite Hct.
        f_equal. apply map_ext_in. intros i Hi. apply in_seq in Hi.
        rewrite (sine_on_schedule env amplitude freq dt start_time
                   request_state i (s0, T)); [reflexivity|reflexivity|].
        intros j Hj. apply Hio. lia.
    + intros Hio.
      apply (sine_behind env amplitude freq dt start_time request_state n
               (s0, T)); [reflexivity|exact Hio].
  - intros env start_time sample_period vel_limit cmd s Hp s1 s2.
    destruct (hold_iter_clock env start_time sample_period vel_limit cmd s Hp)
      as (Hn1 & _ & Ht1).
    destruct (hold_iter_clock env start_time sample_period vel_limit cmd s1 Hp)
      as (_ & _ & Ht2).
    fold s1 in Hn1, Ht1. fold s2 in Ht2.
    exists (now (w s) + latency env (calls (w s)) - start_time),
      (now (w s1) + latency env (calls (w s1)) - start_time).
    split.
    + rewrite Ht2, Ht1, <- app_assoc. reflexivity.
    + lra.
Qed.


Lemma sine_keeps_deadlines_step_sleeps_witness :
  let env := {| latency := fun _ => 1 / 200; states := fun _ => None |} in
  let s0 := {| w := fresh_world 0; d := empty_dict |} in
  now (w (fst (sine_loop env 5 1 (1 / 50) 0 true 250 (s0, 0))))
  = 0 + INR 250 * (1 / 50).
Proof.
  intros env s0.
  refine (proj1 (proj1 (proj2 (proj1 sine_keeps_deadlines_step_sleeps
                                 env 5 1 (1 / 50) 0 true s0 250%nat)) _)).
  intros i Hi. unfold sine_io. simpl. lra.
Defined.

Lemma hold_upto_run env start_time sample_period vel_limit k end_hold cmd s :
  now (w s) < end_hold ->
  hold_upto env start_time sample_period vel_limit (S k) end_hold cmd s
  = hold_upto env start_time sample_period vel_limit k end_hold cmd
      (hold_iter env start_time sample_period vel_limit cmd s).
Proof.
  intros H. simpl. destruct (Rlt_dec (now (w s)) end_hold);
    [reflexivity|contradiction].
Qed.

Lemma hold_upto_stop env start_time sample_period vel_limit k end_hold cmd s :
  ~ now (w s) < end_hold ->
  hold_upto env start_time sample_period vel_limit k end_hold cmd s = s.
Proof.
  intros H. destruct k; simpl; [reflexivity|].
  destruct (Rlt_dec (now (w s)) end_hold); [contradiction|reflexivity].
Qed.

Ltac list_eq := repeat (apply (f_equal2 cons); [lra|]); reflexivity.

(** The claim C2 fails.  On an endpoint whose calls take 1 s, a sine run
    configured for 2 s at 1 Hz stamps its two commands 2 s apart and its
    loop, entered at 1 s, ends at 5 s: 4 s for 2 configured periods.  On an
    endpoint whose calls take 0.25 s, a hold of 1 s sampled at a configured
    4 Hz takes its two samples 0.5 s apart. *)
Lemma drift_under_latency :
  (let env := {| latency := fun _ => 1; states := fun _ => None |} in
   exists sf,
     run_sine_test env 1 1 2 default_gains default_limits 1 empty_dict 0
       true true (fresh_world 0) = Some sf
     /\ cmd_time (d sf) = [1; 3]
     /\ now (w sf) = 5)
  /\ (let env := {| latency := fun _ => 1 / 4; states := fun _ => None |} in
      exists sf,
        run_step_test 4 env 10 1 0 default_gains default_limits 400 empty_dict
          (Some 0) 4 true (fresh_world 0) = Some sf
        /\ time (d sf) = [1 / 4; 3 / 4; 5 / 4]
        /\ position (d sf) = [PyNum 0; PyNaN; PyNaN]).
Proof.
  split.
  - intros env. eexists.
    split;
      [apply (run_sine_test_eq _ _ _ _ _ _ _ _ _ _ _ _ 2%nat); reflexivity|].
    rewrite sine_dt_1.
    set (sn := ({| w := rpc env (sine_configure true default_gains
                                   default_limits) (fresh_world 0);
                   d := empty_dict |},
                now (rpc env (sine_configure true default_gains
                                default_limits) (fresh_world 0)))).
    assert (Hio : forall i, 1 <= sine_io env true (calls (w (fst sn))) i)
      by (intros i; unfold sine_io; simpl; lra).
    assert (Hnow : forall n,
               now (w (fst (sine_loop env 1 1 1 0 true n sn)))
               = snd sn + io_total env true (calls (w (fst sn))) n).
    { intros n. apply sine_behind; [reflexivity|]. intros i _. apply Hio. }
    destruct (sine_loop_closed env 1 1 1 0 true 2 sn)
      as (_ & _ & _ & Hct & _).
    cbv zeta in Hct. rewrite Hct. cbn [seq map]. rewrite !Hnow.
    unfold io_total, sine_io. simpl. split; [list_eq|lra].
  - intros env. eexists. split.
    + rewrite run_step_test_eq by lra. cbv zeta.
      unfold step_phase, hold_loop, step_block, rpc.
      cbn [w d now calls sent latency env fresh_world seq Z.to_nat].
      rewrite hold_upto_run by (simpl; lra).
      rewrite hold_iter_eq by lra. cbv zeta. cbn [w d now calls sent latency env].
      rewrite hold_upto_run by (simpl; lra).
      rewrite hold_iter_eq by lra. cbv zeta. cbn [w d now calls sent latency env].
      rewrite hold_upto_stop by (simpl; lra).
      cbn [w d now].
      destruct (Rlt_dec _ _) as [H|H]; [exfalso; lra|].
      simpl. reflexivity.
    + simpl. split; [list_eq|reflexivity].
Qed.


Lemma gain_selection_by_mode_witness :
  let env := {| latency := fun _ => 1 / 100; states := fun _ => None |} in
  exists sf,
    run_step_test 200 env 10 3 2 default_gains default_limits 400 empty_dict
      (Some 0) 50 false (fresh_world 0) = Some sf
    /\ nth_error (sent (w sf)) 0
       = Some (Configure 24 (3 / 4) (Some (1 / 100)) (Some 2000) 100 true).
Proof.
  intros env.
  destruct (run_step_test_returns 200 env 10 3 2 default_gains default_limits
              400 empty_dict (Some 0) 50 false (fresh_world 0)) as [sf Hsf].
  - intros k. simpl. lra.
  - lra.
  - rewrite INR_IZR_INZ. simpl. lra.
  - exists sf. split; [exact Hsf|].
    exact (proj2 (proj2 gain_selection_by_mode) _ _ _ _ _ _ _ _ _ _ _ _ _ _
             Hsf).
Defined.

End DriverFacts.

(** * More about the analyzer *)

Module AnalyzerMore.

Import Analyzer FloatFacts AnalyzerFacts.
Local Open Scope float_scope.
Local Open Scope pyerr_scope.

(** ** Exceptions *)

(** X1. On arrays where every time stamp has a position
    ([len(time_array) <= len(pos_array)]) the function raises nothing; it
    returns at most one entry per transition, and exactly one per transition
    when every window holds a sample. *)
Theorem no_exception_on_aligned_arrays :
  forall time_array pos_array steps window_duration,
    (length time_array <= length pos_array)%nat ->
    exists out,
      compute_step_overshoots time_array pos_array steps window_duration
      = Some out
      /\ (length out <= length steps - 1)%nat
      /\ ((forall i,
              (1 <= i < length steps)%nat ->
              transition_window time_array pos_array steps window_duration i
              <> []) ->
          length out = (length steps - 1)%nat).
Proof.
  intros time_array pos_array steps window_duration Hlen.
  eexists. split; [now apply compute_step_overshoots_spec|].
  rewrite result_length. unfold emitted_before.
  split.
  - pose proof (filter_length_le
                  (fun j => nonempty
                              (transition_window time_array pos_array steps
                                 window_duration j))
                  (seq 1 (length steps - 1))) as H.
    now rewrite length_seq in H.
  - intros Hall. rewrite filter_all; [apply length_seq|].
    intros i Hi. apply in_seq in Hi.
    specialize (Hall i ltac:(lia)).
    now destruct
          (transition_window time_array pos_array steps window_duration i).
Qed.

Lemma no_exception_on_aligned_arrays_witness :
  exists out,
    compute_step_overshoots [3; 3.5; 6; 6.5] [0; 11; 10; -1]
      (steps_list None 10 3 1) 1 = Some out
    /\ (length out <= 2)%nat.
Proof.
  destruct (no_exception_on_aligned_arrays [3; 3.5; 6; 6.5] [0; 11; 10; -1]
              (steps_list None 10 3 1) 1) as (out & Hout & Hle & _).
  - simpl. lia.
  - exists out. split; [exact Hout|exact Hle].
Defined.

Lemma where_from_in (k j : nat) (mask : list bool) :
  nth_error mask j = Some true -> In (k + j)%nat (where_from k mask).
Proof.
  revert k j. induction mask as [|b mask IH]; intros k [|j] H; simpl in *;
    try discriminate.
  - injection H as ->. left. lia.
  - apply in_or_app. right. replace (k + S j)%nat with (S k + j)%nat by lia.
    now apply IH.
Qed.

Lemma np_take_out_of_range (a : list float) (idx : list nat) (j : nat) :
  In j idx -> nth_error a j = None -> np_take a idx = None.
Proof.
  induction idx as [|i idx IH]; intros Hin Hj; [contradiction|].
  simpl. destruct Hin as [->|Hin].
  - now rewrite Hj.
  - destruct (nth_error a i); [|reflexivity]. simpl.
    now rewrite (IH Hin Hj).
Qed.

Lemma overshoot_iter_raises time_array pos_array steps window_duration
    overshoots i j t :
  (1 <= i < length steps)%nat ->
  nth_error time_array j = Some t ->
  in_window (command_time steps i)
    (command_time steps i + window_duration) t = true ->
  (length pos_array <= j)%nat ->
  overshoot_iter time_array pos_array steps window_duration overshoots i = None.
Proof.
  intros Hi Ht Hw Hj. unfold overshoot_iter.
  destruct (nth_error steps (i - 1)) as [s_old|] eqn:Eo;
    [|apply nth_error_None in Eo; lia].
  destruct (nth_error steps i) as [s_new|] eqn:En;
    [|apply nth_error_None in En; lia].
  rewrite step_times_nth by lia. simpl.
  set (mask := map (in_window (command_time steps i)
                      (command_time steps i + window_duration)) time_array).
  assert (Hin : In j (np_where mask)).
  { apply (where_from_in 0 j mask). unfold mask.
    now rewrite nth_error_map, Ht; simpl; rewrite Hw. }
  destruct (np_where mask) as [|i0 idx] eqn:Eidx; [contradiction|].
  simpl. rewrite <- Eidx in Hin.
  assert (Htake : np_take pos_array (i0 :: idx) = None).
  { rewrite <- Eidx. apply (np_take_out_of_range _ _ j); [exact Hin|].
    now apply nth_error_None. }
  simpl in Htake. now rewrite Htake.
Qed.

Lemma overshoot_fold_none time_array pos_array steps window_duration l :
  fold_left
    (fun acc i =>
       overshoots <- acc ;;
       overshoot_iter time_array pos_array steps window_duration overshoots i)
    l None = None.
Proof. induction l as [|i l IH]; simpl; auto. Qed.

(** X2. A sample inside the window of a transition whose index has no
    position ([len(pos_array)] is at most that index) makes the whole call
    raise: no list is returned. *)
Theorem index_error_on_short_positions :
  forall time_array pos_array steps window_duration i j t,
    (1 <= i < length steps)%nat ->
    nth_error time_array j = Some t ->
    in_window (command_time steps i)
      (command_time steps i + window_duration) t = true ->
    (length pos_array <= j)%nat ->
    compute_step_overshoots time_array pos_array steps window_duration = None.
Proof.
  intros time_array pos_array steps window_duration i j t Hi Ht Hw Hj.
  unfold compute_step_overshoots, transitions.
  assert (Hin : In i (seq 1 (length steps - 1))) by (apply in_seq; lia).
  generalize (@Some (list float) []) as acc.
  induction (seq 1 (length steps - 1)) as [|k l IH]; [contradiction|].
  intros acc. simpl. destruct Hin as [->|Hin].
  - destruct acc as [overshoots|]; simpl.
    + rewrite (overshoot_iter_raises _ _ _ _ _ _ _ _ Hi Ht Hw Hj).
      apply overshoot_fold_none.
    + apply overshoot_fold_none.
  - now apply IH.
Qed.

Lemma index_error_on_short_positions_witness :
  compute_step_overshoots [3; 3.5] [0] (steps_list None 10 3 1) 1 = None.
Proof.
  apply (index_error_on_short_positions [3; 3.5] [0] (steps_list None 10 3 1)
           1 1%nat 1%nat 3.5); try reflexivity; simpl; lia.
Defined.

(** ** Nothing to measure *)

Lemma flat_map_nil {A B : Type} (f : A -> list B) (l : list A) :
  (forall x, In x l -> f x = []) -> flat_map f l = [].
Proof.
  induction l as [|x l IH]; intros H; simpl; [reflexivity|].
  rewrite (H x) by now left. apply IH. intros y Hy. apply H. now right.
Qed.

(** X3. With no recorded sample, whatever the positions and the schedule,
    the function returns the empty list; so it does for a schedule of fewer
    than two phases, whatever the samples; and the figure [main] shows for
    an empty record is 0.0. *)
Theorem nothing_to_measure :
  (forall pos_array steps window_duration,
      compute_step_overshoots [] pos_array steps window_duration = Some [])
  /\ (forall time_array pos_array steps window_duration,
         (length steps <= 1)%nat ->
         compute_step_overshoots time_array pos_array steps window_duration
         = Some [])
  /\ (forall vel_limit step_size step_hold_time step_count pos_array,
         Harness.main_max_overshoot vel_limit step_size step_hold_time
           step_count [] pos_array = Some 0).
Proof.
  assert (Hempty : forall pos_array steps window_duration,
             compute_step_overshoots [] pos_array steps window_duration
             = Some []).
  { intros pos_array steps window_duration.
    rewrite compute_step_overshoots_spec by (simpl; lia).
    f_equal. apply flat_map_nil. intros i _. unfold transition_entry.
    destruct (nth_error steps (i - 1)); [|reflexivity].
    destruct (nth_error steps i); reflexivity. }
  split; [exact Hempty|]. split.
  - intros time_array pos_array steps window_duration Hs.
    unfold compute_step_overshoots, transitions.
    replace (length steps - 1)%nat with 0%nat by lia. reflexivity.
  - intros vel_limit step_size step_hold_time step_count pos_array.
    unfold Harness.main_max_overshoot. now rewrite Hempty.
Qed.

Lemma nothing_to_measure_witness :
  compute_step_overshoots [3; 3.5] [0; 11] [(0, 200, 3)] 1 = Some [].
Proof.
  apply (proj1 (proj2 nothing_to_measure)). simpl. lia.
Defined.

(** ** The velocity column of the schedule *)

Lemma cumul_durations (l l' : list step) (acc : float) :
  map duration l = map duration l' -> cumul acc l = cumul acc l'.
Proof.
  revert l' acc. induction l as [|s l IH]; intros [|s' l'] acc H;
    simpl in *; try discriminate; [reflexivity|].
  injection H as Hd Hl. rewrite Hd. f_equal. now apply IH.
Qed.

Lemma nth_target (steps steps' : list step) (k : nat) :
  map target steps = map target steps' ->
  option_map target (nth_error steps k) = option_map target (nth_error steps' k).
Proof.
  intros H. rewrite <- !nth_error_map. now rewrite H.
Qed.

(** X4. The result depends on the schedule through its targets and its
    durations only: two schedules that differ in the velocity of their
    phases give the same result, exception included. *)
Theorem velocity_column_is_ignored :
  forall time_array pos_array steps steps' window_duration,
    map target steps = map target steps' ->
    map duration steps = map duration steps' ->
    compute_step_overshoots time_array pos_array steps window_duration
    = compute_step_overshoots time_array pos_array steps' window_duration.
Proof.
  intros time_array pos_array steps steps' window_duration Ht Hd.
  unfold compute_step_overshoots, transitions.
  assert (Hlen : length steps = length steps')
    by (rewrite <- (length_map target steps), Ht; apply length_map).
  rewrite Hlen.
  assert (Hiter : forall overshoots i,
             overshoot_iter time_array pos_array steps window_duration
               overshoots i
             = overshoot_iter time_array pos_array steps' window_duration
                 overshoots i).
  { intros overshoots i. unfold overshoot_iter.
    rewrite !step_times_cumul, (cumul_durations steps steps' 0 Hd).
    pose proof (nth_target steps steps' (i - 1) Ht) as Ho.
    pose proof (nth_target steps steps' i Ht) as Hn.
    destruct (nth_error steps (i - 1)) as [s_old|],
      (nth_error steps' (i - 1)) as [s_old'|]; try discriminate;
      [|reflexivity].
    destruct (nth_error steps i) as [s_new|],
      (nth_error steps' i) as [s_new'|]; try discriminate; [|reflexivity].
    simpl in Ho, Hn. injection Ho as Ho. injection Hn as Hn. simpl.
    now rewrite Ho, Hn. }
  generalize (@Some (list float) []) as acc.
  induction (seq 1 (length steps' - 1)) as [|i l IH]; intros acc;
    [reflexivity|].
  simpl. rewrite <- IH. f_equal.
  destruct acc as [overshoots|]; [simpl; apply Hiter|reflexivity].
Qed.

Lemma velocity_column_is_ignored_witness :
  compute_step_overshoots [3; 3.5] [0; 11] [(0, 200, 3); (10, 200, 3)] 1
  = compute_step_overshoots [3; 3.5] [0; 11] [(0, 400, 3); (10, 400, 3)] 1.
Proof.
  apply velocity_column_is_ignored; reflexivity.
Defined.

(** ** The figure shown in the title *)

Lemma SFltb_false_leb (x y : spec_float) :
  x <> S754_nan -> y <> S754_nan -> SFltb x y = false -> SFleb y x = true.
Proof.
  unfold SFltb, SFleb, SFcompare.
  destruct x as [sx|sx| |sx mx ex], y as [sy|sy| |sy my ey];
    try congruence; intros _ _;
    try (destruct sx; discriminate || reflexivity);
    try (destruct sy; discriminate || reflexivity);
    try (destruct sx, sy; discriminate || reflexivity).
  change (Pos.compare_cont Eq) with Pos.compare.
  destruct sx, sy; try discriminate; try reflexivity;
    intros H; cmp_cases; simpl in *; try discriminate; try reflexivity;
    try lia.
Qed.

Lemma SFltb_leb (x y : spec_float) : SFltb x y = true -> SFleb x y = true.
Proof.
  unfold SFltb, SFleb. now destruct (SFcompare x y) as [[]|].
Qed.

Lemma ltb_false_leb (x y : float) :
  is_nan x = false -> is_nan y = false -> (x <? y) = false -> (y <=? x) = true.
Proof.
  intros Hx Hy. apply is_nan_false in Hx, Hy. rewrite ltb_spec, leb_spec.
  now apply SFltb_false_leb.
Qed.

Lemma ltb_leb (x y : float) : (x <? y) = true -> (x <=? y) = true.
Proof.
  rewrite ltb_spec, leb_spec. apply SFltb_leb.
Qed.

(** Python's [max] over a list without not-a-number returns a member that
    bounds the list. *)
Lemma fold_py_max_max (xs : list float) (x : float) :
  Forall (fun p => is_nan p = false) (x :: xs) ->
  In (fold_left py_max xs x) (x :: xs)
  /\ Forall (fun p => (p <=? fold_left py_max xs x) = true) (x :: xs).
Proof.
  revert x. induction xs as [|y ys IH]; intros x H.
  - inversion H as [|? ? Hx _]; subst. simpl. split; [now left|].
    constructor; [now apply leb_refl|constructor].
  - inversion H as [|? ? Hx Hrest]; subst.
    inversion Hrest as [|? ? Hy Hys]; subst.
    cbn [fold_left]. unfold py_max at 2 4. destruct (x <? y) eqn:E.
    + destruct (IH y Hrest) as [Hin Hall]. split; [now right|].
      constructor; [|exact Hall].
      inversion Hall as [|? ? Hy' _]; subst.
      exact (leb_trans _ _ _ (ltb_leb _ _ E) Hy').
    + assert (Hx' : Forall (fun p => is_nan p = false) (x :: ys))
        by now constructor.
      destruct (IH x Hx') as [Hin Hall]. split.
      * destruct Hin as [<-|Hin]; [now left|now right; right].
      * inversion Hall as [|? ? Hxm Hysm]; subst.
        constructor; [exact Hxm|]. constructor; [|exact Hysm].
        exact (leb_trans _ _ _ (ltb_false_leb _ _ Hx Hy E) Hxm).
Qed.

(** A pass of the loop leaves the accumulated list as it is or appends one
    clamped value to it. *)
Lemma overshoot_iter_appends time_array pos_array steps window_duration
    overshoots i out :
  overshoot_iter time_array pos_array steps window_duration overshoots i
  = Some out ->
  out = overshoots \/ exists v, out = overshoots ++ [py_max 0 v].
Proof.
  unfold overshoot_iter.
  destruct (nth_error steps (i - 1)) as [s_old|]; [|discriminate].
  destruct (nth_error steps i) as [s_new|]; [|discriminate].
  destruct (nth_error (step_times steps) i) as [c|]; [|discriminate].
  cbn [bind].
  destruct (Nat.eqb _ 0); [intros H; injection H as <-; now left|].
  destruct (np_take pos_array _) as [p_window|]; [|discriminate].
  cbn [bind].
  destruct (target s_old <? target s_new).
  - destruct (np_max p_window) as [peak|]; [|discriminate]. cbn [bind].
    intros H. injection H as <-. right. now eexists.
  - destruct (np_min p_window) as [trough|]; [|discriminate]. cbn [bind].
    intros H. injection H as <-. right. now eexists.
Qed.

Lemma overshoot_fold_nonneg time_array pos_array steps window_duration l acc out :
  Forall (fun r => (r <? 0) = false /\ is_nan r = false) acc ->
  fold_left
    (fun acc i =>
       overshoots <- acc ;;
       overshoot_iter time_array pos_array steps window_duration overshoots i)
    l (Some acc) = Some out ->
  Forall (fun r => (r <? 0) = false /\ is_nan r = false) out.
Proof.
  revert acc. induction l as [|i l IH]; intros acc Hacc; cbn [fold_left bind].
  - intros H. now injection H as <-.
  - destruct (overshoot_iter time_array pos_array steps window_duration acc i)
      as [acc'|] eqn:E.
    + apply IH. destruct (overshoot_iter_appends _ _ _ _ _ _ _ E) as [->|[v ->]];
        [exact Hacc|].
      apply Forall_app. split; [exact Hacc|].
      constructor; [apply py_max_0_nonneg|constructor].
    + now rewrite overshoot_fold_none.
Qed.

Lemma result_is_nonneg time_array pos_array steps window_duration out :
  compute_step_overshoots time_array pos_array steps window_duration = Some out ->
  Forall (fun r => (r <? 0) = false /\ is_nan r = false) out.
Proof.
  apply overshoot_fold_nonneg. constructor.
Qed.

Lemma max_overshoot_spec (out : list float) :
  Forall (fun r => (r <? 0) = false /\ is_nan r = false) out ->
  (max_overshoot out <? 0) = false
  /\ is_nan (max_overshoot out) = false
  /\ Forall (fun v => (v <=? max_overshoot out) = true) out
  /\ match out with
     | [] => max_overshoot out = 0
     | _ :: _ => In (max_overshoot out) out
     end.
Proof.
  intros Hout. destruct out as [|x xs].
  - simpl. repeat apply conj; try reflexivity. constructor.
  - assert (Hnn : Forall (fun p => is_nan p = false) (x :: xs)).
    { eapply Forall_impl; [|exact Hout]. now intros a [_ Ha]. }
    destruct (fold_py_max_max xs x Hnn) as [Hin Hall].
    cbn [max_overshoot].
    pose proof (proj1 (Forall_forall _ _) Hout _ Hin) as [Hm0 Hmn].
    repeat apply conj; assumption.
Qed.

(** X5. Whenever the function returns, and whatever the arrays were, no
    entry of the list is negative or not-a-number, and the figure [main]
    derives from it ([max] of the list, 0.0 for an empty list) is an entry of
    the list that no entry exceeds; so it is neither negative nor
    not-a-number. *)
Theorem headline_figure_is_largest_entry :
  forall time_array pos_array steps window_duration out,
    compute_step_overshoots time_array pos_array steps window_duration
    = Some out ->
    Forall (fun r => (r <? 0) = false /\ is_nan r = false) out
    /\ (max_overshoot out <? 0) = false
    /\ is_nan (max_overshoot out) = false
    /\ Forall (fun v => (v <=? max_overshoot out) = true) out
    /\ match out with
       | [] => max_overshoot out = 0
       | _ :: _ => In (max_overshoot out) out
       end.
Proof.
  intros time_array pos_array steps window_duration out Hout.
  pose proof (result_is_nonneg _ _ _ _ _ Hout) as Hnn.
  split; [exact Hnn|]. now apply max_overshoot_spec.
Qed.

Lemma headline_figure_is_largest_entry_witness :
  Forall (fun v => (v <=? max_overshoot [10; 25]) = true) [10; 25]
  /\ max_overshoot [10; 25] = 25.
Proof.
  split; [|reflexivity].
  apply (headline_figure_is_largest_entry
           [3; 3.25; 3.5; 6; 6.5] [0; 4; 11; 10; -2.5]
           (steps_list None 10 3 1) 1 [10; 25]).
  reflexivity.
Defined.

(** X6. On a time array and a position array of the same length, as the
    two lists of one record are, the computation of the figure in [main]
    raises nothing, for every step size, hold time and step count (a step
    size of 0, where the formula divides by zero, included): it yields a
    number that is neither negative nor not-a-number. *)
Theorem title_figure_is_defined :
  forall vel_limit step_size step_hold_time step_count time_array pos_array,
    length time_array = length pos_array ->
    exists m,
      Harness.main_max_overshoot vel_limit step_size step_hold_time step_count
        time_array pos_array = Some m
      /\ (m <? 0) = false
      /\ is_nan m = false.
Proof.
  intros vel_limit step_size step_hold_time step_count time_array pos_array
    Hlen.
  unfold Harness.main_max_overshoot.
  rewrite compute_step_overshoots_spec by lia. cbn [bind].
  eexists. split; [reflexivity|].
  pose proof (max_overshoot_spec _
                (result_nonneg time_array pos_array
                   (steps_list vel_limit step_size step_hold_time step_count)
                   1 (seq 1 (length (steps_list vel_limit step_size
                                       step_hold_time step_count) - 1))))
    as (H0 & Hn & _).
  split; assumption.
Qed.

Lemma title_figure_is_defined_witness :
  exists m,
    Harness.main_max_overshoot None 0 3 1 [3; 3.5; 6] [0; 1; nan] = Some m
    /\ (m <? 0) = false
    /\ is_nan m = false.
Proof.
  apply title_figure_is_defined. reflexivity.
Defined.

(** ** A response that stops on the target *)

Lemma zero_quotient_clamped (dv : float) : py_max 0 (0 / dv * 100) = 0.
Proof.
  unfold py_max.
  assert (H : (0 <? 0 / dv * 100) = false); [|now rewrite H].
  rewrite ltb_spec, mul_spec, div_spec.
  change (Prim2SF 0) with (S754_zero false).
  replace (Prim2SF 100) with (S754_finite false 7036874417766400 (-46))
    by (symmetry; vm_compute; reflexivity).
  destruct (Prim2SF dv) as [s|s| |s m e]; try reflexivity;
    destruct s; reflexivity.
Qed.

(** X7. When the extreme position of the window (the largest after a step
    up, the smallest otherwise) is exactly the new target, a finite number,
    the entry of the transition is exactly 0.0, whatever the step height. *)
Theorem settling_on_target_scores_zero :
  forall time_array pos_array steps window_duration i s_old s_new peak trough,
    (length time_array <= length pos_array)%nat ->
    (1 <= i)%nat ->
    nth_error steps (i - 1) = Some s_old ->
    nth_error steps i = Some s_new ->
    np_max (transition_window time_array pos_array steps window_duration i)
    = Some peak ->
    np_min (transition_window time_array pos_array steps window_duration i)
    = Some trough ->
    is_finite (target s_new) = true ->
    (if target s_old <? target s_new then peak else trough) = target s_new ->
    exists out,
      compute_step_overshoots time_array pos_array steps window_duration
      = Some out
      /\ nth_error out
           (emitted_before time_array pos_array steps window_duration i)
         = Some 0.
Proof.
  intros time_array pos_array steps window_duration i s_old s_new peak trough
    Hlen Hi Ho Hn Hmax Hmin Hfin Hext.
  destruct (transition_window time_array pos_array steps window_duration i)
    as [|x xs] eqn:Ew; [discriminate|].
  destruct (transition_in_result _ _ _ _ _ _ _ _ _ Hlen Hi Ho Hn Ew)
    as (out & Hout & _ & Hnth).
  exists out. split; [exact Hout|]. rewrite Hnth. f_equal.
  cbn [np_max np_min] in Hmax, Hmin.
  injection Hmax as Hmax. injection Hmin as Hmin.
  apply is_finite_spec in Hfin.
  destruct (target s_old <? target s_new).
  - rewrite Hmax, Hext, (sub_diag _ Hfin). apply zero_quotient_clamped.
  - rewrite Hmin, Hext, (sub_diag _ Hfin). apply zero_quotient_clamped.
Qed.

Lemma settling_on_target_scores_zero_witness :
  exists out,
    compute_step_overshoots [3; 3.25; 3.5] [0; 4; 10]
      [(0, 200, 3); (10, 200, 3)] 1 = Some out
    /\ nth_error out 0 = Some 0.
Proof.
  apply (settling_on_target_scores_zero
           [3; 3.25; 3.5] [0; 4; 10] [(0, 200, 3); (10, 200, 3)] 1 1%nat
           (0, 200, 3) (10, 200, 3) 10 0);
    try reflexivity; simpl; lia.
Defined.

End AnalyzerMore.

(** * Facts about the collector *)

Module CollectFacts.

Import Driver Harness.
Local Open Scope R_scope.

Lemma nondecreasing_cons (l : list R) (x : R) :
  nondecreasing l -> Forall (fun t => x <= t) l -> nondecreasing (x :: l).
Proof.
  intros Hl Hx i j a b Hij Hi Hj.
  destruct i as [|i], j as [|j]; simpl in Hi, Hj; try lia.
  - assert (a = b) by congruence. lra.
  - injection Hi as <-. rewrite Forall_forall in Hx. apply Hx.
    eapply nth_error_In; eassumption.
  - apply (Hl i j); [lia|assumption..].
Qed.

Lemma nondecreasing_nil : nondecreasing [].
Proof.
  intros [|i] j a b _ Hi; discriminate.
Qed.

Section Collect.

Variable env : endpoint.
Variables start_time stop_time dt : R.

Local Abbreviation iter := (collect_iter env start_time dt).
Local Abbreviation upto := (collect_upto env start_time stop_time dt).
Local Abbreviation loop := (collect_loop env start_time stop_time dt).

(** What a pass does to the record: one row when the query is answered,
    nothing otherwise. *)
Lemma collect_iter_record (sn : run * R) :
  d (fst (iter sn))
  = match states env (calls (w (fst sn))) with
    | Some state =>
        log_measure (now (w (fst sn)) - start_time)
          (none_to_nan (state_position state))
          (none_to_nan (state_velocity state)) (d (fst sn))
    | None => d (fst sn)
    end.
Proof.
  unfold collect_iter, get_actuators_state. cbn.
  destruct (Rlt_dec _ _); reflexivity.
Qed.

(** What a pass does to the world and to the deadline. *)
Lemma collect_iter_world (sn : run * R) :
  calls (w (fst (iter sn))) = S (calls (w (fst sn)))
  /\ sent (w (fst (iter sn))) = sent (w (fst sn)) ++ [GetState]
  /\ snd (iter sn) = snd sn + dt
  /\ now (w (fst (iter sn)))
     = Rmax (now (w (fst sn)) + latency env (calls (w (fst sn))))
         (snd sn + dt).
Proof.
  unfold collect_iter, get_actuators_state, asyncio_sleep, rpc. cbn.
  destruct (Rlt_dec 0 _) as [H|H]; cbn.
  - repeat apply conj; try reflexivity.
    rewrite Rmax_right by lra. lra.
  - repeat apply conj; try reflexivity.
    rewrite Rmax_left by lra. reflexivity.
Qed.

Lemma filter_seq_S (f : nat -> bool) (c n : nat) :
  filter f (seq c (S n))
  = (if f c then [c] else []) ++ filter f (seq (S c) n).
Proof.
  cbn [seq filter]. now destruct (f c).
Qed.

(** The state after any number of passes, from the state at the start. *)
Lemma collect_upto_inv (k : nat) (sn : run * R) :
  exists (n : nat) (added : list R),
    (n <= k)%nat
    /\ calls (w (fst (upto k sn))) = (calls (w (fst sn)) + n)%nat
    /\ sent (w (fst (upto k sn))) = sent (w (fst sn)) ++ repeat GetState n
    /\ snd (upto k sn) = snd sn + INR n * dt
    /\ time (d (fst (upto k sn))) = time (d (fst sn)) ++ added
    /\ length added
       = length (filter (answered env) (seq (calls (w (fst sn))) n))
    /\ Forall (fun t => t <= stop_time - start_time) added
    /\ position (d (fst (upto k sn)))
       = position (d (fst sn))
         ++ map (fun c => fst (measured (states env c)))
              (filter (answered env) (seq (calls (w (fst sn))) n))
    /\ velocity (d (fst (upto k sn)))
       = velocity (d (fst sn))
         ++ map (fun c => snd (measured (states env c)))
              (filter (answered env) (seq (calls (w (fst sn))) n))
    /\ cmd_time (d (fst (upto k sn))) = cmd_time (d (fst sn))
    /\ cmd_pos (d (fst (upto k sn))) = cmd_pos (d (fst sn))
    /\ cmd_vel (d (fst (upto k sn))) = cmd_vel (d (fst sn))
    /\ resp_time (d (fst (upto k sn))) = resp_time (d (fst sn))
    /\ ((forall c, 0 <= latency env c) ->
        now (w (fst sn)) <= now (w (fst (upto k sn)))
        /\ Forall (fun t => now (w (fst sn)) - start_time <= t) added
        /\ nondecreasing added).
Proof.
  revert sn. induction k as [|k IH]; intros sn.
  - exists 0%nat, []. cbn [collect_upto repeat seq filter map length INR].
    rewrite !app_nil_r, Nat.add_0_r.
    repeat apply conj; try reflexivity; try lia; try lra;
      try (intros _; repeat apply conj;
           [lra|constructor|apply nondecreasing_nil]);
      constructor.
  - cbn [collect_upto]. destruct (Rlt_dec _ _) as [Hstop|Hgo].
    + exists 0%nat, []. cbn [repeat seq filter map length INR].
      rewrite !app_nil_r, Nat.add_0_r.
      repeat apply conj; try reflexivity; try lia; try lra;
        try (intros _; repeat apply conj;
             [lra|constructor|apply nondecreasing_nil]);
        constructor.
    + destruct (IH (iter sn))
        as (n & added & Hn & Hc & Hs & Hd & Ht & Hl & Hb & Hp & Hv
            & Hct & Hcp & Hcv & Hrt & Hmono).
      destruct (collect_iter_world sn) as (Ec & Es & En & Enow).
      pose proof (collect_iter_record sn) as Er.
      rewrite Ec in Hc, Hl, Hp, Hv. rewrite Es in Hs. rewrite En in Hd.
      rewrite Er in Ht, Hp, Hv, Hct, Hcp, Hcv, Hrt.
      exists (S n),
        ((if answered env (calls (w (fst sn)))
          then [now (w (fst sn)) - start_time] else []) ++ added).
      rewrite filter_seq_S, map_app, map_app, !length_app, S_INR.
      rewrite Hc, Hs, Hd, Ht, Hp, Hv, Hct, Hcp, Hcv, Hrt, Hl.
      cbn [repeat].
      assert (Hnow' : (forall c, 0 <= latency env c) ->
                now (w (fst sn)) <= now (w (fst (upto k (iter sn))))
                /\ Forall (fun t => now (w (fst sn)) - start_time <= t) added
                /\ nondecreasing added).
      { intros Hlat. destruct (Hmono Hlat) as (Hnow & Hlow & Hnd).
        pose proof (Hlat (calls (w (fst sn)))) as H0.
        pose proof (Rmax_l (now (w (fst sn)) + latency env (calls (w (fst sn))))
                      (snd sn + dt)) as Hmx.
        rewrite Enow in Hnow, Hlow.
        repeat apply conj; [lra| |exact Hnd].
        eapply Forall_impl; [|exact Hlow]. cbv beta. intros; lra. }
      destruct (states env (calls (w (fst sn)))) as [state|] eqn:Est.
      * assert (Ha : answered env (calls (w (fst sn))) = true)
          by (unfold answered; now rewrite Est).
        rewrite Ha.
        cbn [log_measure time position velocity cmd_time cmd_pos cmd_vel
               resp_time map length app].
        rewrite Est. cbn [measured fst snd]. rewrite <- !app_assoc. cbn [app].
        repeat apply conj; try reflexivity; try lia; try lra.
        -- constructor; [lra|exact Hb].
        -- intros Hlat. destruct (Hnow' Hlat) as (Hnow & Hlow & Hnd).
           repeat apply conj; [exact Hnow| |now apply nondecreasing_cons].
           constructor; [lra|exact Hlow].
      * assert (Ha : answered env (calls (w (fst sn))) = false)
          by (unfold answered; now rewrite Est).
        rewrite Ha. cbn [map length app].
        repeat apply conj; try reflexivity; try lia; try lra;
          try assumption.
        now rewrite <- app_assoc.
Qed.

(** After a pass the clock has reached the deadline, so [k] passes take
    the clock [k] periods past the first deadline. *)
Lemma collect_upto_progress (k : nat) (sn : run * R) :
  snd sn <= now (w (fst sn)) ->
  stop_time < snd sn + INR k * dt ->
  stop_time < now (w (fst (upto k sn))).
Proof.
  revert sn. induction k as [|k IH]; intros sn Hsn Hk.
  - cbn [collect_upto INR] in *. lra.
  - cbn [collect_upto]. destruct (Rlt_dec _ _) as [Hstop|Hgo]; [exact Hstop|].
    destruct (collect_iter_world sn) as (_ & _ & En & Enow).
    apply IH.
    + rewrite En, Enow. apply Rmax_r.
    + rewrite En. rewrite S_INR in Hk. lra.
Qed.

Lemma collect_upto_stable (k j : nat) (sn : run * R) :
  stop_time < now (w (fst (upto k sn))) -> upto (k + j) sn = upto k sn.
Proof.
  revert sn. induction k as [|k IH]; intros sn H.
  - cbn [collect_upto Nat.add] in *. destruct j as [|j]; [reflexivity|].
    cbn [collect_upto]. destruct (Rlt_dec _ _); [reflexivity|contradiction].
  - cbn [collect_upto Nat.add] in *.
    destruct (Rlt_dec _ _); [reflexivity|now apply IH].
Qed.

Lemma collect_loop_returns (fuel : nat) (sn : run * R) :
  snd sn <= now (w (fst sn)) ->
  stop_time < snd sn + INR fuel * dt ->
  loop fuel sn = Some (upto fuel sn).
Proof.
  intros Hsn Hk. unfold collect_loop.
  pose proof (collect_upto_progress fuel sn Hsn Hk).
  destruct (Rlt_dec _ _); [reflexivity|contradiction].
Qed.

Lemma collect_loop_mono (fuel fuel' : nat) (sn r : run * R) :
  (fuel <= fuel')%nat -> loop fuel sn = Some r -> loop fuel' sn = Some r.
Proof.
  intros Hle. unfold collect_loop.
  destruct (Rlt_dec stop_time (now (w (fst (upto fuel sn))))) as [H|H];
    [|discriminate].
  replace fuel' with (fuel + (fuel' - fuel))%nat by lia.
  rewrite (collect_upto_stable fuel (fuel' - fuel) sn H).
  destruct (Rlt_dec _ _); [trivial|contradiction].
Qed.

(** With queries that take at most a period, from a state whose clock is
    on the deadline, every pass starts on the grid. *)
Lemma collect_upto_grid (k : nat) (sn : run * R) :
  (forall c, 0 <= latency env c <= dt) ->
  snd sn = now (w (fst sn)) ->
  exists n : nat,
    (n <= k)%nat
    /\ calls (w (fst (upto k sn))) = (calls (w (fst sn)) + n)%nat
    /\ now (w (fst (upto k sn))) = now (w (fst sn)) + INR n * dt
    /\ time (d (fst (upto k sn)))
       = time (d (fst sn))
         ++ map (fun c => now (w (fst sn))
                          + INR (c - calls (w (fst sn))) * dt - start_time)
              (filter (answered env) (seq (calls (w (fst sn))) n))
    /\ (forall j, (j < n)%nat -> now (w (fst sn)) + INR j * dt <= stop_time).
Proof.
  intros Hlat. revert sn. induction k as [|k IH]; intros sn Hsn.
  - exists 0%nat. cbn [collect_upto seq filter map INR].
    rewrite app_nil_r, Nat.add_0_r.
    repeat apply conj; try reflexivity; try lia; try lra.
  - cbn [collect_upto]. destruct (Rlt_dec _ _) as [Hstop|Hgo].
    + exists 0%nat. cbn [seq filter map INR].
      rewrite app_nil_r, Nat.add_0_r.
      repeat apply conj; try reflexivity; try lia; try lra.
    + destruct (collect_iter_world sn) as (Ec & _ & En & Enow).
      pose proof (collect_iter_record sn) as Er.
      pose proof (Hlat (calls (w (fst sn)))) as Hl0.
      rewrite Rmax_right in Enow by lra.
      destruct (IH (iter sn)) as (n & Hn & Hc & Hnow & Ht & Hgrid);
        [rewrite En, Enow; reflexivity|].
      rewrite Ec in Hc, Ht. rewrite Enow in Hnow, Ht, Hgrid.
      rewrite Er in Ht.
      exists (S n). rewrite filter_seq_S, map_app, S_INR, Hc, Hnow, Ht.
      assert (Hext :
        map (fun c => snd sn + dt + INR (c - S (calls (w (fst sn)))) * dt
                      - start_time)
          (filter (answered env) (seq (S (calls (w (fst sn)))) n))
        = map (fun c => now (w (fst sn))
                        + INR (c - calls (w (fst sn))) * dt - start_time)
            (filter (answered env) (seq (S (calls (w (fst sn)))) n))).
      { apply map_ext_in. intros c Hin.
        apply filter_In in Hin as [Hin _]. apply in_seq in Hin.
        replace (c - calls (w (fst sn)))%nat
          with (S (c - S (calls (w (fst sn)))))%nat by lia.
        rewrite S_INR. lra. }
      rewrite Hext.
      assert (Hj : forall j, (j < S n)%nat ->
                     now (w (fst sn)) + INR j * dt <= stop_time).
      { intros [|j] Hj; [cbn [INR]; lra|].
        specialize (Hgrid j ltac:(lia)). rewrite S_INR. lra. }
      destruct (states env (calls (w (fst sn)))) as [state|] eqn:Est.
      * assert (Ha : answered env (calls (w (fst sn))) = true)
          by (unfold answered; now rewrite Est).
        rewrite Ha. cbn [log_measure time map app].
        rewrite Nat.sub_diag. cbn [INR]. rewrite <- app_assoc. cbn [app].
        repeat apply conj; try reflexivity; try lia; try lra; try exact Hj.
        do 2 f_equal. lra.
      * assert (Ha : answered env (calls (w (fst sn))) = false)
          by (unfold answered; now rewrite Est).
        rewrite Ha. cbn [map app].
        repeat apply conj; try reflexivity; try lia; try lra; exact Hj.
Qed.

End Collect.

Lemma collect_data_eq fuel env d0 stop_time sample_rate start_time w0 :
  sample_rate <> 0 ->
  collect_data fuel env d0 stop_time sample_rate start_time w0
  = option_map fst
      (collect_loop env (time_origin start_time w0) stop_time (1 / sample_rate)
         fuel ({| w := w0; d := d0 |}, time_origin start_time w0)).
Proof.
  intros Hr. unfold collect_data, time_origin.
  destruct (Req_dec_T sample_rate 0) as [E|_]; [contradiction|].
  now destruct (collect_loop _ _ _ _ _ _).
Qed.

Lemma collect_data_returns fuel env d0 stop_time sample_rate start_time w0 :
  0 < sample_rate ->
  time_origin start_time w0 <= now w0 ->
  stop_time - time_origin start_time w0 < INR fuel * (1 / sample_rate) ->
  collect_data fuel env d0 stop_time sample_rate start_time w0
  = Some (fst (collect_upto env (time_origin start_time w0) stop_time
                 (1 / sample_rate) fuel
                 ({| w := w0; d := d0 |}, time_origin start_time w0))).
Proof.
  intros Hr Ho Hf. rewrite collect_data_eq by lra.
  rewrite collect_loop_returns; [reflexivity|exact Ho|cbn [snd]; lra].
Qed.

Lemma measured_not_none (response : option actuator_state) :
  is_none (fst (measured response)) = false
  /\ is_none (snd (measured response)) = false.
Proof.
  destruct response as [[[] []]|]; split; reflexivity.
Qed.

(** X8. The collector sends state queries and nothing else, and keeps one
    row for each query that is answered with a state: a query answered with
    no state leaves no row (where the two drivers record not-a-number).  A
    position or velocity the state lacks is recorded as not-a-number, never
    as [None].  The command columns are not touched. *)
Theorem collector_keeps_answered_queries :
  forall fuel env d0 stop_time sample_rate start_time w0,
    0 < sample_rate ->
    time_origin start_time w0 <= now w0 ->
    stop_time - time_origin start_time w0 < INR fuel * (1 / sample_rate) ->
    exists s n,
      collect_data fuel env d0 stop_time sample_rate start_time w0 = Some s
      /\ calls (w s) = (calls w0 + n)%nat
      /\ sent (w s) = sent w0 ++ repeat GetState n
      /\ length (time (d s))
         = (length (time d0)
            + length (filter (answered env) (seq (calls w0) n)))%nat
      /\ position (d s)
         = position d0
           ++ map (fun c => fst (measured (states env c)))
                (filter (answered env) (seq (calls w0) n))
      /\ velocity (d s)
         = velocity d0
           ++ map (fun c => snd (measured (states env c)))
                (filter (answered env) (seq (calls w0) n))
      /\ (forall c, is_none (fst (measured (states env c))) = false
                    /\ is_none (snd (measured (states env c))) = false)
      /\ cmd_time (d s) = cmd_time d0
      /\ cmd_pos (d s) = cmd_pos d0
      /\ cmd_vel (d s) = cmd_vel d0
      /\ resp_time (d s) = resp_time d0.
Proof.
  intros fuel env d0 stop_time sample_rate start_time w0 Hr Ho Hf.
  destruct (collect_upto_inv env (time_origin start_time w0) stop_time
              (1 / sample_rate) fuel
              ({| w := w0; d := d0 |}, time_origin start_time w0))
    as (n & added & _ & Hc & Hs & _ & Ht & Hl & _ & Hp & Hv
        & Hct & Hcp & Hcv & Hrt & _).
  cbn [fst w d] in *.
  eexists. exists n. split; [now apply collect_data_returns|].
  repeat apply conj; try assumption.
  - now rewrite Ht, length_app, Hl.
  - intros c. apply measured_not_none.
Qed.

Lemma collector_keeps_answered_queries_witness :
  let env :=
    {| latency := fun _ => 1 / 100;
       states := fun c =>
         match c with
         | O => Some {| state_position := PyNum 1; state_velocity := PyNone |}
         | _ => None
         end |} in
  exists s n,
    collect_data 3 env empty_dict 2 1 None (fresh_world 0) = Some s
    /\ sent (w s) = repeat GetState n
    /\ velocity (d s)
       = map (fun c => snd (measured (states env c)))
           (filter (answered env) (seq 0 n)).
Proof.
  intros env.
  destruct (collector_keeps_answered_queries 3 env empty_dict 2 1 None
              (fresh_world 0))
    as (s & n & Hs & _ & Hsent & _ & _ & Hv & _).
  - lra.
  - cbn. lra.
  - cbn. lra.
  - exists s, n. repeat apply conj; assumption.
Defined.

(** X9. A row is stamped with the clock read at the top of its pass, before
    the query: every stamp the collector adds is at most
    [stop_time - start_time], and the run ends with the clock past
    [stop_time]; when no call takes negative time the stamps are at least
    the clock at the call minus the origin and never decrease. *)
Theorem collector_stamps_precede_stop :
  forall fuel env d0 stop_time sample_rate start_time w0,
    0 < sample_rate ->
    time_origin start_time w0 <= now w0 ->
    stop_time - time_origin start_time w0 < INR fuel * (1 / sample_rate) ->
    exists s added,
      collect_data fuel env d0 stop_time sample_rate start_time w0 = Some s
      /\ time (d s) = time d0 ++ added
      /\ Forall (fun t => t <= stop_time - time_origin start_time w0) added
      /\ stop_time < now (w s)
      /\ ((forall c, 0 <= latency env c) ->
          Forall (fun t => now w0 - time_origin start_time w0 <= t) added
          /\ nondecreasing added).
Proof.
  intros fuel env d0 stop_time sample_rate start_time w0 Hr Ho Hf.
  destruct (collect_upto_inv env (time_origin start_time w0) stop_time
              (1 / sample_rate) fuel
              ({| w := w0; d := d0 |}, time_origin start_time w0))
    as (n & added & _ & _ & _ & _ & Ht & _ & Hb & _ & _ & _ & _ & _ & _ & Hm).
  cbn [fst w d] in *.
  eexists. exists added. split; [now apply collect_data_returns|].
  repeat apply conj; try assumption.
  - apply collect_upto_progress; cbn [fst snd w]; lra.
  - intros Hlat. now destruct (Hm Hlat) as (_ & Hlow & Hnd).
Qed.

Lemma collector_stamps_precede_stop_witness :
  let env :=
    {| latency := fun _ => 1 / 100;
       states := fun _ =>
         Some {| state_position := PyNum 1; state_velocity := PyNum 0 |} |} in
  exists s,
    collect_data 3 env empty_dict 2 1 None (fresh_world 0) = Some s
    /\ Forall (fun t => t <= 2) (time (d s))
    /\ 2 < now (w s).
Proof.
  intros env.
  destruct (collector_stamps_precede_stop 3 env empty_dict 2 1 None
              (fresh_world 0))
    as (s & added & Hs & Ht & Hb & Hend & _).
  - lra.
  - cbn. lra.
  - cbn. lra.
  - exists s. rewrite Ht. cbn [empty_dict time app].
    repeat apply conj; try assumption.
    eapply Forall_impl; [|exact Hb]. cbn. intros; lra.
Defined.

(** X10. For a positive sample rate and a time origin that is not ahead of
    the clock the collector returns: more than
    [(stop_time - start_time) * sample_rate] passes are never needed, and a
    larger bound on the passes gives the same result.  Such a bound exists
    for every stop time.  Called with the clock already past [stop_time] it
    returns at once: no query is sent and the record is unchanged. *)
Theorem collector_returns :
  (forall fuel env d0 stop_time sample_rate start_time w0,
      0 < sample_rate ->
      time_origin start_time w0 <= now w0 ->
      stop_time - time_origin start_time w0 < INR fuel * (1 / sample_rate) ->
      exists s,
        collect_data fuel env d0 stop_time sample_rate start_time w0 = Some s
        /\ forall fuel',
            (fuel <= fuel')%nat ->
            collect_data fuel' env d0 stop_time sample_rate start_time w0
            = Some s)
  /\ (forall env d0 stop_time sample_rate start_time w0,
         0 < sample_rate ->
         time_origin start_time w0 <= now w0 ->
         exists fuel s,
           collect_data fuel env d0 stop_time sample_rate start_time w0
           = Some s)
  /\ (forall fuel env d0 stop_time sample_rate start_time w0,
         sample_rate <> 0 ->
         stop_time < now w0 ->
         collect_data fuel env d0 stop_time sample_rate start_time w0
         = Some {| w := w0; d := d0 |}).
Proof.
  assert (Hret : forall fuel env d0 stop_time sample_rate start_time w0,
             0 < sample_rate ->
             time_origin start_time w0 <= now w0 ->
             stop_time - time_origin start_time w0
             < INR fuel * (1 / sample_rate) ->
             exists s,
               collect_data fuel env d0 stop_time sample_rate start_time w0
               = Some s
               /\ forall fuel',
                   (fuel <= fuel')%nat ->
                   collect_data fuel' env d0 stop_time sample_rate start_time
                     w0 = Some s).
  { intros fuel env d0 stop_time sample_rate start_time w0 Hr Ho Hf.
    eexists. split; [now apply collect_data_returns|].
    intros fuel' Hle. rewrite collect_data_eq by lra.
    erewrite collect_loop_mono;
      [reflexivity|exact Hle|apply collect_loop_returns; cbn [fst snd w]; lra]. }
  split; [exact Hret|]. split.
  - intros env d0 stop_time sample_rate start_time w0 Hr Ho.
    assert (Hp : 0 < 1 / sample_rate) by (apply Rdiv_pos_pos; lra).
    destruct (DriverFacts.enough_fuel
                (stop_time - time_origin start_time w0 + 1 / sample_rate)
                (1 / sample_rate) Hp) as [fuel Hfuel].
    destruct (Hret fuel env d0 stop_time sample_rate start_time w0 Hr Ho)
      as (s & Hs & _); [lra|].
    now exists fuel, s.
  - intros fuel env d0 stop_time sample_rate start_time w0 Hr Hstop.
    rewrite collect_data_eq by exact Hr. unfold collect_loop.
    assert (E : collect_upto env (time_origin start_time w0) stop_time
                  (1 / sample_rate) fuel
                  ({| w := w0; d := d0 |}, time_origin start_time w0)
                = ({| w := w0; d := d0 |}, time_origin start_time w0)).
    { destruct fuel as [|fuel]; [reflexivity|]. cbn [collect_upto fst w].
      destruct (Rlt_dec _ _); [reflexivity|contradiction]. }
    rewrite E. cbn [fst w].
    destruct (Rlt_dec _ _); [reflexivity|contradiction].
Qed.

Lemma collector_returns_witness :
  let env := {| latency := fun _ => 1 / 100; states := fun _ => None |} in
  exists s,
    collect_data 3 env empty_dict 2 1 None (fresh_world 0) = Some s
    /\ collect_data 7 env empty_dict 2 1 None (fresh_world 0) = Some s.
Proof.
  intros env.
  destruct (proj1 collector_returns 3%nat env empty_dict 2 1 None
              (fresh_world 0))
    as (s & Hs & Hmore).
  - lra.
  - cbn. lra.
  - cbn. lra.
  - exists s. split; [exact Hs|]. apply Hmore. lia.
Defined.

(** X11. Absolute deadlines: started with the clock as origin, and with
    queries that each take at most one sample period, the passes start
    exactly one period apart.  The row of the query answered in pass [j] is
    stamped [j / sample_rate] whatever the queries took, the run takes a
    whole number [n] of periods, and [n] is the number of grid points up to
    [stop_time]. *)
Theorem collector_samples_on_grid :
  forall fuel env d0 stop_time sample_rate w0,
    0 < sample_rate ->
    (forall c, 0 <= latency env c <= 1 / sample_rate) ->
    stop_time - now w0 < INR fuel * (1 / sample_rate) ->
    exists s n,
      collect_data fuel env d0 stop_time sample_rate None w0 = Some s
      /\ calls (w s) = (calls w0 + n)%nat
      /\ now (w s) = now w0 + INR n * (1 / sample_rate)
      /\ time (d s)
         = time d0
           ++ map (fun c => INR (c - calls w0) * (1 / sample_rate))
                (filter (answered env) (seq (calls w0) n))
      /\ stop_time < now w0 + INR n * (1 / sample_rate)
      /\ (forall j, (j < n)%nat ->
                    now w0 + INR j * (1 / sample_rate) <= stop_time).
Proof.
  intros fuel env d0 stop_time sample_rate w0 Hr Hlat Hf.
  pose proof (collect_data_returns fuel env d0 stop_time sample_rate None w0
                Hr (Rle_refl _) Hf) as Hs.
  pose proof (collect_upto_progress env (now w0) stop_time (1 / sample_rate)
                fuel ({| w := w0; d := d0 |}, now w0)) as Hend.
  destruct (collect_upto_grid env (now w0) stop_time (1 / sample_rate) fuel
              ({| w := w0; d := d0 |}, now w0) Hlat eq_refl)
    as (n & _ & Hc & Hnow & Ht & Hgrid).
  cbn [time_origin fst snd w d] in *.
  eexists. exists n. split; [exact Hs|].
  repeat apply conj; try assumption.
  - rewrite Ht. f_equal. apply map_ext. intros c. lra.
  - rewrite <- Hnow. apply Hend; lra.
Qed.

Lemma collector_samples_on_grid_witness :
  let env :=
    {| latency := fun c => match c with O => 1 / 4 | _ => 1 / 2 end;
       states := fun _ =>
         Some {| state_position := PyNum 1; state_velocity := PyNum 0 |} |} in
  exists s n,
    collect_data 3 env empty_dict 1 2 None (fresh_world 0) = Some s
    /\ time (d s) = map (fun c => INR (c - 0) * (1 / 2)) (seq 0 n)
    /\ 1 < INR n * (1 / 2)
    /\ (forall j, (j < n)%nat -> INR j * (1 / 2) <= 1).
Proof.
  intros env.
  destruct (collector_samples_on_grid 3 env empty_dict 1 2 (fresh_world 0))
    as (s & n & Hs & _ & _ & Ht & Hend & Hgrid).
  - lra.
  - intros [|c]; cbn; lra.
  - cbn. lra.
  - exists s, n. cbn [fresh_world now calls empty_dict time app] in *.
    rewrite Rplus_0_l in Hend.
    repeat apply conj; try assumption.
    + rewrite Ht. f_equal. clear. generalize 0%nat.
      induction n as [|n IH]; intros c; [reflexivity|].
      cbn [seq filter answered states env]. f_equal. apply IH.
    + intros j Hj. specialize (Hgrid j Hj). lra.
Defined.

End CollectFacts.

(** * More facts about the drivers *)

Module DriverMore.

Import Driver Harness DriverFacts.
Local Open Scope R_scope.

(** ** The sine run, column by column *)

(** The state a sine run ends in, with its columns in closed form. *)
Lemma run_sine_test_closed env amplitude freq duration g lim update_rate d0
    start_time is_real request_state w0 steps :
  sine_steps duration update_rate = Some steps ->
  let dt := sine_dt update_rate in
  exists sf,
    run_sine_test env amplitude freq duration g lim update_rate d0 start_time
      is_real request_state w0 = Some sf
    /\ calls (w sf) = (S (calls w0) + sine_calls request_state * steps)%nat
    /\ sent (w sf)
       = (sent w0 ++ [sine_configure is_real g lim])
         ++ flat_map (pass_requests amplitude freq dt request_state)
              (seq 0 steps)
    /\ cmd_pos (d sf)
       = cmd_pos d0
         ++ map (fun i => PyNum (sine_angle amplitude freq (INR i * dt)))
              (seq 0 steps)
    /\ cmd_vel (d sf)
       = cmd_vel d0
         ++ map (fun i => PyNum (sine_vel amplitude freq (INR i * dt)))
              (seq 0 steps)
    /\ position (d sf)
       = position d0
         ++ map (fun i => fst (sine_measured env amplitude freq dt
                                 request_state (S (calls w0)) i))
              (seq 0 steps)
    /\ velocity (d sf)
       = velocity d0
         ++ map (fun i => snd (sine_measured env amplitude freq dt
                                 request_state (S (calls w0)) i))
              (seq 0 steps)
    /\ length (time (d sf)) = (length (time d0) + steps)%nat
    /\ length (cmd_time (d sf)) = (length (cmd_time d0) + steps)%nat.
Proof.
  intros Hr dt.
  eexists. split; [now apply (run_sine_test_eq _ _ _ _ _ _ _ _ _ _ _ _ steps)|].
  destruct (sine_loop_closed env amplitude freq dt start_time request_state
              steps
              ({| w := rpc env (sine_configure is_real g lim) w0; d := d0 |},
               now (rpc env (sine_configure is_real g lim) w0)))
    as (_ & Hc & Hs & Hct & Hcp & Hcv & Ht & Hp & Hv).
  cbv zeta in Hc, Hs, Hct, Hcp, Hcv, Ht, Hp, Hv.
  cbn [fst w d rpc calls sent] in Hc, Hs, Hct, Hcp, Hcv, Ht, Hp, Hv.
  fold dt. repeat apply conj; try assumption.
  - now rewrite Ht, length_app, length_map, length_seq.
  - now rewrite Hct, length_app, length_map, length_seq.
Qed.

Lemma filter_query_commands (f : nat -> request) (l : list nat) :
  (forall i, is_query (f i) = false) ->
  filter is_query (flat_map (fun i => [f i]) l) = [].
Proof.
  intros Hf. induction l as [|i l IH]; [reflexivity|].
  cbn [flat_map app filter]. now rewrite Hf.
Qed.

(** X12. With [request_state] off the sine run sends no state query, one
    call per pass after the configuring one, and writes every command a
    second time into the measurement columns: what it appends to
    [position] is what it appends to [cmd_pos], and likewise for the
    velocities.  The passes are the [int(duration / dt)] of binary64. *)
Theorem sine_without_queries_echoes_commands :
  forall env amplitude freq duration g lim update_rate d0 start_time is_real
         w0 steps,
    sine_steps duration update_rate = Some steps ->
    exists sf added_pos added_vel,
      run_sine_test env amplitude freq duration g lim update_rate d0
        start_time is_real false w0 = Some sf
      /\ cmd_pos (d sf) = cmd_pos d0 ++ added_pos
      /\ position (d sf) = position d0 ++ added_pos
      /\ cmd_vel (d sf) = cmd_vel d0 ++ added_vel
      /\ velocity (d sf) = velocity d0 ++ added_vel
      /\ length added_pos = steps
      /\ length added_vel = steps
      /\ calls (w sf) = (S (calls w0) + steps)%nat
      /\ filter is_query (sent (w sf)) = filter is_query (sent w0).
Proof.
  intros env amplitude freq duration g lim update_rate d0 start_time is_real
    w0 steps Hr.
  destruct (run_sine_test_closed env amplitude freq duration g lim update_rate
              d0 start_time is_real false w0 steps Hr)
    as (sf & Hsf & Hc & Hs & Hcp & Hcv & Hp & Hv & _).
  cbv zeta in *. exists sf. do 2 eexists.
  split; [exact Hsf|]. split; [exact Hcp|]. split; [exact Hp|].
  split; [exact Hcv|]. split; [exact Hv|].
  rewrite !length_map, !length_seq, Hc, Hs.
  repeat apply conj; try reflexivity.
  - cbn [sine_calls]. lia.
  - rewrite !filter_app.
    unfold pass_requests. rewrite filter_query_commands by reflexivity.
    rewrite app_nil_r.
    assert (E : is_query (sine_configure is_real g lim) = false)
      by (unfold sine_configure; destruct (sine_gains is_real g) as [[? ?] ?];
          now destruct is_real).
    cbn [filter]. rewrite E. now rewrite app_nil_r.
Qed.

Lemma sine_without_queries_echoes_commands_witness :
  let env := {| latency := fun _ => 1 / 100; states := fun _ => None |} in
  exists sf,
    run_sine_test env 5 1 5 default_gains default_limits 50 empty_dict 0
      false false (fresh_world 0) = Some sf
    /\ position (d sf) = cmd_pos (d sf)
    /\ velocity (d sf) = cmd_vel (d sf)
    /\ filter is_query (sent (w sf)) = [].
Proof.
  intros env.
  destruct (sine_without_queries_echoes_commands env 5 1 5%float
              default_gains default_limits 50%float empty_dict 0 false
              (fresh_world 0) 250%nat)
    as (sf & added_pos & added_vel & Hsf & Hcp & Hp & Hcv & Hv & _ & _ & _
        & Hq); [reflexivity|].
  exists sf. rewrite Hcp, Hp, Hcv, Hv, Hq.
  repeat apply conj; try reflexivity. exact Hsf.
Defined.

(** X14. The sine run writes the fields of a returned state as they are: a
    state whose position or velocity is [None] leaves [None] in the record,
    where the step run and the collector write not-a-number. *)
Theorem sine_records_state_fields_unchanged :
  forall env amplitude freq duration g lim update_rate d0 start_time is_real
         w0 steps,
    sine_steps duration update_rate = Some steps ->
    exists sf,
      run_sine_test env amplitude freq duration g lim update_rate d0
        start_time is_real true w0 = Some sf
      /\ forall i state,
          (i < steps)%nat ->
          states env (calls w0 + 2 * i + 2) = Some state ->
          nth_error (position (d sf)) (length (position d0) + i)
          = Some (state_position state)
          /\ nth_error (velocity (d sf)) (length (velocity d0) + i)
             = Some (state_velocity state).
Proof.
  intros env amplitude freq duration g lim update_rate d0 start_time is_real
    w0 steps Hr.
  destruct (run_sine_test_closed env amplitude freq duration g lim update_rate
              d0 start_time is_real true w0 steps Hr)
    as (sf & Hsf & _ & _ & _ & _ & Hp & Hv & _).
  cbv zeta in *. exists sf. split; [exact Hsf|].
  intros i state Hi Hst. rewrite Hp, Hv.
  rewrite !nth_error_app_map_seq by assumption.
  unfold sine_measured.
  replace (S (S (calls w0) + 2 * i)) with (calls w0 + 2 * i + 2)%nat by lia.
  rewrite Hst. split; reflexivity.
Qed.

Lemma sine_records_state_fields_unchanged_witness :
  let env :=
    {| latency := fun _ => 1 / 100;
       states := fun _ =>
         Some {| state_position := PyNone; state_velocity := PyNum 0 |} |} in
  exists sf,
    run_sine_test env 5 1 5 default_gains default_limits 50 empty_dict 0
      true true (fresh_world 0) = Some sf
    /\ nth_error (position (d sf)) 0 = Some PyNone.
Proof.
  intros env.
  destruct (sine_records_state_fields_unchanged env 5 1 5%float
              default_gains default_limits 50%float empty_dict 0 true
              (fresh_world 0) 250%nat)
    as (sf & Hsf & Hrow); [reflexivity|].
  exists sf. split; [exact Hsf|].
  destruct (Hrow 0%nat
              {| state_position := PyNone; state_velocity := PyNum 0 |})
    as [Hp _].
  - lia.
  - reflexivity.
  - exact Hp.
Defined.

(** ** The step run, phase by phase *)

Lemma adds_refl (s : run) : adds s s [] [] [] [] [] [].
Proof.
  unfold adds. rewrite !app_nil_r. cbn [length].
  repeat apply conj; try reflexivity. lia.
Qed.

Lemma adds_trans (s s1 s2 : run) r1 t1 cp1 cv1 p1 v1 r2 t2 cp2 cv2 p2 v2 :
  adds s s1 r1 t1 cp1 cv1 p1 v1 ->
  adds s1 s2 r2 t2 cp2 cv2 p2 v2 ->
  adds s s2 (r1 ++ r2) (t1 ++ t2) (cp1 ++ cp2) (cv1 ++ cv2) (p1 ++ p2)
    (v1 ++ v2).
Proof.
  intros (A1 & A2 & A3 & A4 & A5 & A6 & A7 & A8 & A9)
         (B1 & B2 & B3 & B4 & B5 & B6 & B7 & B8 & B9).
  unfold adds.
  rewrite B1, B2, B3, B4, B5, B6, B7, B8, B9, A1, A2, A3, A4, A5, A6, A7, A8,
    A9, length_app, <- !app_assoc.
  repeat apply conj; try reflexivity. lia.
Qed.

Section StepShape.

Variable env : endpoint.
Variables start_time sample_period step_hold_time vel_limit : R.

Lemma adds_block (cmd shown : R) (s : run) :
  adds s (step_block env start_time vel_limit cmd shown s)
    [Command cmd None] [now (w s) - start_time]
    [PyNum cmd] [PyNum vel_limit] [PyNum shown] [PyNum 0].
Proof.
  unfold adds, step_block, rpc. cbn.
  repeat apply conj; try reflexivity. lia.
Qed.

Lemma adds_iter (cmd : R) (s : run) :
  adds s (hold_iter env start_time sample_period vel_limit cmd s)
    [GetState] [now (w s) + latency env (calls (w s)) - start_time]
    [PyNum cmd] [PyNum vel_limit]
    [fst (measured (states env (calls (w s))))]
    [snd (measured (states env (calls (w s))))].
Proof.
  unfold adds, hold_iter, get_actuators_state, asyncio_sleep, rpc.
  destruct (measured (states env (calls (w s)))) as [measured_pos measured_vel].
  destruct (Rlt_dec 0 sample_period); cbn;
    (repeat apply conj; try reflexivity; lia).
Qed.

(** A sampling loop adds state queries and one row per query. *)
Lemma hold_upto_adds (k : nat) (end_hold cmd : R) (s : run) :
  exists smp : list (R * pyval * pyval),
    adds s (hold_upto env start_time sample_period vel_limit k end_hold cmd s)
      (map (fun _ => GetState) smp)
      (map (fun x => fst (fst x)) smp)
      (map (fun _ => PyNum cmd) smp)
      (map (fun _ => PyNum vel_limit) smp)
      (map (fun x => snd (fst x)) smp)
      (map (fun x => snd x) smp)
    /\ Forall (fun x => is_none (snd (fst x)) = false
                        /\ is_none (snd x) = false) smp
    /\ ((forall c, 0 <= latency env c) ->
        0 < sample_period ->
        forall m, length smp = S m ->
                  now (w s) + INR m * sample_period < end_hold).
Proof.
  revert s. induction k as [|k IH]; intros s.
  - exists []. split; [apply adds_refl|]. split; [constructor|].
    intros _ _ m Hm. discriminate.
  - cbn [hold_upto]. destruct (Rlt_dec _ _) as [Hgo|Hstop].
    + destruct (IH (hold_iter env start_time sample_period vel_limit cmd s))
        as (smp & Hadd & Hok & Hpace).
      exists ((now (w s) + latency env (calls (w s)) - start_time,
               fst (measured (states env (calls (w s)))),
               snd (measured (states env (calls (w s))))) :: smp).
      split; [|split].
      * exact (adds_trans _ _ _ _ _ _ _ _ _ _ _ _ _ _ _
                 (adds_iter cmd s) Hadd).
      * constructor; [|exact Hok]. cbn [fst snd].
        apply CollectFacts.measured_not_none.
      * intros Hlat Hp m Hm. cbn [length] in Hm. injection Hm as Hm.
        destruct m as [|m]; [cbn [INR]; lra|].
        specialize (Hpace Hlat Hp m Hm).
        destruct (hold_iter_clock env start_time sample_period vel_limit cmd s
                    Hp) as (Hn & _).
        rewrite Hn in Hpace. pose proof (Hlat (calls (w s))).
        rewrite S_INR. lra.
    + exists []. split; [apply adds_refl|]. split; [constructor|].
      intros _ _ m Hm. discriminate.
Qed.

Lemma step_phase_adds (fuel : nat) (cmd shown : R) (s s' : run) :
  step_phase env start_time sample_period step_hold_time vel_limit fuel cmd
    shown s = Some s' ->
  exists b : phase_log,
    fst b = now (w s) - start_time
    /\ phase_sampled b
    /\ ((forall c, 0 <= latency env c) ->
        0 < sample_period -> phase_paced sample_period step_hold_time b)
    /\ adds s s' (phase_requests cmd b) (phase_time b) (phase_constant cmd b)
         (phase_constant vel_limit b) (phase_position shown b)
         (phase_velocity b).
Proof.
  unfold step_phase. intros H. apply hold_loop_end in H. destruct H as [-> _].
  destruct (hold_upto_adds fuel
              (now (w (step_block env start_time vel_limit cmd shown s))
               + step_hold_time) cmd
              (step_block env start_time vel_limit cmd shown s))
    as (smp & Hadd & Hok & Hpace).
  exists (now (w s) - start_time, smp).
  split; [reflexivity|]. split; [exact Hok|]. split.
  - intros Hlat Hp m Hm. cbn [snd] in Hm.
    specialize (Hpace Hlat Hp m Hm). lra.
  - exact (adds_trans _ _ _ _ _ _ _ _ _ _ _ _ _ _ _
             (adds_block cmd shown s) Hadd).
Qed.

Lemma phases_add_cons (p : R * R) (b : phase_log) ps bs (s s1 s2 : run) :
  adds s s1 (phase_requests (fst p) b) (phase_time b)
    (phase_constant (fst p) b) (phase_constant vel_limit b)
    (phase_position (snd p) b) (phase_velocity b) ->
  phases_add vel_limit ps bs s1 s2 ->
  phases_add vel_limit (p :: ps) (b :: bs) s s2.
Proof.
  intros H1 H2. unfold phases_add. cbn [combine flat_map fst snd].
  exact (adds_trans _ _ _ _ _ _ _ _ _ _ _ _ _ _ _ H1 H2).
Qed.

Lemma cycles_add (fuel : nat) (step_size : R) (l : list nat) (s s' : run) :
  cycles env start_time sample_period step_hold_time vel_limit fuel step_size
    l s = Some s' ->
  exists bs,
    length bs = length (flat_map (fun _ : nat => [(step_size, 0); (0, step_size)]) l)
    /\ Forall phase_sampled bs
    /\ ((forall k, 0 <= latency env k) ->
        forall j b,
          nth_error bs j = Some b ->
          now (w s) - start_time + INR j * step_hold_time <= fst b)
    /\ ((forall k, 0 <= latency env k) ->
        0 < sample_period ->
        Forall (phase_paced sample_period step_hold_time) bs)
    /\ phases_add vel_limit
         (flat_map (fun _ => [(step_size, 0); (0, step_size)]) l) bs s s'.
Proof.
  revert s. induction l as [|x l IH]; intros s H.
  - injection H as <-. exists []. split; [reflexivity|].
    split; [constructor|]. split; [|split; [constructor|apply adds_refl]].
    intros _ [|j] b Hb; discriminate.
  - rewrite cycles_cons in H.
    destruct (step_cycle env start_time sample_period step_hold_time vel_limit
                fuel step_size s) as [s2|] eqn:E; [|discriminate].
    cbn [bind] in H. unfold step_cycle in E.
    destruct (step_phase env start_time sample_period step_hold_time vel_limit
                fuel step_size 0 s) as [s1|] eqn:E1; [|discriminate].
    cbn [bind] in E.
    destruct (step_phase_adds _ _ _ _ _ E1)
      as (b1 & Hb1 & Hok1 & Hp1 & Hadd1).
    destruct (step_phase_adds _ _ _ _ _ E) as (b2 & Hb2 & Hok2 & Hp2 & Hadd2).
    destruct (IH s2 H) as (bs & Hlen & Hok & Hlate & Hpaced & Hadd).
    exists (b1 :: b2 :: bs). cbn [flat_map app length].
    split; [now rewrite Hlen|].
    split; [now repeat constructor|].
    split.
    { intros Hlat j b Hb.
      pose proof (step_phase_lasts _ _ _ _ _ _ _ _ _ _ (Hlat _) E1) as L1.
      pose proof (step_phase_lasts _ _ _ _ _ _ _ _ _ _ (Hlat _) E) as L2.
      destruct j as [|[|j]]; cbn [nth_error] in Hb.
      - injection Hb as <-. cbn [INR]. lra.
      - injection Hb as <-. cbn [INR]. lra.
      - specialize (Hlate Hlat j b Hb). rewrite !S_INR. lra. }
    split; [intros Hlat Hp; repeat constructor; auto|].
    apply (phases_add_cons (step_size, 0) b1 _ _ s s1 s'); [exact Hadd1|].
    apply (phases_add_cons (0, step_size) b2 _ _ s1 s2 s'); [exact Hadd2|].
    exact Hadd.
Qed.

End StepShape.

(** The state a step run ends in: the configured state, then its phases. *)
Lemma run_step_test_shape fuel env step_size step_hold_time step_count g lim
    vel_limit d0 start_time sample_rate is_real w0 sf :
  run_step_test fuel env step_size step_hold_time step_count g lim vel_limit
    d0 start_time sample_rate is_real w0 = Some sf ->
  exists bs,
    length bs = length (step_phases step_size step_count)
    /\ Forall phase_sampled bs
    /\ ((forall k, 0 <= latency env k) ->
        forall j b,
          nth_error bs j = Some b ->
          now w0 + latency env (calls w0) - time_origin start_time w0
          + INR j * step_hold_time <= fst b)
    /\ ((forall k, 0 <= latency env k) ->
        0 < 1 / sample_rate ->
        Forall (phase_paced (1 / sample_rate) step_hold_time) bs)
    /\ phases_add vel_limit (step_phases step_size step_count) bs
         {| w := rpc env (step_configure is_real g lim) w0; d := d0 |} sf.
Proof.
  intros H.
  destruct (run_step_test_inv _ _ _ _ _ _ _ _ _ _ _ _ _ _ H) as (s1 & E1 & E2).
  cbv zeta in E1, E2.
  destruct (step_phase_adds _ _ _ _ _ _ _ _ _ _ E1)
    as (b0 & Hb0 & Hok0 & Hp0 & Hadd0).
  destruct (cycles_add _ _ _ _ _ _ _ _ _ _ E2)
    as (bs & Hlen & Hok & Hlate & Hpaced & Hadd).
  exists (b0 :: bs). unfold step_phases. cbn [length].
  split; [now rewrite Hlen|]. split; [now constructor|].
  split; [|split;
           [intros Hlat Hp; constructor; auto
           |now apply (phases_add_cons vel_limit (0, 0) b0 _ _ _ s1 sf)]].
  intros Hlat j b Hb.
  pose proof (step_phase_lasts _ _ _ _ _ _ _ _ _ _ (Hlat _) E1) as L1.
  cbn [w rpc now] in Hb0, L1. unfold time_origin.
  destruct j as [|j]; cbn [nth_error] in Hb.
  - injection Hb as <-. cbn [INR]. lra.
  - specialize (Hlate Hlat j b Hb). rewrite S_INR. lra.
Qed.

Lemma step_phases_length (step_size : R) (step_count : Z) :
  length (step_phases step_size step_count)
  = S (2 * Z.to_nat step_count).
Proof.
  unfold step_phases. cbn [length]. f_equal.
  rewrite <- (length_seq (Z.to_nat step_count) 0) at 2.
  induction (seq 0 (Z.to_nat step_count)) as [|x l IH]; [reflexivity|].
  cbn [flat_map app length]. rewrite IH. lia.
Qed.

Lemma run_step_test_shaped fuel env step_size step_hold_time step_count g lim
    vel_limit d0 start_time sample_rate is_real w0 :
  (forall k, 0 <= latency env k) ->
  0 < sample_rate ->
  step_hold_time <= INR fuel * (1 / sample_rate) ->
  exists sf bs,
    run_step_test fuel env step_size step_hold_time step_count g lim vel_limit
      d0 start_time sample_rate is_real w0 = Some sf
    /\ length bs = S (2 * Z.to_nat step_count)
    /\ Forall phase_sampled bs
    /\ (forall j b,
          nth_error bs j = Some b ->
          now w0 + latency env (calls w0) - time_origin start_time w0
          + INR j * step_hold_time <= fst b)
    /\ Forall (phase_paced (1 / sample_rate) step_hold_time) bs
    /\ phases_add vel_limit (step_phases step_size step_count) bs
         {| w := rpc env (step_configure is_real g lim) w0; d := d0 |} sf.
Proof.
  intros Hlat Hr Hf.
  destruct (run_step_test_returns fuel env step_size step_hold_time step_count
              g lim vel_limit d0 start_time sample_rate is_real w0 Hlat Hr Hf)
    as [sf Hsf].
  destruct (run_step_test_shape _ _ _ _ _ _ _ _ _ _ _ _ _ _ Hsf)
    as (bs & Hlen & Hok & Hlate & Hpaced & Hadd).
  exists sf, bs. rewrite <- (step_phases_length step_size).
  split; [exact Hsf|]. split; [exact Hlen|]. split; [exact Hok|].
  split; [exact (Hlate Hlat)|]. split; [|exact Hadd].
  apply Hpaced; [exact Hlat|]. apply Rdiv_pos_pos; lra.
Qed.

Lemma filter_command_phases (ps : list (R * R)) (bs : list phase_log) :
  length bs = length ps ->
  filter is_command
    (flat_map (fun pb => phase_requests (fst (fst pb)) (snd pb)) (combine ps bs))
  = map (fun p => Command (fst p) None) ps.
Proof.
  revert bs. induction ps as [|p ps IH]; intros [|b bs] Hlen;
    try discriminate; [reflexivity|].
  cbn [combine flat_map map fst snd]. rewrite filter_app.
  rewrite IH by (cbn [length] in Hlen; lia).
  unfold phase_requests. cbn [filter is_command app]. f_equal.
  induction (snd b) as [|x l IHl]; [reflexivity|exact IHl].
Qed.

(** X15. A step run sends the configuring call and then, phase by phase,
    one position command followed by state queries only.  The commands are
    0, then [step_size] and 0 once per cycle: [2 * step_count + 1] of them
    (one for a negative count), and none of them carries a velocity, the
    velocity limit being written to the record only. *)
Theorem step_run_requests :
  forall fuel env step_size step_hold_time step_count g lim vel_limit d0
         start_time sample_rate is_real w0,
    (forall k, 0 <= latency env k) ->
    0 < sample_rate ->
    step_hold_time <= INR fuel * (1 / sample_rate) ->
    exists sf bs,
      run_step_test fuel env step_size step_hold_time step_count g lim
        vel_limit d0 start_time sample_rate is_real w0 = Some sf
      /\ length bs = S (2 * Z.to_nat step_count)
      /\ sent (w sf)
         = (sent w0 ++ [step_configure is_real g lim])
           ++ flat_map (fun pb => phase_requests (fst (fst pb)) (snd pb))
                (combine (step_phases step_size step_count) bs)
      /\ filter is_command (sent (w sf))
         = filter is_command (sent w0)
           ++ map (fun p => Command (fst p) None)
                (step_phases step_size step_count)
      /\ length (step_phases step_size step_count)
         = S (2 * Z.to_nat step_count).
Proof.
  intros fuel env step_size step_hold_time step_count g lim vel_limit d0
    start_time sample_rate is_real w0 Hlat Hr Hf.
  destruct (run_step_test_shaped fuel env step_size step_hold_time step_count
              g lim vel_limit d0 start_time sample_rate is_real w0 Hlat Hr Hf)
    as (sf & bs & Hsf & Hlen & _ & _ & _ & Hs & _).
  cbn [w rpc sent] in Hs.
  exists sf, bs. split; [exact Hsf|]. split; [exact Hlen|].
  split; [exact Hs|]. split; [|apply step_phases_length].
  rewrite Hs, !filter_app, filter_command_phases
    by now rewrite step_phases_length.
  assert (E : is_command (step_configure is_real g lim) = false)
    by (unfold step_configure; now destruct (step_gains is_real g) as [[? ?] ?]).
  cbn [filter]. rewrite E. now rewrite app_nil_r.
Qed.

Lemma step_run_requests_witness :
  let env := {| latency := fun _ => 1 / 100; states := fun _ => None |} in
  exists sf,
    run_step_test 1 env 10 1 1 default_gains default_limits 400 empty_dict
      (Some 0) 1 false (fresh_world 0) = Some sf
    /\ filter is_command (sent (w sf))
       = [Command 0 None; Command 10 None; Command 0 None].
Proof.
  intros env.
  destruct (step_run_requests 1 env 10 1 1 default_gains default_limits 400
              empty_dict (Some 0) 1 false (fresh_world 0))
    as (sf & bs & Hsf & _ & _ & Hc & _).
  - intros k. cbn. lra.
  - lra.
  - cbn. lra.
  - exists sf. split; [exact Hsf|]. exact Hc.
Defined.

Lemma in_phase_constant (c : R) (b : phase_log) (v : pyval) :
  In v (phase_constant c b) -> v = PyNum c.
Proof.
  unfold phase_constant. intros [<-|H]; [reflexivity|].
  apply in_map_iff in H as (x & <- & _). reflexivity.
Qed.

Lemma in_step_phases (step_size : R) (step_count : Z) (p : R * R) :
  In p (step_phases step_size step_count) -> fst p = 0 \/ fst p = step_size.
Proof.
  unfold step_phases. intros [<-|H]; [now left|].
  apply in_flat_map in H as (x & _ & [<-|[<-|[]]]); [now right|now left].
Qed.

(** X16. The command columns of a step run: every row, the one written at
    a command and the one written at each sample, is stamped once and the
    stamp goes to [cmd_time] and to [time] alike, so a run on a record whose
    two time columns agree leaves them equal; [cmd_pos] repeats the command
    of the phase on each of its rows and holds nothing but 0 and
    [step_size]; [cmd_vel] holds the velocity limit on every row; the
    response times are not written. *)
Theorem step_run_command_columns :
  forall fuel env step_size step_hold_time step_count g lim vel_limit d0
         start_time sample_rate is_real w0,
    (forall k, 0 <= latency env k) ->
    0 < sample_rate ->
    step_hold_time <= INR fuel * (1 / sample_rate) ->
    exists sf bs,
      run_step_test fuel env step_size step_hold_time step_count g lim
        vel_limit d0 start_time sample_rate is_real w0 = Some sf
      /\ length bs = S (2 * Z.to_nat step_count)
      /\ cmd_time (d sf) = cmd_time d0 ++ flat_map phase_time bs
      /\ time (d sf) = time d0 ++ flat_map phase_time bs
      /\ cmd_pos (d sf)
         = cmd_pos d0
           ++ flat_map (fun pb => phase_constant (fst (fst pb)) (snd pb))
                (combine (step_phases step_size step_count) bs)
      /\ (forall v,
             In v (flat_map (fun pb => phase_constant (fst (fst pb)) (snd pb))
                     (combine (step_phases step_size step_count) bs)) ->
             v = PyNum 0 \/ v = PyNum step_size)
      /\ cmd_vel (d sf)
         = cmd_vel d0 ++ flat_map (phase_constant vel_limit) bs
      /\ (forall v, In v (flat_map (phase_constant vel_limit) bs) ->
                    v = PyNum vel_limit)
      /\ resp_time (d sf) = resp_time d0
      /\ (cmd_time d0 = time d0 -> cmd_time (d sf) = time (d sf)).
Proof.
  intros fuel env step_size step_hold_time step_count g lim vel_limit d0
    start_time sample_rate is_real w0 Hlat Hr Hf.
  destruct (run_step_test_shaped fuel env step_size step_hold_time step_count
              g lim vel_limit d0 start_time sample_rate is_real w0 Hlat Hr Hf)
    as (sf & bs & Hsf & Hlen & _ & _ & _ & _ & _ & Ht & Hct & Hcp & Hcv & _ & _ & Hrt).
  cbn [d] in Ht, Hct, Hcp, Hcv, Hrt.
  exists sf, bs. repeat apply conj; try assumption.
  - intros v Hv. apply in_flat_map in Hv as ([p b] & Hpb & Hv).
    apply in_combine_l in Hpb. cbn [fst snd] in Hv.
    apply in_phase_constant in Hv.
    destruct (in_step_phases _ _ _ Hpb) as [E|E]; rewrite E in Hv; auto.
  - intros v Hv. apply in_flat_map in Hv as (b & _ & Hv).
    now apply in_phase_constant in Hv.
  - intros E. now rewrite Ht, Hct, E.
Qed.

Lemma step_run_command_columns_witness :
  let env := {| latency := fun _ => 1 / 100; states := fun _ => None |} in
  exists sf,
    run_step_test 1 env 10 1 1 default_gains default_limits 400 empty_dict
      (Some 0) 1 false (fresh_world 0) = Some sf
    /\ cmd_time (d sf) = time (d sf)
    /\ (forall v, In v (cmd_vel (d sf)) -> v = PyNum 400).
Proof.
  intros env.
  destruct (step_run_command_columns 1 env 10 1 1 default_gains default_limits
              400 empty_dict (Some 0) 1 false (fresh_world 0))
    as (sf & bs & Hsf & _ & _ & _ & _ & _ & Hcv & Hv & _ & Heq).
  - intros k. cbn. lra.
  - lra.
  - cbn. lra.
  - exists sf. split; [exact Hsf|]. split; [now apply Heq|].
    rewrite Hcv. exact Hv.
Defined.

Lemma step_phases_chain (step_size : R) (l : list nat) (prev : R * R) :
  fst prev = 0 ->
  forall j p q,
    nth_error (prev :: flat_map (fun _ => [(step_size, 0); (0, step_size)]) l) j
    = Some p ->
    nth_error (prev :: flat_map (fun _ => [(step_size, 0); (0, step_size)]) l)
      (S j) = Some q ->
    snd q = fst p.
Proof.
  revert prev. induction l as [|x l IH]; intros prev Hprev j p q Hp Hq.
  - destruct j as [|j]; simpl in Hq; [discriminate|destruct j; discriminate].
  - cbn [flat_map app] in Hp, Hq.
    destruct j as [|[|j]].
    + cbn in Hp, Hq. injection Hp as <-. injection Hq as <-.
      now rewrite Hprev.
    + cbn in Hp, Hq. injection Hp as <-. injection Hq as <-. reflexivity.
    + apply (IH (0, step_size) eq_refl j p q); [exact Hp|exact Hq].
Qed.

(** X17. The measurement columns of a step run hold rows that were not
    measured: at each command the run writes, without a query, velocity 0
    and as position the target of the phase before (0 at the first command),
    as if the actuator stood exactly there.  The rows of the samples follow
    those of their command, and none of them holds [None]. *)
Theorem step_run_rows_written_at_commands :
  forall fuel env step_size step_hold_time step_count g lim vel_limit d0
         start_time sample_rate is_real w0,
    (forall k, 0 <= latency env k) ->
    0 < sample_rate ->
    step_hold_time <= INR fuel * (1 / sample_rate) ->
    exists sf bs,
      run_step_test fuel env step_size step_hold_time step_count g lim
        vel_limit d0 start_time sample_rate is_real w0 = Some sf
      /\ length bs = S (2 * Z.to_nat step_count)
      /\ position (d sf)
         = position d0
           ++ flat_map (fun pb => phase_position (snd (fst pb)) (snd pb))
                (combine (step_phases step_size step_count) bs)
      /\ velocity (d sf) = velocity d0 ++ flat_map phase_velocity bs
      /\ Forall phase_sampled bs
      /\ nth_error (step_phases step_size step_count) 0 = Some (0, 0)
      /\ (forall j p q,
             nth_error (step_phases step_size step_count) j = Some p ->
             nth_error (step_phases step_size step_count) (S j) = Some q ->
             snd q = fst p).
Proof.
  intros fuel env step_size step_hold_time step_count g lim vel_limit d0
    start_time sample_rate is_real w0 Hlat Hr Hf.
  destruct (run_step_test_shaped fuel env step_size step_hold_time step_count
              g lim vel_limit d0 start_time sample_rate is_real w0 Hlat Hr Hf)
    as (sf & bs & Hsf & Hlen & Hok & _ & _ & _ & _ & _ & _ & _ & _ & Hp & Hv & _).
  cbn [d] in Hp, Hv.
  exists sf, bs. repeat apply conj; try assumption; try reflexivity.
  intros j p q. now apply step_phases_chain.
Qed.

Lemma step_run_rows_written_at_commands_witness :
  let env :=
    {| latency := fun _ => 1 / 100;
       states := fun _ =>
         Some {| state_position := PyNum 3; state_velocity := PyNone |} |} in
  exists sf bs,
    run_step_test 1 env 10 1 1 default_gains default_limits 400 empty_dict
      (Some 0) 1 false (fresh_world 0) = Some sf
    /\ velocity (d sf) = flat_map phase_velocity bs
    /\ Forall phase_sampled bs.
Proof.
  intros env.
  destruct (step_run_rows_written_at_commands 1 env 10 1 1 default_gains
              default_limits 400 empty_dict (Some 0) 1 false (fresh_world 0))
    as (sf & bs & Hsf & _ & _ & Hv & Hok & _).
  - intros k. cbn. lra.
  - lra.
  - cbn. lra.
  - exists sf, bs. repeat apply conj; assumption.
Defined.

(** X18. The command that opens phase [j] of a step run is stamped at
    least [j] hold times after the configuring call returned.  With a time
    origin that is not ahead of the clock no command is stamped before
    [j * step_hold_time], the time the schedule of [main] gives it: the
    calls and the sampling can only make it later. *)
Theorem step_commands_not_before_nominal_time :
  forall fuel env step_size step_hold_time step_count g lim vel_limit d0
         start_time sample_rate is_real w0,
    (forall k, 0 <= latency env k) ->
    0 < sample_rate ->
    step_hold_time <= INR fuel * (1 / sample_rate) ->
    exists sf bs,
      run_step_test fuel env step_size step_hold_time step_count g lim
        vel_limit d0 start_time sample_rate is_real w0 = Some sf
      /\ length bs = S (2 * Z.to_nat step_count)
      /\ cmd_time (d sf) = cmd_time d0 ++ flat_map phase_time bs
      /\ (forall j b,
             nth_error bs j = Some b ->
             now w0 + latency env (calls w0) - time_origin start_time w0
             + INR j * step_hold_time <= fst b)
      /\ (time_origin start_time w0 <= now w0 ->
          forall j b,
            nth_error bs j = Some b -> INR j * step_hold_time <= fst b).
Proof.
  intros fuel env step_size step_hold_time step_count g lim vel_limit d0
    start_time sample_rate is_real w0 Hlat Hr Hf.
  destruct (run_step_test_shaped fuel env step_size step_hold_time step_count
              g lim vel_limit d0 start_time sample_rate is_real w0 Hlat Hr Hf)
    as (sf & bs & Hsf & Hlen & _ & Hlate & _ & _ & _ & _ & Hct & _).
  cbn [d] in Hct.
  exists sf, bs. repeat apply conj; try assumption.
  intros Ho j b Hb. specialize (Hlate j b Hb).
  pose proof (Hlat (calls w0)). lra.
Qed.

Lemma step_commands_not_before_nominal_time_witness :
  let env := {| latency := fun _ => 1 / 100; states := fun _ => None |} in
  exists sf bs,
    run_step_test 1 env 10 1 1 default_gains default_limits 400 empty_dict
      (Some 0) 1 false (fresh_world 0) = Some sf
    /\ cmd_time (d sf) = flat_map phase_time bs
    /\ (forall j b, nth_error bs j = Some b -> INR j * 1 <= fst b).
Proof.
  intros env.
  destruct (step_commands_not_before_nominal_time 1 env 10 1 1 default_gains
              default_limits 400 empty_dict (Some 0) 1 false (fresh_world 0))
    as (sf & bs & Hsf & _ & Hct & _ & Hlate).
  - intros k. cbn. lra.
  - lra.
  - cbn. lra.
  - exists sf, bs. repeat apply conj; try assumption.
    apply Hlate. cbn. lra.
Defined.

(** X22. The sample rate bounds the sampling of a step run from above: the
    samples of a phase start a period or more apart and the last one starts
    before the hold is over, so a phase with [m + 1] samples has
    [m / sample_rate < step_hold_time].  A phase never holds more than
    [step_hold_time * sample_rate + 1] samples, and with a hold time of zero
    or less none at all: the record then holds the rows written at the
    commands only. *)
Theorem step_run_sampling_is_bounded :
  forall fuel env step_size step_hold_time step_count g lim vel_limit d0
         start_time sample_rate is_real w0,
    (forall k, 0 <= latency env k) ->
    0 < sample_rate ->
    step_hold_time <= INR fuel * (1 / sample_rate) ->
    exists sf bs,
      run_step_test fuel env step_size step_hold_time step_count g lim
        vel_limit d0 start_time sample_rate is_real w0 = Some sf
      /\ length bs = S (2 * Z.to_nat step_count)
      /\ time (d sf) = time d0 ++ flat_map phase_time bs
      /\ Forall (phase_paced (1 / sample_rate) step_hold_time) bs
      /\ Forall (fun b => INR (length (snd b))
                          < step_hold_time * sample_rate + 1
                          \/ snd b = []) bs
      /\ (step_hold_time <= 0 -> Forall (fun b => snd b = []) bs).
Proof.
  intros fuel env step_size step_hold_time step_count g lim vel_limit d0
    start_time sample_rate is_real w0 Hlat Hr Hf.
  destruct (run_step_test_shaped fuel env step_size step_hold_time step_count
              g lim vel_limit d0 start_time sample_rate is_real w0 Hlat Hr Hf)
    as (sf & bs & Hsf & Hlen & _ & _ & Hpaced & _ & _ & Ht & _).
  cbn [d] in Ht.
  exists sf, bs. repeat apply conj; try assumption.
  - eapply Forall_impl; [|exact Hpaced]. intros b Hb.
    destruct (snd b) as [|x smp] eqn:E; [now right|left].
    specialize (Hb (length smp)). rewrite E in Hb.
    specialize (Hb eq_refl). cbn [length]. rewrite S_INR.
    assert (H1 : INR (length smp) * (1 / sample_rate) * sample_rate
                 < step_hold_time * sample_rate)
      by (apply Rmult_lt_compat_r; assumption).
    replace (INR (length smp) * (1 / sample_rate) * sample_rate)
      with (INR (length smp)) in H1 by (field; lra).
    lra.
  - intros Hh. eapply Forall_impl; [|exact Hpaced]. intros b Hb.
    destruct (snd b) as [|x smp] eqn:E; [reflexivity|exfalso].
    specialize (Hb (length smp)). rewrite E in Hb. specialize (Hb eq_refl).
    assert (Hp : 0 < 1 / sample_rate) by (apply Rdiv_pos_pos; lra).
    pose proof (pos_INR (length smp)) as Hn.
    assert (0 <= INR (length smp) * (1 / sample_rate))
      by (apply Rmult_le_pos; lra).
    lra.
Qed.

Lemma step_run_sampling_is_bounded_witness :
  let env := {| latency := fun _ => 1 / 100; states := fun _ => None |} in
  exists sf bs,
    run_step_test 0 env 10 0 1 default_gains default_limits 400 empty_dict
      (Some 0) 50 false (fresh_world 0) = Some sf
    /\ time (d sf) = flat_map phase_time bs
    /\ Forall (fun b => snd b = []) bs.
Proof.
  intros env.
  destruct (step_run_sampling_is_bounded 0 env 10 0 1 default_gains
              default_limits 400 empty_dict (Some 0) 50 false (fresh_world 0))
    as (sf & bs & Hsf & _ & Ht & _ & _ & Hnone).
  - intros k. cbn. lra.
  - lra.
  - cbn. lra.
  - exists sf, bs. repeat apply conj; try assumption. apply Hnone. lra.
Defined.

(** ** How long a step run takes *)

Section StepDuration.

Variable env : endpoint.
Variables start_time sample_period step_hold_time vel_limit L : R.

Hypothesis latency_bounds : forall k, 0 <= latency env k <= L.
Hypothesis period_pos : 0 < sample_period.
Hypothesis hold_nonneg : 0 <= step_hold_time.

(** A sampling loop ends less than one pass after its deadline. *)
Lemma hold_upto_ends (k : nat) (end_hold cmd : R) (s : run) :
  now (w (hold_upto env start_time sample_period vel_limit k end_hold cmd s))
  <= Rmax (now (w s)) (end_hold + L + sample_period).
Proof.
  revert s. induction k as [|k IH]; intros s; cbn [hold_upto].
  - apply Rmax_l.
  - destruct (Rlt_dec _ _) as [Hgo|Hstop]; [|apply Rmax_l].
    eapply Rle_trans; [apply IH|].
    destruct (hold_iter_clock env start_time sample_period vel_limit cmd s
                period_pos) as (Hn & _).
    rewrite Hn. pose proof (latency_bounds (calls (w s))).
    rewrite Rmax_right by lra. apply Rmax_r.
Qed.

Lemma step_phase_ends (fuel : nat) (cmd shown : R) (s s' : run) :
  step_phase env start_time sample_period step_hold_time vel_limit fuel cmd
    shown s = Some s' ->
  now (w s') <= now (w s) + (step_hold_time + 2 * L + sample_period).
Proof.
  unfold step_phase. intros H. apply hold_loop_end in H. destruct H as [-> _].
  eapply Rle_trans; [apply hold_upto_ends|].
  cbn [step_block w rpc now]. pose proof (latency_bounds (calls (w s))).
  apply Rmax_lub; lra.
Qed.

Lemma cycles_end (fuel : nat) (step_size : R) (l : list nat) (s s' : run) :
  cycles env start_time sample_period step_hold_time vel_limit fuel step_size
    l s = Some s' ->
  now (w s')
  <= now (w s)
     + 2 * INR (length l) * (step_hold_time + 2 * L + sample_period).
Proof.
  revert s. induction l as [|x l IH]; intros s H.
  - injection H as <-. cbn [length INR]. lra.
  - rewrite cycles_cons in H.
    destruct (step_cycle env start_time sample_period step_hold_time vel_limit
                fuel step_size s) as [s2|] eqn:E; [|discriminate].
    cbn [bind] in H. unfold step_cycle in E.
    destruct (step_phase env start_time sample_period step_hold_time vel_limit
                fuel step_size 0 s) as [s1|] eqn:E1; [|discriminate].
    cbn [bind] in E.
    apply step_phase_ends in E1. apply step_phase_ends in E. apply IH in H.
    change (length (x :: l)) with (S (length l)). rewrite S_INR. lra.
Qed.

End StepDuration.

(** X19. A step run lasts at least its [2 * step_count + 1] hold times and,
    when no call takes longer than [L], less than one sampling pass more per
    phase: each phase adds at most its command, the hold, one more query and
    one more sleep. *)
Theorem step_run_duration_bounds :
  forall L fuel env step_size step_hold_time step_count g lim vel_limit d0
         start_time sample_rate is_real w0,
    (forall k, 0 <= latency env k <= L) ->
    0 < sample_rate ->
    0 <= step_hold_time ->
    step_hold_time <= INR fuel * (1 / sample_rate) ->
    exists sf,
      run_step_test fuel env step_size step_hold_time step_count g lim
        vel_limit d0 start_time sample_rate is_real w0 = Some sf
      /\ now w0 + (2 * INR (Z.to_nat step_count) + 1) * step_hold_time
         <= now (w sf)
      /\ now (w sf)
         <= now w0 + L
            + (2 * INR (Z.to_nat step_count) + 1)
              * (step_hold_time + 2 * L + 1 / sample_rate).
Proof.
  intros L fuel env step_size step_hold_time step_count g lim vel_limit d0
    start_time sample_rate is_real w0 Hlat Hr Hh Hf.
  assert (Hlat0 : forall k, 0 <= latency env k) by (intros k; apply Hlat).
  assert (Hp : 0 < 1 / sample_rate) by (apply Rdiv_pos_pos; lra).
  destruct (run_step_test_returns fuel env step_size step_hold_time step_count
              g lim vel_limit d0 start_time sample_rate is_real w0 Hlat0 Hr Hf)
    as [sf Hsf].
  exists sf. split; [exact Hsf|]. split.
  - now apply (run_step_test_lasts fuel env step_size step_hold_time step_count
                 g lim vel_limit d0 start_time sample_rate is_real w0).
  - destruct (run_step_test_inv _ _ _ _ _ _ _ _ _ _ _ _ _ _ Hsf)
      as (s1 & E1 & E2).
    cbv zeta in E1, E2.
    apply (step_phase_ends env _ _ _ _ L Hlat Hp Hh) in E1.
    apply (cycles_end env _ _ _ _ L Hlat Hp Hh) in E2.
    rewrite length_seq in E2. cbn [w rpc now] in E1.
    pose proof (Hlat (calls w0)). lra.
Qed.

Lemma step_run_duration_bounds_witness :
  let env := {| latency := fun _ => 1 / 100; states := fun _ => None |} in
  exists sf,
    run_step_test 1 env 10 1 1 default_gains default_limits 400 empty_dict
      (Some 0) 1 false (fresh_world 0) = Some sf
    /\ 3 <= now (w sf)
    /\ now (w sf) <= 7.
Proof.
  intros env.
  destruct (step_run_duration_bounds (1 / 100) 1 env 10 1 1 default_gains
              default_limits 400 empty_dict (Some 0) 1 false (fresh_world 0))
    as (sf & Hsf & Hlow & Hup).
  - intros k. cbn. lra.
  - lra.
  - lra.
  - cbn. lra.
  - exists sf. split; [exact Hsf|].
    change (Z.to_nat 1) with 1%nat in Hlow, Hup.
    cbn [fresh_world now INR] in Hlow, Hup.
    split; lra.
Defined.

(** ** The two test processes *)

Lemma limits_of_sine_rows is_real env args global_start w0 steps :
  test args = Sine ->
  sine_steps (duration args) 50 = Some steps ->
  exists sf,
    run_sine_test env (amp args) (freq args) (duration args) (gains args)
      (limits_of args) 50 empty_dict global_start is_real true w0 = Some sf
    /\ (forall fuel,
           run_test is_real fuel env args global_start w0 = Some (d sf))
    /\ cmd_pos (d sf)
       = map (fun i => PyNum (sine_angle (amp args) (freq args)
                                (INR i * sine_dt 50)))
           (seq 0 steps)
    /\ cmd_vel (d sf)
       = map (fun i => PyNum (sine_vel (amp args) (freq args)
                                (INR i * sine_dt 50)))
           (seq 0 steps)
    /\ length (time (d sf)) = steps
    /\ length (position (d sf)) = steps.
Proof.
  intros Ht Hr.
  destruct (run_sine_test_closed env (amp args) (freq args) (duration args)
              (gains args) (limits_of args) 50 empty_dict global_start is_real
              true w0 steps Hr)
    as (sf & Hsf & _ & _ & Hcp & Hcv & Hp & _ & Hlt & _).
  cbv zeta in *. exists sf.
  assert (Hrun : forall fuel,
             run_test is_real fuel env args global_start w0 = Some (d sf))
    by (intros fuel; unfold run_test; rewrite Ht, Hsf; reflexivity).
  repeat apply conj; try assumption.
  now rewrite Hp, length_app, length_map, length_seq.
Qed.

(** X20. In a sine test the two processes command at 50 Hz whatever
    [--sample-rate] says (0 included, which makes a step test raise), and
    they send the same trajectory: their [cmd_pos] and [cmd_vel] columns are
    equal and, whatever the two endpoints answer and however long they
    take, both records have the [int(duration / (1.0 / 50.0))] rows of
    binary64: 35 for a duration of 0.7 s. *)
Theorem sine_processes_command_alike :
  (forall fuel fuel' env_sim env_real args global_start w_sim w_real steps,
      test args = Sine ->
      sine_steps (duration args) 50 = Some steps ->
      exists sim_data real_data,
        run_sim_test fuel env_sim args global_start w_sim = Some sim_data
        /\ run_real_test fuel' env_real args global_start w_real
           = Some real_data
        /\ cmd_pos sim_data = cmd_pos real_data
        /\ cmd_vel sim_data = cmd_vel real_data
        /\ length (time sim_data) = steps
        /\ length (time real_data) = steps
        /\ length (position sim_data) = length (position real_data))
  /\ sine_steps 0x1.6666666666666p-1 50 = Some 35%nat.
Proof.
  split; [|reflexivity].
  intros fuel fuel' env_sim env_real args global_start w_sim w_real steps
    Ht Hn.
  destruct (limits_of_sine_rows false env_sim args global_start w_sim steps
              Ht Hn)
    as (ss & _ & Hs & Hscp & Hscv & Hst & Hsp).
  destruct (limits_of_sine_rows true env_real args global_start w_real steps
              Ht Hn)
    as (sr & _ & Hr & Hrcp & Hrcv & Hrt & Hrp).
  exists (d ss), (d sr). unfold run_sim_test, run_real_test.
  repeat apply conj; try apply Hs; try apply Hr; try congruence.
Qed.

Lemma sine_processes_command_alike_witness :
  let args :=
    {| test := Sine; amp := 5; freq := 1; duration := 0x1.6666666666666p-1;
       step_size := 10; step_hold_time := 3; step_count := 2;
       gains := default_gains; arg_acceleration := 2000;
       arg_max_torque := 100; torque_off := false; sample_rate := 0 |} in
  let env_sim := {| latency := fun _ => 1 / 1000; states := fun _ => None |} in
  let env_real := {| latency := fun _ => 1 / 10; states := fun _ => None |} in
  exists sim_data real_data,
    run_sim_test 0 env_sim args 0 (fresh_world 0) = Some sim_data
    /\ run_real_test 0 env_real args 0 (fresh_world 1) = Some real_data
    /\ cmd_pos sim_data = cmd_pos real_data
    /\ length (time sim_data) = 35%nat.
Proof.
  intros args env_sim env_real.
  destruct (proj1 sine_processes_command_alike 0%nat 0%nat env_sim env_real
              args 0 (fresh_world 0) (fresh_world 1) 35%nat eq_refl eq_refl)
    as (ds & dr & Hs & Hr & Hcp & _ & Hlen & _).
  exists ds, dr. repeat apply conj; assumption.
Defined.

(** X21. What a test process hands back to [main]: for a sine test whose
    pass count is defined (no division by zero, a finite quotient), for a
    step test with a positive sample rate (and passes enough for its
    sampling loops), a record whose [time] and [position] columns have one
    length, as the computation of the overshoot figure needs, and whose
    stamps, all taken from the shared origin [global_start], never
    decrease.  A step test with a zero sample rate hands back nothing: the
    process raises. *)
Theorem test_process_record :
  (forall is_real fuel env args global_start w0 steps,
      (forall k, 0 <= latency env k) ->
      (test args = Sine -> sine_steps (duration args) 50 = Some steps) ->
      (test args = Step ->
       0 < sample_rate args
       /\ step_hold_time args <= INR fuel * (1 / sample_rate args)) ->
      exists data,
        run_test is_real fuel env args global_start w0 = Some data
        /\ length (time data) = length (position data)
        /\ aligned data
        /\ nondecreasing (time data)
        /\ nondecreasing (cmd_time data))
  /\ (forall fuel env args global_start w0,
         test args = Step ->
         sample_rate args = 0 ->
         run_sim_test fuel env args global_start w0 = None
         /\ run_real_test fuel env args global_start w0 = None).
Proof.
  split.
  - intros is_real fuel env args global_start w0 steps Hlat Hsine Hstep.
    assert (Hok : forall sf,
               follows global_start {| w := w0; d := empty_dict |} sf ->
               length (time (d sf)) = length (position (d sf))
               /\ aligned (d sf)
               /\ nondecreasing (time (d sf))
               /\ nondecreasing (cmd_time (d sf))).
    { intros sf (_ & _ & Hrec).
      destruct (Hrec (record_ok_empty global_start w0))
        as (Ha & Ht & Hc & _).
      split; [apply Ha|]. split; [exact Ha|]. split; assumption. }
    unfold run_test. destruct (test args) eqn:Ht.
    + pose proof (Hsine eq_refl) as Hr.
      pose proof (run_sine_test_eq env (amp args) (freq args) (duration args)
                    (gains args) (limits_of args) 50 empty_dict global_start
                    is_real true w0 steps Hr) as Hsf.
      rewrite Hsf. cbn [bind]. eexists. split; [reflexivity|].
      apply Hok. eapply follows_run_sine_test; [exact Hlat|exact Hsf].
    + destruct (Hstep eq_refl) as [Hr Hf].
      destruct (run_step_test_returns fuel env (step_size args)
                  (step_hold_time args) (step_count args) (gains args)
                  (limits_of args) 400 empty_dict (Some global_start)
                  (sample_rate args) is_real w0 Hlat Hr Hf) as [sf Hsf].
      rewrite Hsf. cbn [bind]. eexists. split; [reflexivity|].
      apply Hok.
      exact (follows_run_step_test _ _ _ _ _ _ _ _ _ _ _ _ _ _ Hlat Hsf).
  - intros fuel env args global_start w0 Ht Hr.
    unfold run_sim_test, run_real_test, run_test, run_step_test.
    rewrite Ht, Hr.
    destruct (Req_dec_T 0 0) as [_|Hn]; [split; reflexivity|].
    exfalso. now apply Hn.
Qed.

Lemma test_process_record_witness :
  let args :=
    {| test := Step; amp := 5; freq := 1; duration := 5; step_size := 10;
       step_hold_time := 1; step_count := 1; gains := default_gains;
       arg_acceleration := 2000; arg_max_torque := 100; torque_off := false;
       sample_rate := 1 |} in
  let env := {| latency := fun _ => 1 / 100; states := fun _ => None |} in
  exists data,
    run_sim_test 1 env args 0 (fresh_world 0) = Some data
    /\ length (time data) = length (position data).
Proof.
  intros args env.
  destruct (proj1 test_process_record false 1%nat env args 0 (fresh_world 0)
              0%nat)
    as (data & Hdata & Hlen & _).
  - intros k. cbn. lra.
  - discriminate.
  - intros _. cbn. lra.
  - exists data. split; [exact Hdata|exact Hlen].
Defined.

End DriverMore.
